(** * Placement engine of the Excel AI task pane (App.tsx)

    A shallow embedding of the spreadsheet helpers ([findPlacementCell],
    [writeResult], the upload writers) and of the placement handlers of the
    React component ([handlePlaceInExcelForChartOrBelow],
    [handlePlaceInSpecificCell], [handlePlaceOnResultsSheet],
    [handleDontPlace], [handleSend]), followed by the properties of the
    placement protocol and by further properties of the helpers and of the
    handlers.

    Host model.  The workbook is a list of worksheets; a worksheet maps
    zero-based (row, column) pairs to cell values.  The used range is the
    bounding rectangle of the cells holding a value (formatting is not
    modelled).  A batch of queued operations is applied in order and stops
    at the first one the host rejects.  A value assigned to a cell is stored
    as it is: the host's reading of a text as a number, a date or a formula
    is not modelled.  Strings are sequences of UTF-16
    code units; case mapping is modelled on the ASCII letters only, and the
    properties that depend on it are stated for ASCII text.  The numbers
    written to cells are exact decimals: their rounding to binary64 is not
    modelled.  The numbers of the results sheets are integers rounded to
    binary64, as [parseInt], [+] and template literals handle them.  The
    replies of the backend are taken with the fields, and the types of the
    fields, that the handlers read.  A handler runs to its end before the
    next event is handled: the states between its steps are not observed. *)
From Stdlib Require Import ZArith NArith List String Ascii Lia Bool DecimalPos DecimalN
  Sorted.
From stdpp Require Import gmap list.
Import ListNotations.

Local Open Scope N_scope.

(** ** Strings as UTF-16 code units *)

Abbreviation jsstring := (list N).

Definition js (s : string) : jsstring :=
  map N_of_ascii (list_ascii_of_string s).

Module Chars.

Definition isDigit (c : N) : bool := (48 <=? c) && (c <=? 57).
Definition isUpper (c : N) : bool := (65 <=? c) && (c <=? 90).
Definition isLower (c : N) : bool := (97 <=? c) && (c <=? 122).
Definition isLetter (c : N) : bool := isUpper c || isLower c.
Definition isAlnum (c : N) : bool := isLetter c || isDigit c.

(** [\w] *)
Definition isWord (c : N) : bool := isAlnum c || (c =? 95).

(** [\s], also the characters removed by [trim]: WhiteSpace and
    LineTerminator of ECMA-262. *)
Definition isSpace (c : N) : bool :=
  ((9 <=? c) && (c <=? 13)) || (c =? 32) || (c =? 160) || (c =? 5760)
  || ((8192 <=? c) && (c <=? 8202)) || (c =? 8232) || (c =? 8233)
  || (c =? 8239) || (c =? 8287) || (c =? 12288) || (c =? 65279).

Definition isChar (x : N) (c : N) : bool := c =? x.

(** A letter under the [i] flag: both cases of an ASCII letter. *)
Definition isCI (x : N) (c : N) : bool :=
  (c =? x) || (isUpper x && (c =? x + 32)) || (isLower x && (c =? x - 32)).

Definition toLower (c : N) : N := if isUpper c then c + 32 else c.
Definition toUpper (c : N) : N := if isLower c then c - 32 else c.

End Chars.

(** [s.toLowerCase()] and [s.toUpperCase()] as they act on ASCII text: the
    letters A to Z and a to z are mapped, every other code unit is kept.
    (The host also maps letters beyond ASCII, some to several code
    units.) *)
Definition toLowerCase (s : jsstring) : jsstring := map Chars.toLower s.
Definition toUpperCase (s : jsstring) : jsstring := map Chars.toUpper s.

(** The strings on which this case mapping is the host's. *)
Definition asciiOnly (s : jsstring) : Prop := Forall (fun c => c < 128) s.

Fixpoint dropWhile {A} (p : A -> bool) (l : list A) : list A :=
  match l with
  | [] => []
  | x :: l' => if p x then dropWhile p l' else l
  end.

Definition trimStart (s : jsstring) : jsstring := dropWhile Chars.isSpace s.
Definition trimEnd (s : jsstring) : jsstring := rev (dropWhile Chars.isSpace (rev s)).
Definition trim (s : jsstring) : jsstring := trimEnd (trimStart s).

Definition strEq (a b : jsstring) : bool := bool_decide (a = b).

Fixpoint startsWith (s p : jsstring) : bool :=
  match p, s with
  | [], _ => true
  | _ :: _, [] => false
  | x :: p', y :: s' => (x =? y) && startsWith s' p'
  end.

(** [s.includes(sub)] *)
Fixpoint includes (s sub : jsstring) : bool :=
  startsWith s sub ||
  match s with
  | [] => false
  | _ :: s' => includes s' sub
  end.

(** [s.split(sep)] for a one-character separator: never empty. *)
Fixpoint split (sep : N) (s : jsstring) : list jsstring :=
  match s with
  | [] => [[]]
  | c :: s' =>
      if c =? sep then [] :: split sep s'
      else match split sep s' with
           | seg :: segs => (c :: seg) :: segs
           | [] => [[c]]
           end
  end.

(** [l.pop()] as an expression: the last element, [None] for undefined. *)
Definition pop {A} (l : list A) : option A := last l.

(** Decimal rendering of an integer, as a template literal prints it. *)
Fixpoint uintUnits (d : Decimal.uint) : jsstring :=
  match d with
  | Decimal.Nil => []
  | Decimal.D0 d => 48 :: uintUnits d
  | Decimal.D1 d => 49 :: uintUnits d
  | Decimal.D2 d => 50 :: uintUnits d
  | Decimal.D3 d => 51 :: uintUnits d
  | Decimal.D4 d => 52 :: uintUnits d
  | Decimal.D5 d => 53 :: uintUnits d
  | Decimal.D6 d => 54 :: uintUnits d
  | Decimal.D7 d => 55 :: uintUnits d
  | Decimal.D8 d => 56 :: uintUnits d
  | Decimal.D9 d => 57 :: uintUnits d
  end.

Definition NToString (n : N) : jsstring := uintUnits (N.to_uint n).
Definition natToString (n : nat) : jsstring := NToString (N.of_nat n).
Definition ZToString (z : Z) : jsstring :=
  match z with
  | Zneg p => 45 :: NToString (Npos p)
  | _ => NToString (Z.to_N z)
  end.

(** [String.fromCharCode(n)]: one code unit, the argument modulo 2^16. *)
Definition fromCharCode (n : N) : jsstring := [n mod 65536].

(** Value of a run of digits in the given radix, most significant first. *)
Definition digitValue (c : N) : option N :=
  if Chars.isDigit c then Some (c - 48)
  else if Chars.isLower c then Some (c - 87)
  else if Chars.isUpper c then Some (c - 55)
  else None.

Definition isRadixDigit (radix : N) (c : N) : bool :=
  match digitValue c with
  | Some d => d <? radix
  | None => false
  end.

Fixpoint takeWhile {A} (p : A -> bool) (l : list A) : list A :=
  match l with
  | [] => []
  | x :: l' => if p x then x :: takeWhile p l' else []
  end.

Definition digitsValue (radix : N) (ds : jsstring) : N :=
  fold_left (fun acc c => acc * radix + default 0 (digitValue c)) ds 0.

(** ** Regular expressions

    The patterns of the source are sequences of quantified character
    classes; matching is greedy with backtracking, as in ECMAScript. *)

Module Regex.

Inductive item :=
| One (c : N -> bool)
| Opt (c : N -> bool)
| Star (c : N -> bool)
| Plus (c : N -> bool)
| Eos.

(** Longest-first choice for [c*] followed by the continuation [k]. *)
Fixpoint star (c : N -> bool) (k : jsstring -> option nat) (s : jsstring)
  : option nat :=
  match s with
  | x :: s' =>
      if c x then
        match star c k s' with
        | Some n => Some (S n)
        | None => k s
        end
      else k s
  | [] => k s
  end.

(** Length of the match of [re] at the start of [s]. *)
Fixpoint matchHere (re : list item) (s : jsstring) : option nat :=
  match re with
  | [] => Some 0%nat
  | One c :: re' =>
      match s with
      | x :: s' => if c x then S <$> matchHere re' s' else None
      | [] => None
      end
  | Opt c :: re' =>
      match s with
      | x :: s' =>
          if c x then
            match matchHere re' s' with
            | Some n => Some (S n)
            | None => matchHere re' s
            end
          else matchHere re' s
      | [] => matchHere re' s
      end
  | Star c :: re' => star c (matchHere re') s
  | Plus c :: re' =>
      match s with
      | x :: s' => if c x then S <$> star c (matchHere re') s' else None
      | [] => None
      end
  | Eos :: re' =>
      match s with
      | [] => matchHere re' s
      | _ :: _ => None
      end
  end.

(** [re.test(s)] for a pattern anchored with [^]. *)
Definition test (re : list item) (s : jsstring) : bool :=
  bool_decide (is_Some (matchHere re s)).

(** [s.match(re)]: the leftmost match, as (text before, matched text,
    text after). *)
Fixpoint search (re : list item) (s : jsstring)
  : option (jsstring * jsstring * jsstring) :=
  match matchHere re s with
  | Some n => Some ([], take n s, drop n s)
  | None =>
      match s with
      | [] => None
      | x :: s' =>
          match search re s' with
          | Some (pre, m, post) => Some (x :: pre, m, post)
          | None => None
          end
      end
  end.

End Regex.

(** ** Numbers written to cells

    A number is the exact decimal [unscaled / 10^scale]; the canonical form
    has no trailing zero in the fraction. *)

Record JsNumber := { unscaled : Z; scale : nat }.

Definition stripZeros (ds : jsstring) : jsstring :=
  rev (dropWhile (Chars.isChar 48) (rev ds)).

(** [parseFloat(s)]: optional sign, digits, optional fraction; [None] is
    NaN.  Exponent parts and [Infinity] are left out: the source applies
    [parseFloat] only to a match of the numeric pattern, which has none. *)
Definition parseFloat (s : jsstring) : option JsNumber :=
  let s1 := trimStart s in
  let '(neg, s2) :=
    match s1 with
    | 45 :: r => (true, r)
    | 43 :: r => (false, r)
    | _ => (false, s1)
    end in
  let int := takeWhile Chars.isDigit s2 in
  let frac :=
    match drop (length int) s2 with
    | 46 :: r => takeWhile Chars.isDigit r
    | _ => []
    end in
  match int ++ frac with
  | [] => None
  | _ =>
      let frac' := stripZeros frac in
      let v := Z.of_N (digitsValue 10 (int ++ frac')) in
      Some {| unscaled := if neg then (- v)%Z else v; scale := length frac' |}
  end.

(** Number::toString of ECMA-262, radix 10. *)
Definition numberToString (x : JsNumber) : jsstring :=
  let sign := if (unscaled x <? 0)%Z then [45] else [] in
  let ds := NToString (Z.abs_N (unscaled x)) in
  let s := match stripZeros ds with [] => [48] | d => d end in
  let k := Z.of_nat (length s) in
  let n := (Z.of_nat (length ds) - Z.of_nat (scale x))%Z in
  if (unscaled x =? 0)%Z then [48]
  else if ((k <=? n) && (n <=? 21))%Z then
    sign ++ s ++ repeat 48 (Z.to_nat (n - k))
  else if ((0 <? n) && (n <=? 21))%Z then
    sign ++ take (Z.to_nat n) s ++ [46] ++ drop (Z.to_nat n) s
  else if ((-6 <? n) && (n <=? 0))%Z then
    sign ++ [48; 46] ++ repeat 48 (Z.to_nat (- n)) ++ s
  else
    let e := (n - 1)%Z in
    let es := (if (e <? 0)%Z then [45] else [43]) ++ NToString (Z.abs_N e) in
    match s with
    | [d] => sign ++ [d; 101] ++ es
    | d :: r => sign ++ d :: 46 :: r ++ [101] ++ es
    | [] => []
    end.

(** ** Integers as binary64 numbers

    An integer-valued Number is modelled by its value.  The values [2^1024]
    and [-2^1024], the first ones beyond the finite range, stand for
    [Infinity] and [-Infinity]. *)

Module Binary64.

Definition infinity : Z := (2 ^ 1024)%Z.

(** The nearest integer with at most 53 significant bits, a tie going to
    the even significand; [n] is not negative. *)
Definition roundMagnitude (n : Z) : Z :=
  let e := (Z.log2 n - 52)%Z in
  if (e <=? 0)%Z then n
  else
    let q := Z.shiftr n e in
    let r := Z.land n (Z.ones e) in
    let half := Z.shiftl 1 (e - 1) in
    let up := (half <? r)%Z || ((r =? half)%Z && Z.odd q) in
    Z.shiftl (if up then q + 1 else q)%Z e.

(** The Number value of the integer [z]. *)
Definition round (z : Z) : Z :=
  (Z.sgn z * Z.min (roundMagnitude (Z.abs z)) infinity)%Z.

(** The decimal [c] denotes the Number [x]. *)
Definition readsBack (x c : Z) : bool := (round c =? x)%Z.

(** Of the two multiples of [p] next to [x], the one that denotes [x]; the
    closer one if both do, the one with the even last digit at a tie. *)
Definition nearest (x p : Z) : option Z :=
  let lo := (x / p * p)%Z in
  let hi := (lo + p)%Z in
  match readsBack x lo, readsBack x hi with
  | true, true =>
      Some (if (x - lo <? hi - x)%Z then lo
            else if (hi - x <? x - lo)%Z then hi
            else if Z.even (x / p) then lo else hi)
  | true, false => Some lo
  | false, true => Some hi
  | false, false => None
  end.

(** The search for the decimal with the fewest significant digits, from
    [k] digits on; [d] is the number of digits of [x]. *)
Fixpoint shortestFrom (x : Z) (d k fuel : nat) : Z :=
  match fuel with
  | O => x
  | S fuel' =>
      match nearest x (10 ^ Z.of_nat (d - k)) with
      | Some c => c
      | None => shortestFrom x d (S k) fuel'
      end
  end.

(** The integer [s * 10^(n-k)] of Number::toString: the decimal with the
    fewest significant digits that denotes [x]; [x] is not negative. *)
Definition shortest (x : Z) : Z :=
  let d := length (NToString (Z.to_N x)) in
  shortestFrom x d 1 d.

(** Number::toString of ECMA-262, radix 10, for an integer-valued Number:
    the digits of [s] followed by [n - k] zeros up to 21 digits, the
    exponent notation beyond. *)
Definition toString (x : Z) : jsstring :=
  let sign := if (x <? 0)%Z then [45] else [] in
  let m := Z.abs x in
  if (infinity <=? m)%Z then sign ++ js "Infinity"
  else
    let c := shortest m in
    let ds := NToString (Z.to_N c) in
    if (c <? 10 ^ 21)%Z then sign ++ ds
    else
      let e := js "e+" ++ natToString (length ds - 1) in
      match stripZeros ds with
      | [] => []
      | [d] => sign ++ d :: e
      | d :: r => sign ++ d :: 46 :: r ++ e
      end.

End Binary64.

(** [parseInt(s)] without a radix; [None] is NaN.  The integer read is
    rounded to the nearest Number, as the engines do (ECMA-262 lets an
    implementation approximate the digits after the twentieth). *)
Definition parseInt (s : jsstring) : option Z :=
  let s1 := trimStart s in
  let '(neg, s2) :=
    match s1 with
    | 45 :: r => (true, r)
    | 43 :: r => (false, r)
    | _ => (false, s1)
    end in
  let '(radix, s3) :=
    match s2 with
    | 48 :: 120 :: r => (16, r)
    | 48 :: 88 :: r => (16, r)
    | _ => (10, s2)
    end in
  match takeWhile (isRadixDigit radix) s3 with
  | [] => None
  | ds => let v := Z.of_N (digitsValue radix ds) in
          Some (Binary64.round (if neg then (- v)%Z else v))
  end.

(** ** Cell values and worksheets *)

Inductive CellValue :=
| VNull
| VStr (s : jsstring)
| VNum (x : JsNumber)
| VBool (b : bool).

#[global] Instance JsNumber_eq_dec : EqDecision JsNumber.
Proof. solve_decision. Defined.

#[global] Instance CellValue_eq_dec : EqDecision CellValue.
Proof. solve_decision. Defined.

(** [v !== null && v !== ""] *)
Definition filled (v : CellValue) : bool :=
  match v with
  | VNull => false
  | VStr [] => false
  | _ => true
  end.

(** ToBoolean *)
Definition truthy (v : CellValue) : bool :=
  match v with
  | VNull => false
  | VStr s => negb (strEq s [])
  | VNum x => negb (unscaled x =? 0)%Z
  | VBool b => b
  end.

(** [String(v)] *)
Definition toString (v : CellValue) : jsstring :=
  match v with
  | VNull => js "null"
  | VStr s => s
  | VNum x => numberToString x
  | VBool true => js "true"
  | VBool false => js "false"
  end.

Record Worksheet := {
  sheetName : jsstring;
  cells : gmap (nat * nat) CellValue;
  images : list jsstring
}.

(** What a read of the cell at zero-based (row, column) yields: the empty
    string where nothing is stored. *)
Definition cellAt (ws : Worksheet) (r c : nat) : CellValue :=
  default (VStr []) (cells ws !! (r, c)).

(** Assignment to a cell: [null] leaves the cell as it is, the empty string
    clears it. *)
Definition putCell (k : nat * nat) (v : CellValue)
    (m : gmap (nat * nat) CellValue) : gmap (nat * nat) CellValue :=
  match v with
  | VNull => m
  | VStr [] => delete k m
  | _ => <[k := v]> m
  end.

Record Bounds := { minRow : nat; minCol : nat; maxRow : nat; maxCol : nat }.

Definition extend (k : nat * nat) (v : CellValue) (acc : option Bounds)
  : option Bounds :=
  if filled v then
    Some match acc with
         | None => {| minRow := k.1; minCol := k.2; maxRow := k.1; maxCol := k.2 |}
         | Some b => {| minRow := Nat.min (minRow b) k.1;
                        minCol := Nat.min (minCol b) k.2;
                        maxRow := Nat.max (maxRow b) k.1;
                        maxCol := Nat.max (maxCol b) k.2 |}
         end
  else acc.

(** The bounding rectangle of the cells that hold a value. *)
Definition usedBounds (ws : Worksheet) : option Bounds :=
  map_fold extend None (cells ws).

Record Range := {
  values : list (list CellValue);
  rowCount : nat;
  columnCount : nat
}.

Definition rangeOf (ws : Worksheet) (b : Bounds) : Range :=
  let h := (maxRow b - minRow b + 1)%nat in
  let w := (maxCol b - minCol b + 1)%nat in
  {| values := map (fun r => map (cellAt ws r) (seq (minCol b) w)) (seq (minRow b) h);
     rowCount := h;
     columnCount := w |}.

(** [sheet.getUsedRangeOrNullObject()], loaded: [None] is the null object. *)
Definition getUsedRangeOrNullObject (ws : Worksheet) : option Range :=
  rangeOf ws <$> usedBounds ws.

(** [usedRange.values || []] *)
Definition valuesOrEmpty (u : option Range) : list (list CellValue) :=
  match u with
  | Some r => values r
  | None => []
  end.

(** [used.rowCount || 0] and [used.rowCount ?? 0] *)
Definition rowCountOrZero (u : option Range) : nat :=
  match u with
  | Some r => rowCount r
  | None => 0%nat
  end.

(** *** A1 addresses *)

Definition maxRows : N := 1048576.
Definition maxColumns : N := 16384.

(** One-based column number of a run of letters (A = 1, Z = 26, AA = 27). *)
Definition columnNumber (letters : jsstring) : N :=
  fold_left (fun acc c => acc * 26 + (Chars.toUpper c - 64)) letters 0.

(** The cell a host address denotes, zero-based (row, column): letters in
    either case, then a row number, inside the grid. *)
Definition parseA1 (addr : jsstring) : option (nat * nat) :=
  let letters := takeWhile Chars.isLetter addr in
  let digits := drop (length letters) addr in
  match letters, digits with
  | _ :: _, _ :: _ =>
      if forallb Chars.isDigit digits then
        let col := columnNumber letters in
        let row := digitsValue 10 digits in
        if (1 <=? row) && (row <=? maxRows) && (col <=? maxColumns)
        then Some (N.to_nat (row - 1), N.to_nat (col - 1))
        else None
      else None
  | _, _ => None
  end.

(** ** The workbook and the host's operations *)

Record Workbook := {
  worksheets : list Worksheet;
  activeSheet : nat
}.

Definition withCells (ws : Worksheet) (m : gmap (nat * nat) CellValue)
  : Worksheet :=
  {| sheetName := sheetName ws; cells := m; images := images ws |}.

Definition withImages (ws : Worksheet) (imgs : list jsstring) : Worksheet :=
  {| sheetName := sheetName ws; cells := cells ws; images := imgs |}.

(** The workbook with the sheet at position [h] replaced. *)
Definition withSheet (wb : Workbook) (h : nat) (ws : Worksheet) : Workbook :=
  {| worksheets := <[h := ws]> (worksheets wb); activeSheet := activeSheet wb |}.

Inductive HostCode :=
| InvalidArgument
| ItemAlreadyExists
| ItemNotFound
| GeneralException.

Inductive Error :=
| JsError (message : jsstring)
| HostError (code : HostCode).

(** [e.message] *)
Definition errorMessage (e : Error) : jsstring :=
  match e with
  | JsError m => m
  | HostError InvalidArgument =>
      js "The argument is invalid or missing or has an incorrect format."
  | HostError ItemAlreadyExists =>
      js "A resource with the same name or identifier already exists."
  | HostError ItemNotFound => js "The requested resource doesn't exist."
  | HostError GeneralException =>
      js "There was an internal error while processing the request."
  end.

Inductive outcome (A : Type) :=
| Ok (a : A)
| Throw (e : Error).
Arguments Ok {A} a.
Arguments Throw {A} e.

(** [l.findIndex(p)]; [None] is -1. *)
Fixpoint findIndex {A} (p : A -> bool) (l : list A) : option nat :=
  match l with
  | [] => None
  | x :: l' => if p x then Some 0%nat else S <$> findIndex p l'
  end.

(** A computation over a state [S] that returns or throws. *)
Definition Comp (S A : Type) : Type := S -> S * outcome A.

Definition ret {S A} (a : A) : Comp S A := fun s => (s, Ok a).
Definition throw {S A} (e : Error) : Comp S A := fun s => (s, Throw e).
Definition bind {S A B} (m : Comp S A) (k : A -> Comp S B) : Comp S B :=
  fun s =>
    match m s with
    | (s', Ok a) => k a s'
    | (s', Throw e) => (s', Throw e)
    end.

(** [try { body } catch (e) { handler e }] *)
Definition tryCatch {S A} (body : Comp S A) (handler : Error -> Comp S A)
  : Comp S A :=
  fun s =>
    match body s with
    | (s', Ok a) => (s', Ok a)
    | (s', Throw e) => handler e s'
    end.

Notation "'let*' x ':=' m 'in' k" := (bind m (fun x => k))
  (at level 10, x name, m at level 100, k at level 200).
Notation "m ';;;' k" := (bind m (fun _ => k))
  (at level 100, k at level 200, right associativity).

(** The body of an [Excel.run]: each operation acts on the workbook at once
    and a rejected one throws, keeping what was done before it. *)
Definition Excel (A : Type) : Type := Comp Workbook A.

Module Host.

(** Worksheets are handled by their position in the collection. *)
Definition getActiveWorksheet : Excel nat :=
  fun wb => (wb, Ok (activeSheet wb)).

Definition sheet (h : nat) : Excel Worksheet :=
  fun wb =>
    match worksheets wb !! h with
    | Some ws => (wb, Ok ws)
    | None => (wb, Throw (HostError GeneralException))
    end.

Definition setCells (h : nat) (f : gmap (nat * nat) CellValue ->
                                   gmap (nat * nat) CellValue) : Excel unit :=
  fun wb =>
    match worksheets wb !! h with
    | Some ws => (withSheet wb h (withCells ws (f (cells ws))), Ok tt)
    | None => (wb, Throw (HostError GeneralException))
    end.

(** [sheets.load("items/name")], then the names. *)
Definition names : Excel (list jsstring) :=
  fun wb => (wb, Ok (map sheetName (worksheets wb))).

Definition sameName (a b : jsstring) : bool :=
  strEq (toLowerCase a) (toLowerCase b).

Definition validName (n : jsstring) : bool :=
  negb (strEq n []) && (length n <=? 31)%nat
  && forallb (fun c => negb (existsb (N.eqb c) [58; 92; 47; 63; 42; 91; 93])) n.

(** [sheets.add(name)]: the new sheet is last, and not activated. *)
Definition add (name : jsstring) : Excel nat :=
  fun wb =>
    if negb (validName name) then (wb, Throw (HostError InvalidArgument))
    else if existsb (fun ws => sameName (sheetName ws) name) (worksheets wb)
    then (wb, Throw (HostError ItemAlreadyExists))
    else ({| worksheets := worksheets wb ++
               [{| sheetName := name; cells := ∅; images := [] |}];
             activeSheet := activeSheet wb |},
          Ok (length (worksheets wb))).

(** [sheets.getItemOrNullObject(name)] *)
Definition getItemOrNullObject (name : jsstring) : Excel (option nat) :=
  fun wb =>
    (wb, Ok (findIndex (fun ws => sameName (sheetName ws) name) (worksheets wb))).

(** [sheets.getItem(name)] *)
Definition getItem (name : jsstring) : Excel nat :=
  let* o := getItemOrNullObject name in
  match o with
  | Some h => ret h
  | None => throw (HostError ItemNotFound)
  end.

(** [sheet.getUsedRangeOrNullObject()] with its properties loaded. *)
Definition usedRange (h : nat) : Excel (option Range) :=
  let* ws := sheet h in ret (getUsedRangeOrNullObject ws).

(** [sheet.getRange(addr)], [load("values")], [sync], then
    [range.values?.[0]?.[0]]. *)
Definition readCell (h : nat) (addr : jsstring) : Excel CellValue :=
  let* ws := sheet h in
  match parseA1 addr with
  | Some (r, c) => ret (cellAt ws r c)
  | None => throw (HostError InvalidArgument)
  end.

(** [range.values = [[v]]] on [sheet.getRange(addr)]. *)
Definition writeCell (h : nat) (addr : jsstring) (v : CellValue) : Excel unit :=
  match parseA1 addr with
  | Some k => setCells h (putCell k v)
  | None => throw (HostError InvalidArgument)
  end.

Definition putRow (r c0 : nat) (row : list CellValue)
    (m : gmap (nat * nat) CellValue) : gmap (nat * nat) CellValue :=
  foldr (fun '(j, v) acc => putCell (r, (c0 + j)%nat) v acc) m (imap pair row).

Definition putRows (r0 c0 : nat) (rows : list (list CellValue))
    (m : gmap (nat * nat) CellValue) : gmap (nat * nat) CellValue :=
  foldr (fun '(i, row) acc => putRow (r0 + i)%nat c0 row acc) m (imap pair rows).

(** [range.values = rows] on the block of [nrows] by [ncols] cells at
    zero-based (r0, c0): the block must not be empty, must lie in the
    grid, and the array must have its shape. *)
Definition writeBlock (h : nat) (r0 c0 nrows ncols : nat)
    (rows : list (list CellValue)) : Excel unit :=
  if (0 <? nrows)%nat && (0 <? ncols)%nat
     && (N.of_nat (r0 + nrows) <=? maxRows) && (N.of_nat (c0 + ncols) <=? maxColumns)
     && (length rows =? nrows)%nat
     && forallb (fun row => (length row =? ncols)%nat) rows
  then setCells h (putRows r0 c0 rows)
  else throw (HostError InvalidArgument).

(** [sheet.shapes.addImage(base64)] *)
Definition addImage (h : nat) (base64 : jsstring) : Excel unit :=
  fun wb =>
    match worksheets wb !! h with
    | Some ws => (withSheet wb h (withImages ws (images ws ++ [base64])), Ok tt)
    | None => (wb, Throw (HostError GeneralException))
    end.

End Host.

(** ** Excel helpers of the source *)

(** [getExcelData], the field the caller uses: [usedRange.values || []]. *)
Definition getExcelData : Excel (list (list CellValue)) :=
  let* sheet := Host.getActiveWorksheet in
  let* usedRange := Host.usedRange sheet in
  ret (valuesOrEmpty usedRange).

Record Placement := {
  found : bool;
  cellAddress : option jsstring;   (* [None] is null *)
  occupied : bool
}.

(** The test of [headerRow.findIndex]. *)
Definition headerMatches (columnName : jsstring) (h : CellValue) : bool :=
  truthy h && includes (toLowerCase (toString h)) (toLowerCase columnName).

(** [values[i][targetIndex]]; [None] is undefined. *)
Definition columnCell (vals : list (list CellValue)) (i targetIndex : nat)
  : option CellValue :=
  vals !! i ≫= fun row => row !! targetIndex.

(** [v !== null && v !== "" && typeof v !== "undefined"] *)
Definition present (v : option CellValue) : bool :=
  match v with
  | Some v => filled v
  | None => false
  end.

(** The loop [for (let i = 1; i < values.length; i++)] that keeps the last
    row whose cell in the column holds a value. *)
Definition lastFilledRow (vals : list (list CellValue)) (targetIndex : nat) : nat :=
  fold_left
    (fun lastRow i => if present (columnCell vals i targetIndex) then i else lastRow)
    (seq 1 (length vals - 1)) 0%nat.

Definition placementAddress (vals : list (list CellValue)) (targetIndex : nat)
  : jsstring :=
  let nextRow := (lastFilledRow vals targetIndex + 2)%nat in
  let colLetter := fromCharCode (65 + N.of_nat targetIndex) in
  colLetter ++ natToString nextRow.

Definition findPlacementCell (columnName : jsstring) : Excel Placement :=
  let* sheet := Host.getActiveWorksheet in
  let* usedRange := Host.usedRange sheet in
  let vals := valuesOrEmpty usedRange in
  match vals with
  | [] => ret {| found := false; cellAddress := Some (js "A1"); occupied := false |}
  | headerRow :: _ =>
      match findIndex (headerMatches columnName) headerRow with
      | None => ret {| found := false; cellAddress := None; occupied := false |}
      | Some targetIndex =>
          let addr := placementAddress vals targetIndex in
          let* cellValue := Host.readCell sheet addr in
          ret {| found := true; cellAddress := Some addr;
                 occupied := filled cellValue |}
      end
  end.

(** *** Results sheet names *)

Definition resultsPrefix : jsstring := js "AI_Results".

(** [parseInt(m.split("_").pop() || "0")], NaN replaced by 0: a Number. *)
Definition suffixNumber (m : jsstring) : Z :=
  let p := match pop (split 95 m) with
           | Some (c :: r) => c :: r
           | _ => js "0"
           end in
  match parseInt p with
  | Some v => v
  | None => 0%Z
  end.

(** [Math.max(...nums)] of a list of Numbers that is not empty. *)
Definition maxOf (nums : list Z) : Z :=
  match nums with
  | [] => 0%Z
  | x :: l => fold_left Z.max l x
  end.

(** [next]: 1, or [Math.max(...nums) + 1] when a name has the prefix. *)
Definition nextResultsIndex (names : list jsstring) : Z :=
  let matches := List.filter (fun n => startsWith n resultsPrefix) names in
  match matches with
  | [] => 1%Z
  | _ => Binary64.round (maxOf (map suffixNumber matches) + 1)
  end.

(** [`AI_Results_${next}`] *)
Definition nextResultsSheetName (names : list jsstring) : jsstring :=
  js "AI_Results_" ++ Binary64.toString (nextResultsIndex names).

(** *** writeResult *)

(** [/[-+]?[0-9]*\.?[0-9]+/] *)
Definition numericPattern : list Regex.item :=
  [Regex.Opt (fun c => Chars.isChar 45 c || Chars.isChar 43 c);
   Regex.Star Chars.isDigit; Regex.Opt (Chars.isChar 46); Regex.Plus Chars.isDigit].

(** [/^[A-Z]+[0-9]+$/] *)
Definition addressPattern : list Regex.item :=
  [Regex.Plus Chars.isUpper; Regex.Plus Chars.isDigit; Regex.Eos].

(** [/^[A-Z]+[0-9]+$/i] *)
Definition addressPatternCI : list Regex.item :=
  [Regex.Plus Chars.isLetter; Regex.Plus Chars.isDigit; Regex.Eos].

(** [m ? parseFloat(m[0]) : note]; a NaN would reach the sheet as null. *)
Definition resultValue (note : jsstring) : CellValue :=
  match Regex.search numericPattern note with
  | Some (_, m, _) =>
      match parseFloat m with
      | Some x => VNum x
      | None => VNull
      end
  | None => VStr note
  end.

Definition invalidAddressError (addr : jsstring) : Error :=
  JsError (js "Invalid cell address: " ++ addr).

Definition occupiedError (addr : jsstring) : Error :=
  JsError (js "Cell " ++ addr ++ js " already contains data.").

(** [cellAddress ? cellAddress.toUpperCase() : "A1"] *)
Definition targetAddress (cellAddress : option jsstring) : jsstring :=
  match cellAddress with
  | Some (c :: r) => toUpperCase (c :: r)
  | _ => js "A1"
  end.

(** [writeResult(note, newSheet, cellAddress, overwrite)]; an absent
    [cellAddress] is [None]. *)
Definition writeResult (note : jsstring) (newSheet : bool)
    (cellAddress : option jsstring) (overwrite : bool) : Excel unit :=
  let* sheet :=
    if newSheet then
      let* names := Host.names in
      Host.add (nextResultsSheetName names)
    else Host.getActiveWorksheet in
  let addr := targetAddress cellAddress in
  if negb (Regex.test addressPatternCI addr) then throw (invalidAddressError addr)
  else
    let* cur := Host.readCell sheet addr in
    if filled cur && negb overwrite then throw (occupiedError addr)
    else Host.writeCell sheet addr (resultValue note).

(** *** Chart images *)

Fixpoint indexOf (s sub : jsstring) : option nat :=
  if startsWith s sub then Some 0%nat
  else match s with
       | [] => None
       | _ :: s' => S <$> indexOf s' sub
       end.

(** The payload without a data-URL prefix. *)
Definition stripDataUrl (chartBase64 : jsstring) : jsstring :=
  match indexOf chartBase64 (js "base64,") with
  | Some prefixIndex => drop (prefixIndex + 7) chartBase64
  | None => chartBase64
  end.

(** [insertChartImageOnSheet(chartBase64, sheetName)].  The geometry and
    the naming of the image are not modelled. *)
Definition insertChartImageOnSheet (chartBase64 : jsstring)
    (sheetName : option jsstring) : Excel unit :=
  let* sheet :=
    match sheetName with
    | Some (c :: r) =>
        let* maybe := Host.getItemOrNullObject (c :: r) in
        match maybe with
        | None => Host.add (c :: r)
        | Some _ => Host.getItem (c :: r)
        end
    | _ => Host.getActiveWorksheet
    end in
  Host.addImage sheet (stripDataUrl chartBase64).

(** *** Upload writers *)

Inductive UploadResult :=
| Created (sheetName : jsstring)
| Wrote (mode : jsstring) (startCell : option jsstring)
| NotWritten (reason : jsstring).

Definition headerCells (headers : list jsstring) : list CellValue :=
  map VStr headers.

(** [createSheetFromUpload(sheetName, headers, dataRows)]; the
    [newSheet.name] it returns is taken to be the name given to [add]. *)
Definition createSheetFromUpload (sheetName : jsstring)
    (headers : list jsstring) (dataRows : list (list CellValue))
  : Excel UploadResult :=
  let* newSheet := Host.add sheetName in
  Host.writeBlock newSheet 0 0 1 (length headers) [headerCells headers] ;;;
  (if (0 <? length dataRows)%nat
   then Host.writeBlock newSheet 1 0 (length dataRows) (length headers) dataRows
   else ret tt) ;;;
  ret (Created sheetName).

(** [firstRow.reduceRight((acc, val, idx) =>
       acc === -1 && val !== "" && val !== null ? idx : acc, -1)] *)
Definition lastFilledIndex (firstRow : list CellValue) : option nat :=
  fold_left
    (fun acc '(idx, val) =>
       match acc with
       | None => if filled val then Some idx else None
       | Some _ => acc
       end)
    (rev (imap pair firstRow)) None.

(** [indexToColumnName(index)] for a one-based index; the loop runs at
    most [index] times. *)
Fixpoint indexToColumnNameLoop (fuel : nat) (index : N) (colName : jsstring)
  : jsstring :=
  match fuel with
  | O => colName
  | S fuel' =>
      if 0 <? index then
        let rem := (index - 1) mod 26 in
        indexToColumnNameLoop fuel' ((index - 1) / 26)
          (fromCharCode (65 + rem) ++ colName)
      else colName
  end.

Definition indexToColumnName (index : N) : jsstring :=
  indexToColumnNameLoop (N.to_nat index) index [].

Definition firstRowOf (used : option Range) : option (list CellValue) :=
  match used with
  | Some r => match values r with
              | firstRow :: _ => Some firstRow
              | [] => None
              end
  | None => None
  end.

Definition appendUploadToActiveSheet (headers : list jsstring)
    (dataRows : list (list CellValue)) : Excel UploadResult :=
  let* sheet := Host.getActiveWorksheet in
  let* used := Host.usedRange sheet in
  let startColumn :=
    match firstRowOf used with
    | Some firstRow =>
        match lastFilledIndex firstRow with
        | Some lastFilled => (lastFilled + 1)%nat
        | None => 0%nat
        end
    | None => 0%nat
    end in
  Host.writeBlock sheet 0 startColumn 1 (length headers) [headerCells headers] ;;;
  (if (0 <? length dataRows)%nat
   then Host.writeBlock sheet 1 startColumn (length dataRows) (length headers) dataRows
   else ret tt) ;;;
  ret (Wrote (js "always_horizontal")
         (Some (indexToColumnName (N.of_nat startColumn + 1) ++ js "1"))).

Definition appendUploadToActiveSheetVertical (headers : list jsstring)
    (dataRows : list (list CellValue)) : Excel UploadResult :=
  let* sheet := Host.getActiveWorksheet in
  let* used := Host.usedRange sheet in
  let hasHeader :=
    match firstRowOf used with
    | Some firstRow => existsb filled firstRow
    | None => false
    end in
  let* startRow :=
    if hasHeader then ret (length (valuesOrEmpty used))
    else
      Host.writeBlock sheet 0 0 1 (length headers) [headerCells headers] ;;;
      ret 1%nat in
  Host.writeBlock sheet startRow 0 (length dataRows) (length headers) dataRows ;;;
  ret (Wrote (js "always_vertical") (Some (js "A" ++ natToString (startRow + 1)))).

Definition writeUploadToEmptySheet (headers : list jsstring)
    (dataRows : list (list CellValue)) : Excel UploadResult :=
  let* sheet := Host.getActiveWorksheet in
  let* used := Host.usedRange sheet in
  if (0 <? rowCountOrZero used)%nat then ret (NotWritten (js "sheet_not_empty"))
  else
    let width := Nat.max 1 (length headers) in
    Host.writeBlock sheet 0 0 1 width [headerCells headers] ;;;
    (if (0 <? length dataRows)%nat
     then Host.writeBlock sheet 1 0 (length dataRows) width dataRows
     else ret tt) ;;;
    ret (Wrote (js "wrote_to_empty_sheet") None).

(** *** A small utility *)

(** [arraysEqualCI(a, b)] *)
Definition arraysEqualCI (a b : list jsstring) : bool :=
  if negb (length a =? length b)%nat then false
  else
    forallb
      (fun i => strEq (toLowerCase (default [] (a !! i)))
                      (toLowerCase (default [] (b !! i))))
      (seq 0 (length a)).

(** ** The component's state *)

Module Message.
Inductive Role := user | ai.
Record t := { role : Role; text : jsstring; chart : option jsstring }.
End Message.

Record AwaitingOverwrite := {
  addr : jsstring;
  chartFlag : bool
}.

(** [pendingPlacement]; an absent optional field is [None]. *)
Record PendingPlacement := {
  note : jsstring;
  chart : option jsstring;
  suggestedColumn : option jsstring;
  awaitingCell : bool;
  awaitingOverwrite : option AwaitingOverwrite
}.

Record PendingUpload := {
  fileId : jsstring;
  fileName : jsstring;
  headers : list jsstring;
  rows : list (list CellValue)
}.

(** The body of the request sent to the backend. *)
Record Payload := {
  user_message : jsstring;
  excel_data : list (list CellValue);
  chat_history : list Message.t
}.

(** What the exchange with the chat endpoint yields: a failure of the
    transport, an empty body, or the fields of the reply. *)
Inductive BackendAnswer :=
| Failed (message : jsstring)
| NoData
| Data (ok : bool) (note : option jsstring) (chart : option jsstring).

(** The React state of [App] with the workbook it acts on and the log of
    the requests posted to the chat endpoint of the backend.  The loading
    indicator is left out. *)
Record AppState := {
  messages : list Message.t;
  input : jsstring;
  pendingPlacement : option PendingPlacement;
  pendingUpload : option PendingUpload;
  workbook : Workbook;
  requests : list Payload
}.

Definition Handler (A : Type) : Type := Comp AppState A.

Definition pushMessage (m : Message.t) : Handler unit :=
  fun st =>
    ({| messages := messages st ++ [m]; input := input st;
        pendingPlacement := pendingPlacement st;
        pendingUpload := pendingUpload st; workbook := workbook st;
        requests := requests st |}, Ok tt).

Definition say (txt : jsstring) : Handler unit :=
  pushMessage {| Message.role := Message.ai; Message.text := txt;
                 Message.chart := None |}.

Definition setInput (v : jsstring) : Handler unit :=
  fun st =>
    ({| messages := messages st; input := v;
        pendingPlacement := pendingPlacement st;
        pendingUpload := pendingUpload st; workbook := workbook st;
        requests := requests st |}, Ok tt).

Definition setPendingPlacement (v : option PendingPlacement) : Handler unit :=
  fun st =>
    ({| messages := messages st; input := input st; pendingPlacement := v;
        pendingUpload := pendingUpload st; workbook := workbook st;
        requests := requests st |}, Ok tt).

Definition setPendingUpload (v : option PendingUpload) : Handler unit :=
  fun st =>
    ({| messages := messages st; input := input st;
        pendingPlacement := pendingPlacement st; pendingUpload := v;
        workbook := workbook st; requests := requests st |}, Ok tt).

Definition clearPendingPlacement : Handler unit := setPendingPlacement None.

(** [await Excel.run(...)] inside a handler. *)
Definition excelRun {A} (m : Excel A) : Handler A :=
  fun st =>
    let '(wb, r) := m (workbook st) in
    ({| messages := messages st; input := input st;
        pendingPlacement := pendingPlacement st;
        pendingUpload := pendingUpload st; workbook := wb;
        requests := requests st |}, r).

(** [await fetch(".../chat", ...)] then [res.json()]: the request is
    logged. *)
Definition fetchChat (backend : Payload -> BackendAnswer) (p : Payload)
  : Handler BackendAnswer :=
  fun st =>
    ({| messages := messages st; input := input st;
        pendingPlacement := pendingPlacement st;
        pendingUpload := pendingUpload st; workbook := workbook st;
        requests := requests st ++ [p] |},
     match backend p with
     | Failed m => Throw (JsError m)
     | a => Ok a
     end).

(** The state a handler leaves, whether it returned or threw. *)
Definition finish {A} (h : Handler A) (st : AppState) : AppState := (h st).1.

(** Truthiness of an optional string. *)
Definition nonEmpty (o : option jsstring) : option jsstring :=
  match o with
  | Some (c :: r) => Some (c :: r)
  | _ => None
  end.

(** [${x}] of a string that may be null. *)
Definition showNullable (o : option jsstring) : jsstring :=
  default (js "null") o.

(** [l.join(sep)] *)
Definition join (sep : jsstring) (l : list jsstring) : jsstring :=
  match l with
  | [] => []
  | x :: r => x ++ concat (map (fun y => sep ++ y) r)
  end.

(** *** Texts of the messages *)

Module Text.
Definition check : jsstring := [9989].
Definition warning : jsstring := [9888; 65039].
Definition cross : jsstring := [10060].
Definition info : jsstring := [8505; 65039].

Definition chartPlaced := check ++ js " Chart placed at the top of the sheet (moveable chart).".
Definition columnNotFound (col : jsstring) :=
  cross ++ js " Could not find column '" ++ col ++ js "'.".
Definition suggestedOccupied (a : jsstring) :=
  warning ++ js " Suggested cell " ++ a ++ js " is occupied. Type 'overwrite "
  ++ a ++ js "' in the input and press Enter to force overwrite.".
Definition placedAt (a : jsstring) := check ++ js " Result placed at " ++ a.
Definition placedAtDot (a : jsstring) := check ++ js " Result placed at " ++ a ++ js ".".
Definition placedFallback := check ++ js " Result placed at A1 (fallback).".
Definition failedToPlace (e : Error) :=
  warning ++ js " Failed to place: " ++ errorMessage e.
Definition noResult := warning ++ js " No result waiting for placement.".
Definition askCell :=
  js "Please type the target cell (like A1 or C5) in the input box and press Enter to place the result.".
Definition createdOnNew := check ++ js " Result created on new results sheet.".
Definition chartPlacedOn (n : jsstring) := check ++ js " Chart placed on " ++ n.
Definition appendedTo (n a : jsstring) :=
  check ++ js " Result appended to " ++ n ++ js " at " ++ a.
Definition failedResults (e : Error) :=
  warning ++ js " Failed to place on results sheet: " ++ errorMessage e.
Definition skipped := info ++ js " Placement skipped. Preview kept in chat.".
Definition chartOverwrite := check ++ js " Chart placed (overwrite flow).".
Definition overwrote (a : jsstring) :=
  check ++ js " Overwrote and placed result at " ++ a ++ js ".".
Definition failedOverwrite (e : Error) :=
  warning ++ js " Failed to overwrite: " ++ errorMessage e.
Definition confirmPrompt :=
  cross ++ js " To confirm overwrite type 'overwrite' (or 'overwrite <CELL>').".
Definition invalidCell :=
  cross ++ js " Invalid cell address. Example: C5, AA10. Please enter again.".
Definition cellOccupied (a : jsstring) :=
  warning ++ js " Cell " ++ a ++ js " is occupied. Type 'overwrite " ++ a
  ++ js "' in the input and press Enter to force overwrite.".
Definition chartNear (a : jsstring) :=
  check ++ js " Chart placed (approx) near " ++ a ++ js ".".
Definition finishFirst :=
  warning ++ js " Finish placement before sending a new command.".
Definition noResponse := cross ++ js " No response from backend.".
Definition backendError := cross ++ js " Backend returned an error.".
Definition done := check ++ js " Done".
Definition networkError (e : Error) :=
  cross ++ js " Network/server error: " ++ errorMessage e.
Definition createdSheet (n : jsstring) :=
  check ++ js " Created sheet '" ++ n ++ js "' with uploaded data.".
Definition wroteEmpty := check ++ js " Uploaded data written to active (empty) sheet.".
Definition appended (mode : jsstring) (start : option jsstring) :=
  check ++ js " Data appended: mode=" ++ mode ++ js ", start="
  ++ default (js "undefined") start.
Definition appendFailed (reason : jsstring) :=
  warning ++ js " Append failed: " ++ reason.
Definition merged (mode : jsstring) :=
  check ++ js " Data merged horizontally (mode: " ++ mode ++ js ").".
Definition mergeFailed (reason : jsstring) :=
  warning ++ js " Merge failed: " ++ reason.
Definition uploadSkipped := info ++ js " Upload skipped. File retained on server temporarily.".
Definition uploading (name : jsstring) :=
  [55357; 56548] ++ js " Uploading " ++ name ++ js "...".
Definition uploadFailed (detail : option jsstring) :=
  warning ++ js " Upload failed: " ++ default (js "unknown error") (nonEmpty detail).
Definition uploaded (name type : jsstring) (sheetCount : nat) (rowCount : JsNumber)
    (headers : list jsstring) :=
  check ++ js " Uploaded " ++ name ++ js ". Detected " ++ toUpperCase type
  ++ js " with " ++ natToString sheetCount ++ js " sheet(s). First sheet has "
  ++ numberToString rowCount ++ js " rows and headers: " ++ join (js ", ") headers.
Definition uploadError (shown : jsstring) := cross ++ js " Upload error: " ++ shown.
End Text.

(** ** Placement handlers *)

Definition withOverwrite (pp : PendingPlacement) (a : jsstring) (cell : bool)
  : PendingPlacement :=
  {| note := note pp; chart := chart pp; suggestedColumn := suggestedColumn pp;
     awaitingCell := cell;
     awaitingOverwrite := Some {| addr := a; chartFlag := false |} |}.

(** The [try] block of [handlePlaceInExcelForChartOrBelow].  Its early
    [return] leaves through the [finally] block like its normal end. *)
Definition placeInExcelBody (pp : PendingPlacement) : Handler unit :=
  match nonEmpty (chart pp) with
  | Some c =>
      excelRun (insertChartImageOnSheet c None) ;;;
      say Text.chartPlaced
  | None =>
      match nonEmpty (suggestedColumn pp) with
      | Some col =>
          let* placement := excelRun (findPlacementCell col) in
          if negb (found placement) then say (Text.columnNotFound col)
          else if occupied placement then
            say (Text.suggestedOccupied (showNullable (cellAddress placement))) ;;;
            setPendingPlacement
              (Some (withOverwrite pp (showNullable (cellAddress placement))
                       (awaitingCell pp)))
          else
            excelRun (writeResult (note pp) false (cellAddress placement) false) ;;;
            say (Text.placedAt (showNullable (cellAddress placement)))
      | None =>
          excelRun (writeResult (note pp) false (Some (js "A1")) false) ;;;
          say Text.placedFallback
      end
  end.

Definition handlePlaceInExcelForChartOrBelow (st : AppState) : AppState :=
  match pendingPlacement st with
  | None => st
  | Some pp =>
      finish
        (tryCatch (placeInExcelBody pp) (fun e => say (Text.failedToPlace e)) ;;;
         clearPendingPlacement)
        st
  end.

Definition handlePlaceInSpecificCell (st : AppState) : AppState :=
  match pendingPlacement st with
  | None => finish (say Text.noResult) st
  | Some pp =>
      finish
        (setPendingPlacement
           (Some {| note := note pp; chart := chart pp;
                    suggestedColumn := suggestedColumn pp; awaitingCell := true;
                    awaitingOverwrite := awaitingOverwrite pp |}) ;;;
         say Text.askCell)
        st
  end.

(** Order of [Array.prototype.sort] without a comparator: by code units. *)
Fixpoint strLe (a b : jsstring) : bool :=
  match a, b with
  | [], _ => true
  | _ :: _, [] => false
  | x :: a', y :: b' =>
      if x <? y then true else if y <? x then false else strLe a' b'
  end.

Fixpoint insertSorted (x : jsstring) (l : list jsstring) : list jsstring :=
  match l with
  | [] => [x]
  | y :: l' => if strLe x y then x :: l else y :: insertSorted x l'
  end.

Definition sortStrings (l : list jsstring) : list jsstring :=
  foldr insertSorted [] l.

(** The first [Excel.run] of [handlePlaceOnResultsSheet]: the last sheet
    name with the results prefix, [None] for null. *)
Definition latestResultsSheet (createNew : bool) : Excel (option jsstring) :=
  let* names := Host.names in
  let matches := List.filter (fun n => startsWith n resultsPrefix) names in
  match matches with
  | [] => ret None
  | _ => if createNew then ret None else ret (last (sortStrings matches))
  end.

Fixpoint collapseNewlines (inRun : bool) (s : jsstring) : jsstring :=
  match s with
  | [] => []
  | c :: s' =>
      if c =? 10 then
        if inRun then collapseNewlines true s' else 32 :: collapseNewlines true s'
      else c :: collapseNewlines false s'
  end.

(** [note.replace(/^[^a-zA-Z0-9]+/, "").replace(/\n+/g, " ").trim()] *)
Definition cleanText (note : jsstring) : jsstring :=
  trim (collapseNewlines false (dropWhile (fun c => negb (Chars.isAlnum c)) note)).

(** The [Excel.run] that appends the text to an existing results sheet;
    it returns the address written. *)
Definition appendToResultsSheet (targetSheetName note : jsstring)
  : Excel jsstring :=
  let* sheet := Host.getItem targetSheetName in
  let* used := Host.usedRange sheet in
  let row := rowCountOrZero used in
  let putCell := js "A" ++ natToString (row + 1) in
  let descriptiveText := cleanText note in
  Host.writeCell sheet putCell (VStr descriptiveText) ;;;
  ret putCell.

(** The [try] block of [handlePlaceOnResultsSheet]. *)
Definition placeOnResultsSheetBody (pp : PendingPlacement) (createNew : bool)
  : Handler unit :=
  let* latest := excelRun (latestResultsSheet createNew) in
  let* target :=
    match (if createNew then None else nonEmpty latest) with
    | Some n => ret (Some n)
    | None =>
        match nonEmpty (chart pp) with
        | Some _ =>
            let* newName :=
              excelRun (let* names := Host.names in
                        let newName := nextResultsSheetName names in
                        Host.add newName ;;; ret newName) in
            ret (Some newName)
        | None =>
            excelRun (writeResult (note pp) true (Some (js "A1")) false) ;;;
            say Text.createdOnNew ;;;
            clearPendingPlacement ;;;
            ret None
        end
    end in
  match target with
  | None => ret tt
  | Some targetSheetName =>
      match nonEmpty (chart pp) with
      | Some c =>
          excelRun (insertChartImageOnSheet c (Some targetSheetName)) ;;;
          say (Text.chartPlacedOn targetSheetName) ;;;
          clearPendingPlacement
      | None =>
          let* putCell := excelRun (appendToResultsSheet targetSheetName (note pp)) in
          say (Text.appendedTo targetSheetName putCell) ;;;
          clearPendingPlacement
      end
  end.

Definition handlePlaceOnResultsSheet (createNew : bool) (st : AppState)
  : AppState :=
  match pendingPlacement st with
  | None => st
  | Some pp =>
      finish
        (tryCatch (placeOnResultsSheetBody pp createNew)
           (fun e => say (Text.failedResults e)))
        st
  end.

Definition handleDontPlace (st : AppState) : AppState :=
  finish
    (match pendingPlacement st with
     | Some _ => say Text.skipped
     | None => ret tt
     end ;;;
     clearPendingPlacement)
    st.

(** ** Text input *)

(** The confirmation test of [handleSend]:
    [text === `overwrite` || text === `overwrite ${addr.toLowerCase()}`]
    with [text = input.trim().toLowerCase()]. *)
Definition confirmsOverwrite (input addr : jsstring) : bool :=
  let text := toLowerCase (trim input) in
  strEq text (js "overwrite") || strEq text (js "overwrite " ++ toLowerCase addr).

(** Branch 1 of [handleSend]: an overwrite confirmation is awaited. *)
Definition sendAwaitingOverwrite (pp : PendingPlacement) (ao : AwaitingOverwrite)
    (st : AppState) : AppState :=
  if confirmsOverwrite (input st) (addr ao) then
    finish
      (tryCatch
         (match nonEmpty (chart pp) with
          | Some c =>
              excelRun (insertChartImageOnSheet c None) ;;;
              say Text.chartOverwrite
          | None =>
              excelRun (writeResult (note pp) false (Some (addr ao)) true) ;;;
              say (Text.overwrote (addr ao))
          end ;;;
          clearPendingPlacement)
         (fun err => say (Text.failedOverwrite err)) ;;;
       setInput [])
      st
  else
    finish (say Text.confirmPrompt ;;; setInput []) st.

(** The [Excel.run] of branch 2; over an occupied cell its callback
    returns before placing anything. *)
Definition placeInCell (pp : PendingPlacement) (a : jsstring) : Handler unit :=
  let* value := excelRun (let* sheet := Host.getActiveWorksheet in
                          Host.readCell sheet a) in
  if filled value then
    say (Text.cellOccupied a) ;;;
    setPendingPlacement (Some (withOverwrite pp a false)) ;;;
    setInput []
  else
    match nonEmpty (chart pp) with
    | Some c =>
        excelRun (insertChartImageOnSheet c None) ;;;
        say (Text.chartNear a)
    | None =>
        excelRun (writeResult (note pp) false (Some a) false) ;;;
        say (Text.placedAtDot a)
    end.

(** Branch 2 of [handleSend]: a cell address is awaited. *)
Definition sendAwaitingCell (pp : PendingPlacement) (st : AppState) : AppState :=
  let a := toUpperCase (trim (input st)) in
  if negb (Regex.test addressPattern a) then
    finish (say Text.invalidCell ;;; setInput []) st
  else
    finish
      (tryCatch (placeInCell pp a ;;; clearPendingPlacement)
         (fun err => say (Text.failedToPlace err)) ;;;
       setInput [])
      st.

(** [/sum\s+(\w+)/i], the captured group. *)
Definition sumPattern : list Regex.item :=
  [Regex.One (Chars.isCI 115); Regex.One (Chars.isCI 117);
   Regex.One (Chars.isCI 109); Regex.Plus Chars.isSpace; Regex.Plus Chars.isWord].

Definition suggestColumn (userText : jsstring) : option jsstring :=
  match Regex.search sumPattern userText with
  | Some (_, m, _) => Some (dropWhile Chars.isSpace (drop 3 m))
  | None => None
  end.

(** Branch 4 of [handleSend]: the command goes to the backend. *)
Definition sendCommand (backend : Payload -> BackendAnswer) (st : AppState)
  : AppState :=
  match trim (input st) with
  | [] => st
  | userText =>
      finish
        (pushMessage {| Message.role := Message.user; Message.text := userText;
                        Message.chart := None |} ;;;
         setInput [] ;;;
         tryCatch
           (let* excelData := excelRun getExcelData in
            let* data :=
              fetchChat backend {| user_message := userText;
                                   excel_data := excelData;
                                   chat_history := messages st |} in
            match data with
            | Failed _ | NoData => say Text.noResponse
            | Data false n _ => say (default Text.backendError (nonEmpty n))
            | Data true n c =>
                let aiText := default Text.done (nonEmpty n) in
                let chart := nonEmpty c in
                pushMessage {| Message.role := Message.ai; Message.text := aiText;
                               Message.chart := chart |} ;;;
                setPendingPlacement
                  (Some {| note := aiText; chart := chart;
                           suggestedColumn := suggestColumn userText;
                           awaitingCell := false; awaitingOverwrite := None |})
            end)
           (fun e => say (Text.networkError e)))
        st
  end.

Definition handleSend (backend : Payload -> BackendAnswer) (st : AppState)
  : AppState :=
  match pendingPlacement st with
  | Some pp =>
      match awaitingOverwrite pp with
      | Some ao => sendAwaitingOverwrite pp ao st
      | None =>
          if awaitingCell pp then sendAwaitingCell pp st
          else finish (say Text.finishFirst) st
      end
  | None => sendCommand backend st
  end.

(** ** Upload buttons *)

(** [/\.[^/.]+$/] *)
Definition extensionPattern : list Regex.item :=
  [Regex.One (Chars.isChar 46);
   Regex.Plus (fun c => negb (Chars.isChar 47 c || Chars.isChar 46 c)); Regex.Eos].

(** [(fileName || "Uploaded").replace(/\.[^/.]+$/, "").replace(/[^\w\- ]/g, "")] *)
Definition sheetBaseName (fileName : jsstring) : jsstring :=
  let name := match fileName with [] => js "Uploaded" | _ => fileName end in
  let stem := match Regex.search extensionPattern name with
              | Some (pre, _, post) => pre ++ post
              | None => name
              end in
  List.filter (fun c => Chars.isWord c || Chars.isChar 45 c || Chars.isChar 32 c) stem.

(** "Create new sheet"; [now] is [Date.now()]. *)
Definition uploadCreateSheet (now : N) (st : AppState) : AppState :=
  match pendingUpload st with
  | None => st
  | Some up =>
      let newName := sheetBaseName (fileName up) ++ js "_" ++ NToString (now mod 10000) in
      finish
        (excelRun (createSheetFromUpload newName (headers up) (rows up)) ;;;
         say (Text.createdSheet newName) ;;;
         setPendingUpload None)
        st
  end.

(** The first [Excel.run] of "Append below the data":
    [(used && used.isNullObject) || used.rowCount === 0]. *)
Definition activeSheetIsEmpty : Excel bool :=
  let* sheet := Host.getActiveWorksheet in
  let* used := Host.usedRange sheet in
  ret (rowCountOrZero used =? 0)%nat.

(** "Append below the data" *)
Definition uploadAppendBelow (st : AppState) : AppState :=
  match pendingUpload st with
  | None => st
  | Some up =>
      finish
        (tryCatch
           (let* isEmpty := excelRun activeSheetIsEmpty in
            if (isEmpty : bool) then
              excelRun (writeUploadToEmptySheet (headers up) (rows up)) ;;;
              say Text.wroteEmpty
            else
              let* appendRes :=
                excelRun (appendUploadToActiveSheetVertical (headers up) (rows up)) in
              match appendRes with
              | Wrote mode start => say (Text.appended mode start)
              | Created _ => say (Text.appended (js "undefined") None)
              | NotWritten reason => say (Text.appendFailed reason)
              end)
           (fun err => say (Text.appendFailed (errorMessage err))) ;;;
         setPendingUpload None)
        st
  end.

(** "Merge horizontally" *)
Definition uploadMergeHorizontally (st : AppState) : AppState :=
  match pendingUpload st with
  | None => st
  | Some up =>
      finish
        (tryCatch
           (let* appendRes :=
              excelRun (appendUploadToActiveSheet (headers up) (rows up)) in
            match appendRes with
            | Wrote mode _ => say (Text.merged mode)
            | Created _ => say (Text.merged (js "undefined"))
            | NotWritten reason => say (Text.mergeFailed reason)
            end)
           (fun err => say (Text.mergeFailed (errorMessage err))) ;;;
         setPendingUpload None)
        st
  end.

(** "Cancel" *)
Definition uploadCancel (st : AppState) : AppState :=
  match pendingUpload st with
  | None => st
  | Some _ => finish (say Text.uploadSkipped ;;; setPendingUpload None) st
  end.

(** ** The file input *)

(** The entry of [parsed.sheets] that the handler reads. *)
Record SheetInfo := { sheetHeaders : list jsstring; row_count : JsNumber }.

Record Parsed := { parsedType : jsstring; sheets : list SheetInfo }.

(** What the POST of the file to the upload endpoint yields: a failure of
    the transport or of the decoding, shown as [String(err)]; an empty body;
    a reply whose [ok] is not set; or the fields of an accepted upload. *)
Inductive UploadAnswer :=
| UploadFailed (shown : jsstring)
| UploadNoData
| UploadRefused (detail : option jsstring)
| Uploaded (file_id original_name : jsstring) (parsed : Parsed).

(** What the GET of the uploaded rows yields: a failure, or the status and,
    from the body, [rows_no_header]. *)
Inductive RowsAnswer :=
| RowsFailed (shown : jsstring)
| RowsStatus (status : N) (rows_no_header : option (list (list CellValue))).

(** The [onChange] of the file input for the file named [name]; [up] and
    [full] are what its two exchanges with the backend yield.  Neither goes
    to the chat endpoint. *)
Definition fileChange (name : jsstring) (up : UploadAnswer) (full : RowsAnswer)
  : Handler unit :=
  say (Text.uploading name) ;;;
  match up with
  | UploadFailed shown => say (Text.uploadError shown)
  | UploadNoData => say (Text.uploadFailed None)
  | UploadRefused detail => say (Text.uploadFailed detail)
  | Uploaded file_id original_name parsed =>
      let firstSheet := head (sheets parsed) in
      let headers := match firstSheet with
                     | Some sh => sheetHeaders sh
                     | None => []
                     end in
      let rowCount := match firstSheet with
                      | Some sh => row_count sh
                      | None => {| unscaled := 0; scale := 0 |}
                      end in
      match full with
      | RowsFailed shown => say (Text.uploadError shown)
      | RowsStatus status rows_no_header =>
          let allRows := if status =? 200 then default [] rows_no_header else [] in
          setPendingUpload
            (Some {| fileId := file_id; fileName := original_name;
                     headers := headers; rows := allRows |}) ;;;
          say (Text.uploaded original_name (parsedType parsed)
                 (length (sheets parsed)) rowCount headers)
      end
  end.

(** The events of the task pane. *)
Inductive Action :=
| PlaceInExcel
| PlaceInSpecificCell
| PlaceOnResultsSheet (createNew : bool)
| DontPlace
| Send
| UploadCreateSheet (now : N)
| UploadAppendBelow
| UploadMergeHorizontally
| UploadCancel
| ChooseFile (file : option jsstring) (up : UploadAnswer) (full : RowsAnswer).

Definition step (backend : Payload -> BackendAnswer) (a : Action)
    (st : AppState) : AppState :=
  match a with
  | PlaceInExcel => handlePlaceInExcelForChartOrBelow st
  | PlaceInSpecificCell => handlePlaceInSpecificCell st
  | PlaceOnResultsSheet createNew => handlePlaceOnResultsSheet createNew st
  | DontPlace => handleDontPlace st
  | Send => handleSend backend st
  | UploadCreateSheet now => uploadCreateSheet now st
  | UploadAppendBelow => uploadAppendBelow st
  | UploadMergeHorizontally => uploadMergeHorizontally st
  | UploadCancel => uploadCancel st
  | ChooseFile None _ _ => st
  | ChooseFile (Some name) up full => finish (fileChange name up full) st
  end.

(** ** Other events of the pane *)

(** The [onChange] of the input box: [setInput(e.target.value)]. *)
Definition typeInput (v : jsstring) (st : AppState) : AppState :=
  finish (setInput v) st.

(** The [onClick] of the Submit button. *)
Definition submitClick (backend : Payload -> BackendAnswer) (st : AppState)
  : AppState :=
  match pendingPlacement st with
  | Some pp =>
      if negb (awaitingCell pp) && negb (bool_decide (is_Some (awaitingOverwrite pp)))
      then finish (say Text.finishFirst) st
      else handleSend backend st
  | None => handleSend backend st
  end.

(** * Vocabulary and sample data of the properties *)

Definition sheetsOfExample : list jsstring :=
  [js "AI_Results_1"; js "AI_Results_3"; js "Other"].

Definition aiSays (txt : jsstring) : Message.t :=
  {| Message.role := Message.ai; Message.text := txt; Message.chart := None |}.

Definition sheetWith (name : string) (l : list (nat * nat * CellValue)) : Worksheet :=
  {| sheetName := js name; cells := list_to_map l; images := [] |}.

Definition pendingNote (n : string) : PendingPlacement :=
  {| note := js n; chart := None; suggestedColumn := None;
     awaitingCell := false; awaitingOverwrite := None |}.

Definition stateOf (wb : Workbook) (inp : string) (pp : option PendingPlacement)
  : AppState :=
  {| messages := []; input := js inp; pendingPlacement := pp;
     pendingUpload := None; workbook := wb; requests := [] |}.

Definition occupiedA1 : Workbook :=
  {| worksheets := [sheetWith "Sheet1" [((0, 0)%nat, VStr (js "kept"))]];
     activeSheet := 0 |}.

Definition awaitingA1 : PendingPlacement :=
  {| note := js "Total: 7"; chart := None; suggestedColumn := None;
     awaitingCell := false;
     awaitingOverwrite := Some {| addr := js "A1"; chartFlag := false |} |}.

Definition noBackend (p : Payload) : BackendAnswer := NoData.

Definition userSays (txt : jsstring) : Message.t :=
  {| Message.role := Message.user; Message.text := txt; Message.chart := None |}.

(** A header in A2 and a value right below it, nothing in row 1. *)
Definition takenBelowItem : Workbook :=
  {| worksheets :=
       [sheetWith "Sheet1" [((1, 0)%nat, VStr (js "Item"));
                            ((2, 0)%nat, VStr (js "taken"))]];
     activeSheet := 0 |}.

(** A pending note for which the column "item" was suggested. *)
Definition pendingForItem : PendingPlacement :=
  {| note := js "Total: 7"; chart := None; suggestedColumn := Some (js "item");
     awaitingCell := false; awaitingOverwrite := None |}.

(** Equality of two texts up to the case of their letters. *)
Definition sameTextCI (a b : jsstring) : Prop := toLowerCase a = toLowerCase b.

Definition noDigit (s : jsstring) : bool :=
  forallb (fun c => negb (Chars.isDigit c)) s.

Definition sumNote : jsstring := js "Sum: 42.5 units".

Definition resultsWorkbook : Workbook :=
  {| worksheets :=
       [sheetWith "Sheet1" [((0, 0)%nat, VStr (js "Item"))];
        sheetWith "AI_Results_1" [((0, 0)%nat, VStr (js "first"))]];
     activeSheet := 0 |}.

(** The note as the backend words it, after a check mark. *)
Definition awaitingCellSum : PendingPlacement :=
  {| note := 9989 :: js " " ++ sumNote; chart := None; suggestedColumn := None;
     awaitingCell := true; awaitingOverwrite := None |}.

Definition gapColumn : Workbook :=
  {| worksheets :=
       [sheetWith "Sheet1"
          [((0, 0)%nat, VStr (js "Item")); ((0, 1)%nat, VStr (js "Sales"));
           ((1, 1)%nat, VNum {| unscaled := 10; scale := 0 |});
           ((3, 1)%nat, VNum {| unscaled := 30; scale := 0 |});
           ((4, 0)%nat, VStr (js "last"))]];
     activeSheet := 0 |}.

(** A table whose header row is row 3 of the sheet. *)
Definition tableFromRow3 : Workbook :=
  {| worksheets :=
       [sheetWith "Sheet1"
          [((2, 0)%nat, VStr (js "Item")); ((2, 1)%nat, VStr (js "Sales"));
           ((3, 1)%nat, VNum {| unscaled := 10; scale := 0 |})]];
     activeSheet := 0 |}.

(** Headers in A1 and in AG1 (index 32), with one row of data. *)
Definition columnAG : Workbook :=
  {| worksheets :=
       [sheetWith "Sheet1"
          [((0, 0)%nat, VStr (js "Item")); ((0, 32)%nat, VStr (js "Sales"));
           ((1, 0)%nat, VStr (js "pen"));
           ((1, 32)%nat, VNum {| unscaled := 10; scale := 0 |})]];
     activeSheet := 0 |}.

(** A table in columns B and C, nothing in column A. *)
Definition emptyColumnA : Workbook :=
  {| worksheets :=
       [sheetWith "Sheet1"
          [((0, 1)%nat, VStr (js "Sales")); ((0, 2)%nat, VStr (js "Cost"));
           ((1, 1)%nat, VNum {| unscaled := 10; scale := 0 |});
           ((1, 2)%nat, VNum {| unscaled := 4; scale := 0 |})]];
     activeSheet := 0 |}.

(** Headers in A1 and in AH1 (index 33), with one row of data. *)
Definition columnAH : Workbook :=
  {| worksheets :=
       [sheetWith "Sheet1"
          [((0, 0)%nat, VStr (js "Item")); ((0, 33)%nat, VStr (js "Sales"));
           ((1, 0)%nat, VStr (js "pen"));
           ((1, 33)%nat, VNum {| unscaled := 10; scale := 0 |})]];
     activeSheet := 0 |}.

(** A header row of 28 cells of which only the last names the column. *)
Definition widerSheet : Workbook :=
  {| worksheets :=
       [sheetWith "Sheet1"
          [((0, 0)%nat, VStr (js "Item")); ((0, 27)%nat, VStr (js "Sales"))]];
     activeSheet := 0 |}.

Definition widerHeader : list CellValue :=
  VStr (js "Item") :: repeat (VStr []) 26 ++ [VStr (js "Sales")].

(** Every cell that holds a value in [wb] holds the same value in [wb']. *)
Definition keeps (wb wb' : Workbook) : Prop :=
  forall h ws r c,
    worksheets wb !! h = Some ws -> filled (cellAt ws r c) = true ->
    exists ws', worksheets wb' !! h = Some ws' /\ cellAt ws' r c = cellAt ws r c.

(** The sheets at positions below [n] are the same in [wb'] as in [wb]. *)
Definition untouched (n : nat) (wb wb' : Workbook) : Prop :=
  forall h, (h < n)%nat -> worksheets wb' !! h = worksheets wb !! h.

(** Computations on the workbook that keep the cells holding a value, that
    leave the workbook alone, and that touch only sheets at positions from
    [n] on. *)
Definition EKeeps {A} (m : Excel A) : Prop := forall wb, keeps wb (m wb).1.

Definition ESame {A} (m : Excel A) : Prop := forall wb, (m wb).1 = wb.

Definition Above {A} (n : nat) (m : Excel A) : Prop :=
  forall wb, (n <= length (worksheets wb))%nat ->
             untouched n wb (m wb).1 /\ (n <= length (worksheets (m wb).1))%nat.

(** The sheets other than the one at position [h] are left alone. *)
Definition OnlyAt {A} (h : nat) (m : Excel A) : Prop :=
  forall wb h', h' <> h -> worksheets (m wb).1 !! h' = worksheets wb !! h'.

(** Handlers that keep the cells holding a value. *)
Definition HKeeps {A} (h : Handler A) : Prop :=
  forall st, keeps (workbook st) (workbook (h st).1).

(** The actions that write only under a guard: every one but the append
    to an existing results sheet, the append below the data of a sheet
    that is in use, and the horizontal merge. *)
Definition guarded (a : Action) (st : AppState) : Prop :=
  match a with
  | PlaceOnResultsSheet createNew => createNew = true
  | UploadAppendBelow =>
      forall ws, worksheets (workbook st) !! activeSheet (workbook st) = Some ws ->
                 usedBounds ws = None
  | UploadMergeHorizontally => False
  | _ => True
  end.

(** The action is the confirmation of the overwrite awaited for the cell at
    (r, c) of the sheet at position [h]. *)
Definition confirmedOverwrite (a : Action) (st : AppState) (h r c : nat) : Prop :=
  a = Send
  /\ exists pp ao,
       pendingPlacement st = Some pp /\ awaitingOverwrite pp = Some ao
       /\ confirmsOverwrite (input st) (addr ao) = true
       /\ h = activeSheet (workbook st)
       /\ parseA1 (targetAddress (Some (addr ao))) = Some (r, c).

Definition uploadQty : PendingUpload :=
  {| fileId := js "f1"; fileName := js "qty.csv"; headers := [js "Qty"];
     rows := [[VNum {| unscaled := 5; scale := 0 |}]] |}.

(** Headers in A1 and B1, and a remark in C2 under an empty C1. *)
Definition remarkBesideTable : Workbook :=
  {| worksheets :=
       [sheetWith "Sheet1"
          [((0, 0)%nat, VStr (js "Item")); ((0, 1)%nat, VStr (js "Price"));
           ((1, 2)%nat, VStr (js "remark"))]];
     activeSheet := 0 |}.

Definition uploadPending (wb : Workbook) : AppState :=
  {| messages := []; input := []; pendingPlacement := None;
     pendingUpload := Some uploadQty; workbook := wb; requests := [] |}.


(** ** Vocabulary of the further properties *)

(** A text made of one or more characters of [L], then of one or more
    digits, and of nothing else. *)
Definition lettersThenDigits (L : N -> bool) (a : jsstring) : bool :=
  let ls := takeWhile L a in
  let ds := drop (length ls) a in
  negb (bool_decide (ls = [])) && negb (bool_decide (ds = []))
  && forallb Chars.isDigit ds.

(** What the unsigned part of the numeric pattern matches starts with a
    digit, or with a point and a digit. *)
Definition numberHead (t : jsstring) (n : nat) : Prop :=
  (exists d r, t = d :: r /\ Chars.isDigit d = true /\ (1 <= n)%nat)
  \/ (exists d r, t = 46 :: d :: r /\ Chars.isDigit d = true /\ (2 <= n)%nat).

(** The characters kept in a sheet name: [\w], the hyphen and the space. *)
Definition nameChar (c : N) : bool :=
  Chars.isWord c || Chars.isChar 45 c || Chars.isChar 32 c.

(** What a cell holds after an assignment. *)
Definition assigned (v : CellValue) (old : option CellValue) : option CellValue :=
  match v with
  | VNull => old
  | VStr [] => None
  | _ => Some v
  end.

(** What a read of a cell yields after the value [v] was assigned to it on
    a new sheet. *)
Definition stored (v : CellValue) : CellValue :=
  if filled v then v else VStr [].

(** The cells of the region [S] of the sheet at position [h], and the other
    sheets, are in [wb'] as in [wb]. *)
Definition sameOn (S : nat -> nat -> Prop) (h : nat) (wb wb' : Workbook) : Prop :=
  forall h' ws, worksheets wb !! h' = Some ws ->
    exists ws', worksheets wb' !! h' = Some ws'
      /\ (h' <> h -> ws' = ws)
      /\ forall r c, S r c -> cells ws' !! (r, c) = cells ws !! (r, c).

(** Computations on the workbook that leave the region [S] alone. *)
Definition ESameOn {A} (S : nat -> nat -> Prop) (h : nat) (m : Excel A) : Prop :=
  forall wb, sameOn S h wb (m wb).1.

(** Where a chart goes, no cell changes. *)
Definition sameCells (wb wb' : Workbook) : Prop :=
  forall h ws, worksheets wb !! h = Some ws ->
    exists ws', worksheets wb' !! h = Some ws'
                /\ cells ws' = cells ws /\ sheetName ws' = sheetName ws.

(** No overwrite confirmation is awaited. *)
Definition noOverwriteAwaited (st : AppState) : Prop :=
  forall pp, pendingPlacement st = Some pp -> awaitingOverwrite pp = None.

(** The states of the task pane: it starts with no pending result; the
    events of the pane act on it; what happens outside the handlers (typing,
    edits of the workbook) leaves the pending result as it is. *)
Inductive reachable : AppState -> Prop :=
| reach_start st : pendingPlacement st = None -> reachable st
| reach_step backend a st : reachable st -> reachable (step backend a st)
| reach_submit backend st : reachable st -> reachable (submitClick backend st)
| reach_outside st st' :
    reachable st -> pendingPlacement st' = pendingPlacement st -> reachable st'.

(** A handler that leaves [st'] related to the state [st] it starts from. *)
Definition HPres (R : AppState -> AppState -> Prop) {A} (h : Handler A) : Prop :=
  forall st, R st (h st).1.

(** The pending result is kept or cleared. *)
Definition pendingKept (st st' : AppState) : Prop :=
  pendingPlacement st' = pendingPlacement st \/ pendingPlacement st' = None.

(** Nothing was posted to the chat endpoint. *)
Definition sameRequests (st st' : AppState) : Prop := requests st' = requests st.

(** A backend that answers every command with the sum note. *)
Definition sumBackend (p : Payload) : BackendAnswer :=
  Data true (Some sumNote) None.

(** An upload whose file name has a stem of 32 characters. *)
Definition longNameUpload : PendingUpload :=
  {| fileId := js "f2"; fileName := js "quarterly sales report 2024 v002.xlsx";
     headers := [js "Qty"]; rows := [] |}.

(** The pane with that upload pending. *)
Definition longNamePending : AppState :=
  {| messages := []; input := []; pendingPlacement := None;
     pendingUpload := Some longNameUpload; workbook := occupiedA1; requests := [] |}.

(** A pending note for which the column "profit" was suggested. *)
Definition pendingForProfit : PendingPlacement :=
  {| note := js "Total: 7"; chart := None; suggestedColumn := Some (js "profit");
     awaitingCell := false; awaitingOverwrite := None |}.

(** * Properties *)

(** Case analysis on the comparisons of code units in sight. *)
Ltac cases_cmp :=
  repeat match goal with
         | |- context [N.leb ?a ?b] => destruct (N.leb_spec a b)
         | |- context [N.ltb ?a ?b] => destruct (N.ltb_spec a b)
         | |- context [N.eqb ?a ?b] => destruct (N.eqb_spec a b)
         | H : context [N.leb ?a ?b] |- _ => destruct (N.leb_spec a b)
         | H : context [N.ltb ?a ?b] |- _ => destruct (N.ltb_spec a b)
         | H : context [N.eqb ?a ?b] |- _ => destruct (N.eqb_spec a b)
         end;
  simpl in *; try reflexivity; try discriminate; try lia.

(** ** Checking that a text is ASCII *)

Lemma asciiOnly_check (s : jsstring) :
  forallb (fun c => c <? 128) s = true -> asciiOnly s.
Proof.
  intros H. apply Forall_forall. intros c Hc.
  rewrite forallb_forall in H. apply N.ltb_lt, H. now apply list_elem_of_In.
Qed.

Lemma asciiRow_check (row : list CellValue) :
  forallb (fun h => forallb (fun c => c <? 128) (toString h)) row = true ->
  Forall (fun h => asciiOnly (toString h)) row.
Proof.
  intros H. apply Forall_forall. intros h Hh. apply asciiOnly_check.
  rewrite forallb_forall in H. apply H. now apply list_elem_of_In.
Qed.

(** ** Decimal rendering *)

Lemma digitsValue_acc (d : Decimal.uint) (acc : positive) :
  fold_left (fun a c => a * 10 + default 0 (digitValue c)) (uintUnits d) (Npos acc)
  = Npos (Pos.of_uint_acc d acc).
Proof.
  revert acc. induction d; intros acc; simpl; [reflexivity | ..];
    rewrite <- IHd; f_equal; cbn; lia.
Qed.

Lemma digitsValue_uint (d : Decimal.uint) :
  digitsValue 10 (uintUnits d) = Pos.of_uint d.
Proof.
  unfold digitsValue. induction d; simpl; try reflexivity; try assumption;
    apply digitsValue_acc.
Qed.

Lemma digitsValue_NToString (n : N) : digitsValue 10 (NToString n) = n.
Proof.
  unfold NToString. rewrite digitsValue_uint.
  apply DecimalN.Unsigned.of_to.
Qed.

Lemma uintUnits_digits (d : Decimal.uint) : forallb Chars.isDigit (uintUnits d) = true.
Proof. induction d; simpl; auto. Qed.

Lemma NToString_digits (n : N) : forallb Chars.isDigit (NToString n) = true.
Proof. apply uintUnits_digits. Qed.

Lemma NToString_nonempty (n : N) : NToString n <> [].
Proof.
  unfold NToString. destruct n as [|p]; [discriminate |].
  simpl. pose proof (DecimalPos.Unsigned.to_uint_nonnil p) as H.
  destruct (Pos.to_uint p); [congruence | discriminate ..].
Qed.

(** ** Matching addresses *)

Lemma takeWhile_split {A} (p : A -> bool) (l : list A) :
  l = takeWhile p l ++ drop (length (takeWhile p l)) l.
Proof. induction l as [|x l IH]; simpl; [reflexivity |]. destruct (p x); simpl; congruence. Qed.

Lemma takeWhile_all {A} (p : A -> bool) (l : list A) : forallb p (takeWhile p l) = true.
Proof. induction l as [|x l IH]; simpl; [reflexivity |]. destruct (p x) eqn:E; simpl; [rewrite E |]; auto. Qed.

Lemma takeWhile_app {A} (p : A -> bool) (l r : list A) :
  forallb p l = true -> (forall x r', r = x :: r' -> p x = false) ->
  takeWhile p (l ++ r) = l.
Proof.
  intros Hl Hr. induction l as [|x l IH]; simpl in *.
  - destruct r as [|y r']; simpl; [reflexivity |]. now rewrite (Hr y r').
  - apply andb_prop in Hl as [-> Hl]. now rewrite IH.
Qed.

Lemma digit_not_letter (c : N) : Chars.isDigit c = true -> Chars.isLetter c = false.
Proof. unfold Chars.isDigit, Chars.isLetter, Chars.isUpper, Chars.isLower. cases_cmp. Qed.

Lemma digit_not_upper (c : N) : Chars.isDigit c = true -> Chars.isUpper c = false.
Proof. unfold Chars.isDigit, Chars.isUpper. cases_cmp. Qed.

Lemma star_prefix (c : N -> bool) (k : jsstring -> option nat)
    (ls r : jsstring) (n : nat) :
  forallb c ls = true -> (forall x r', r = x :: r' -> c x = false) ->
  k r = Some n -> Regex.star c k (ls ++ r) = Some (length ls + n)%nat.
Proof.
  intros Hls Hr Hk. induction ls as [|l ls IH]; simpl in *.
  - destruct r as [|x r']; simpl; [assumption |]. now rewrite (Hr x r').
  - apply andb_prop in Hls as [-> Hls]. now rewrite IH.
Qed.

Section AddressMatch.
Variable L : N -> bool.
Hypothesis L_not_digit : forall c, Chars.isDigit c = true -> L c = false.

Lemma digits_eos_match (ds : jsstring) :
  ds <> [] -> forallb Chars.isDigit ds = true ->
  Regex.matchHere [Regex.Plus Chars.isDigit; Regex.Eos] ds = Some (length ds).
Proof.
  intros Hne Hds. destruct ds as [|d ds]; [congruence |].
  cbn [Regex.matchHere]. simpl in Hds. apply andb_prop in Hds as [-> Hds].
  rewrite <- (app_nil_r ds) at 1.
  rewrite (star_prefix _ _ ds [] 0); [ | assumption | discriminate | reflexivity].
  simpl. now rewrite Nat.add_0_r.
Qed.

Lemma letters_digits_match (ls ds : jsstring) :
  ls <> [] -> forallb L ls = true -> ds <> [] -> forallb Chars.isDigit ds = true ->
  Regex.test [Regex.Plus L; Regex.Plus Chars.isDigit; Regex.Eos] (ls ++ ds) = true.
Proof.
  intros Hl Hls Hd Hds. unfold Regex.test. apply bool_decide_eq_true.
  destruct ls as [|l ls]; [congruence |].
  cbn [Regex.matchHere app]. simpl in Hls. apply andb_prop in Hls as [-> Hls].
  rewrite (star_prefix _ _ ls ds (length ds)); [simpl; eauto | assumption | | ].
  - intros x r' ->. simpl in Hds. apply andb_prop in Hds as [Hx _]. auto.
  - now apply digits_eos_match.
Qed.
End AddressMatch.

(** The shape of an address the host accepts. *)
Lemma parseA1_shape (a : jsstring) (k : nat * nat) :
  parseA1 a = Some k ->
  exists ls ds, a = ls ++ ds /\ ls <> [] /\ ds <> [] /\
    forallb Chars.isLetter ls = true /\ forallb Chars.isDigit ds = true.
Proof.
  unfold parseA1. intros H.
  exists (takeWhile Chars.isLetter a), (drop (length (takeWhile Chars.isLetter a)) a).
  split; [apply takeWhile_split |].
  destruct (takeWhile Chars.isLetter a) as [|l ls] eqn:El; [discriminate |].
  destruct (drop (length (l :: ls)) a) as [|d ds] eqn:Ed; [discriminate |].
  destruct (forallb Chars.isDigit (d :: ds)) eqn:Hd; [| discriminate].
  split; [discriminate |]. split; [discriminate |].
  split; [rewrite <- El; apply takeWhile_all | reflexivity].
Qed.

Lemma parseA1_test (a : jsstring) (k : nat * nat) :
  parseA1 a = Some k -> Regex.test addressPatternCI a = true.
Proof.
  intros (ls & ds & -> & Hl & Hd & Hls & Hds)%parseA1_shape.
  apply letters_digits_match; auto using digit_not_letter.
Qed.

Lemma toUpper_not_lower (c : N) : Chars.isLower (Chars.toUpper c) = false.
Proof. unfold Chars.toUpper, Chars.isLower. cases_cmp. Qed.

Lemma toUpper_idem (c : N) : Chars.toUpper (Chars.toUpper c) = Chars.toUpper c.
Proof. unfold Chars.toUpper at 1. now rewrite toUpper_not_lower. Qed.

Lemma toUpperCase_idem (s : jsstring) : toUpperCase (toUpperCase s) = toUpperCase s.
Proof.
  unfold toUpperCase. rewrite map_map. apply map_ext. intros c. apply toUpper_idem.
Qed.

Lemma parseA1_test_upper (s : jsstring) (k : nat * nat) :
  parseA1 (toUpperCase s) = Some k -> Regex.test addressPattern (toUpperCase s) = true.
Proof.
  intros H. destruct (parseA1_shape _ _ H) as (ls & ds & E & Hl & Hd & Hls & Hds).
  rewrite E. apply letters_digits_match; auto using digit_not_upper.
  assert (Hnl : forallb (fun c => negb (Chars.isLower c)) (ls ++ ds) = true).
  { rewrite <- E. unfold toUpperCase. apply forallb_forall.
    intros c (x & <- & _)%in_map_iff. now rewrite toUpper_not_lower. }
  rewrite forallb_app in Hnl. apply andb_prop in Hnl as [Hnl _].
  rewrite forallb_forall in Hls, Hnl |- *. intros c Hc.
  specialize (Hls c Hc). specialize (Hnl c Hc).
  unfold Chars.isLetter in Hls. destruct (Chars.isLower c); [discriminate |].
  now rewrite orb_false_r in Hls.
Qed.

(** The address made of one letter, in either case, and a row of the
    grid. *)
Lemma parseA1_one_letter (ch : N) (col row : nat) :
  Chars.isLetter ch = true -> Chars.toUpper ch = 65 + N.of_nat col ->
  (col <= 25)%nat -> (1 <= row)%nat -> N.of_nat row <= maxRows ->
  parseA1 (ch :: natToString row) = Some ((row - 1)%nat, col).
Proof.
  intros Hl Hup Hc Hr Hmax. unfold parseA1, natToString.
  pose proof (NToString_digits (N.of_nat row)) as Hds.
  pose proof (NToString_nonempty (N.of_nat row)) as Hne.
  change (ch :: NToString (N.of_nat row)) with ([ch] ++ NToString (N.of_nat row)).
  rewrite (takeWhile_app Chars.isLetter [ch] (NToString (N.of_nat row))).
  - change (drop (length [ch]) ([ch] ++ NToString (N.of_nat row)))
      with (NToString (N.of_nat row)).
    pose proof (digitsValue_NToString (N.of_nat row)) as Hv.
    remember (NToString (N.of_nat row)) as ds eqn:E in *.
    destruct ds as [|d ds]; [congruence |].
    rewrite Hds, Hv. unfold columnNumber. cbn [fold_left]. rewrite Hup.
    unfold maxRows, maxColumns in *.
    replace ((1 <=? N.of_nat row) && (N.of_nat row <=? 1048576)
             && (0 * 26 + (65 + N.of_nat col - 64) <=? 16384)) with true
      by cases_cmp.
    f_equal. f_equal; lia.
  - simpl. now rewrite Hl.
  - intros x r' E. rewrite E in Hds. simpl in Hds.
    apply andb_prop in Hds as [Hx _]. now apply digit_not_letter.
Qed.

(** The address of a column up to [Z] and a row of the grid. *)
Lemma parseA1_column_row (col : nat) (row : nat) :
  (col <= 25)%nat -> (1 <= row)%nat -> N.of_nat row <= maxRows ->
  parseA1 (fromCharCode (65 + N.of_nat col) ++ natToString row)
  = Some ((row - 1)%nat, col).
Proof.
  intros Hc Hr Hmax. unfold fromCharCode.
  rewrite N.mod_small by lia. apply parseA1_one_letter; try assumption.
  - unfold Chars.isLetter, Chars.isUpper, Chars.isLower. cases_cmp.
  - unfold Chars.toUpper, Chars.isLower. cases_cmp.
Qed.

(** Evaluation of the monadic plumbing and of the host's accessors. *)
Ltac exec :=
  cbv beta iota delta
    [bind ret throw tryCatch finish Host.getActiveWorksheet Host.readCell
     Host.writeCell Host.setCells Host.sheet Host.names Host.usedRange
     negb andb fst snd].

(** Evaluation of a handler down to the computations on the workbook. *)
Ltac hexec :=
  cbv beta iota delta
    [bind ret throw tryCatch finish say pushMessage setInput
     setPendingPlacement setPendingUpload clearPendingPlacement excelRun
     fst snd];
  cbn [workbook messages input pendingPlacement pendingUpload requests].

(** ** The overwrite guard of [writeResult] *)

Lemma new_sheet_lookup (wb : Workbook) (name : jsstring) :
  (worksheets wb ++ [{| sheetName := name; cells := ∅; images := [] |}])
    !! length (worksheets wb)
  = Some {| sheetName := name; cells := ∅; images := [] |}.
Proof. rewrite lookup_app_r by lia. now rewrite Nat.sub_diag. Qed.

Lemma add_cases (name : jsstring) (wb : Workbook) :
  (exists c, Host.add name wb = (wb, Throw (HostError c)))
  \/ Host.add name wb
     = ({| worksheets := worksheets wb ++
             [{| sheetName := name; cells := ∅; images := [] |}];
           activeSheet := activeSheet wb |}, Ok (length (worksheets wb))).
Proof.
  unfold Host.add. destruct (negb (Host.validName name)); [eauto |].
  destruct (existsb _ _); eauto.
Qed.

Section WriteResultOnActiveSheet.
Variables (wb : Workbook) (ws : Worksheet) (note : jsstring).
Variables (cellAddress : option jsstring) (r c : nat).
Hypothesis active : worksheets wb !! activeSheet wb = Some ws.
Hypothesis target : parseA1 (targetAddress cellAddress) = Some (r, c).

Lemma writeResult_occupied :
  filled (cellAt ws r c) = true ->
  writeResult note false cellAddress false wb
  = (wb, Throw (occupiedError (targetAddress cellAddress))).
Proof.
  intros Hf. pose proof (parseA1_test _ _ target) as Ht.
  unfold writeResult. exec. rewrite Ht, active, target. exec.
  now rewrite Hf.
Qed.

Lemma writeResult_writes (overwrite : bool) :
  overwrite = true \/ filled (cellAt ws r c) = false ->
  writeResult note false cellAddress overwrite wb
  = (withSheet wb (activeSheet wb)
       (withCells ws (putCell (r, c) (resultValue note) (cells ws))),
     Ok tt).
Proof.
  intros Ho. pose proof (parseA1_test _ _ target) as Ht.
  unfold writeResult. exec. rewrite Ht, active, target. exec.
  destruct Ho as [-> | ->]; [destruct (filled _) |]; now rewrite active.
Qed.

Lemma writeResult_new_sheet_unguarded (overwrite : bool) :
  (writeResult note true cellAddress overwrite wb).2
  <> Throw (occupiedError (targetAddress cellAddress)).
Proof.
  pose proof (parseA1_test _ _ target) as Ht. unfold writeResult. exec.
  destruct (add_cases (nextResultsSheetName (map sheetName (worksheets wb))) wb)
    as [[code ->] | ->]; [discriminate |].
  rewrite Ht. exec. cbn [worksheets].
  pose proof (new_sheet_lookup wb
                (nextResultsSheetName (map sheetName (worksheets wb)))) as Hn.
  rewrite Hn, target. unfold cellAt. cbn [cells]. rewrite lookup_empty.
  cbn [default filled worksheets]. rewrite Hn. discriminate.
Qed.

(** With [newSheet] the target is a cell of the sheet just added, which is
    empty: the value is written there whatever the flag, unless the host
    refuses to add the sheet. *)
Lemma writeResult_new_sheet_writes (overwrite : bool) :
  let name := nextResultsSheetName (map sheetName (worksheets wb)) in
  writeResult note true cellAddress overwrite wb
  = if Host.validName name
       && negb (existsb (fun s => Host.sameName (sheetName s) name) (worksheets wb))
    then ({| worksheets :=
               worksheets wb ++
               [{| sheetName := name;
                   cells := putCell (r, c) (resultValue note) ∅;
                   images := [] |}];
             activeSheet := activeSheet wb |}, Ok tt)
    else (wb, Throw (HostError (if Host.validName name then ItemAlreadyExists
                                else InvalidArgument))).
Proof.
  intros name. pose proof (parseA1_test _ _ target) as Ht.
  unfold writeResult. exec. fold name. unfold Host.add.
  destruct (Host.validName name); cbn [negb andb]; [| reflexivity].
  destruct (existsb _ (worksheets wb)); cbn [negb]; [reflexivity |].
  rewrite Ht. exec. cbn [worksheets].
  pose proof (new_sheet_lookup wb name) as Hn.
  rewrite Hn, target. unfold cellAt. cbn [cells]. rewrite lookup_empty.
  cbn [default filled worksheets]. rewrite Hn.
  unfold withSheet, withCells. cbn [worksheets activeSheet sheetName cells images].
  rewrite insert_app_r_alt by lia. rewrite Nat.sub_diag. reflexivity.
Qed.
End WriteResultOnActiveSheet.

(** C1: with [overwrite] false a cell that holds a value makes
    [writeResult] throw and leaves the workbook as it was; with [overwrite]
    true, or over a cell that is null or empty, the value is written.  With
    [newSheet] the target cell is on the sheet just added and is empty: the
    value is written there whatever the flag, and the only failure is the
    host's refusal of the new sheet, which leaves the workbook as it was. *)
Theorem writeResult_overwrite_guard
    (wb : Workbook) (ws : Worksheet) (note : jsstring)
    (cellAddress : option jsstring) (r c : nat) :
  worksheets wb !! activeSheet wb = Some ws ->
  parseA1 (targetAddress cellAddress) = Some (r, c) ->
  (filled (cellAt ws r c) = true ->
   writeResult note false cellAddress false wb
   = (wb, Throw (occupiedError (targetAddress cellAddress))))
  /\ (forall overwrite,
        overwrite = true \/ filled (cellAt ws r c) = false ->
        writeResult note false cellAddress overwrite wb
        = (withSheet wb (activeSheet wb)
             (withCells ws (putCell (r, c) (resultValue note) (cells ws))),
           Ok tt))
  /\ (forall overwrite,
        let name := nextResultsSheetName (map sheetName (worksheets wb)) in
        writeResult note true cellAddress overwrite wb
        = if Host.validName name
             && negb (existsb (fun s => Host.sameName (sheetName s) name)
                        (worksheets wb))
          then ({| worksheets :=
                     worksheets wb ++
                     [{| sheetName := name;
                         cells := putCell (r, c) (resultValue note) ∅;
                         images := [] |}];
                   activeSheet := activeSheet wb |}, Ok tt)
          else (wb, Throw (HostError (if Host.validName name then ItemAlreadyExists
                                      else InvalidArgument)))).
Proof.
  intros Hws Ha. split; [| split].
  - now apply writeResult_occupied.
  - intros overwrite. now apply writeResult_writes.
  - intros overwrite. now apply (writeResult_new_sheet_writes wb note _ r c).
Qed.

(** ** Mutual exclusion of placement and commands *)

(** C4: while a result is pending and neither a cell address nor an
    overwrite confirmation is awaited, text input only adds the
    finish-placement message: the pending result, the workbook and the log
    of backend requests stay as they were. *)
Theorem pending_blocks_commands
    (backend : Payload -> BackendAnswer) (st : AppState) (pp : PendingPlacement) :
  pendingPlacement st = Some pp ->
  awaitingCell pp = false ->
  awaitingOverwrite pp = None ->
  handleSend backend st
  = {| messages := messages st ++
         [{| Message.role := Message.ai; Message.text := Text.finishFirst;
             Message.chart := None |}];
       input := input st;
       pendingPlacement := Some pp;
       pendingUpload := pendingUpload st;
       workbook := workbook st;
       requests := requests st |}.
Proof.
  intros Hp Hc Ho. unfold handleSend. rewrite Hp, Ho, Hc. hexec.
  now rewrite Hp.
Qed.

(** ** Results sheet names *)

Lemma fold_max_spec (l : list Z) (x : Z) :
  (fold_left Z.max l x = x \/ In (fold_left Z.max l x) l)
  /\ (x <= fold_left Z.max l x)%Z
  /\ (forall y, In y l -> (y <= fold_left Z.max l x)%Z).
Proof.
  revert x. induction l as [|a l IH]; intros x; simpl.
  - split; [now left |]. split; [lia | tauto].
  - destruct (IH (Z.max x a)) as (Hin & Hle & Hall).
    split; [| split].
    + destruct Hin as [-> | Hin]; [| now right; right].
      destruct (Z.max_spec x a) as [[_ ->] | [_ ->]]; [right |]; auto.
    + lia.
    + intros y [<- | Hy]; [lia | auto].
Qed.

Lemma maxOf_spec (l : list Z) :
  l <> [] -> In (maxOf l) l /\ forall y, In y l -> (y <= maxOf l)%Z.
Proof.
  destruct l as [|x l]; [congruence |]. intros _. simpl.
  destruct (fold_max_spec l x) as (Hin & Hle & Hall).
  split; [destruct Hin as [-> | Hin]; auto |].
  intros y [<- | Hy]; auto.
Qed.

(** ** Placement without a column hint *)

(** C9, as amended: without a column hint the Place action goes through
    the guard of [writeResult] for A1.  Over an A1 that is null or empty the
    value of the note is written; over an A1 that holds a value nothing is
    written and the failure is reported.  Either way the pending result is
    cleared. *)
Theorem place_without_hint (st : AppState) (pp : PendingPlacement) (ws : Worksheet) :
  pendingPlacement st = Some pp ->
  nonEmpty (chart pp) = None ->
  nonEmpty (suggestedColumn pp) = None ->
  worksheets (workbook st) !! activeSheet (workbook st) = Some ws ->
  handlePlaceInExcelForChartOrBelow st
  = if filled (cellAt ws 0 0) then
      {| messages := messages st ++
           [aiSays (Text.failedToPlace (occupiedError (js "A1")))];
         input := input st; pendingPlacement := None;
         pendingUpload := pendingUpload st; workbook := workbook st;
         requests := requests st |}
    else
      {| messages := messages st ++ [aiSays Text.placedFallback];
         input := input st; pendingPlacement := None;
         pendingUpload := pendingUpload st;
         workbook :=
           withSheet (workbook st) (activeSheet (workbook st))
             (withCells ws (putCell (0, 0)%nat (resultValue (note pp)) (cells ws)));
         requests := requests st |}.
Proof.
  intros Hp Hc Hs Hws. unfold handlePlaceInExcelForChartOrBelow, placeInExcelBody.
  rewrite Hp, Hc, Hs. hexec.
  destruct (filled (cellAt ws 0 0)) eqn:Hf.
  - rewrite (writeResult_occupied _ ws (note pp) (Some (js "A1")) 0 0 Hws eq_refl Hf).
    reflexivity.
  - rewrite (writeResult_writes _ ws (note pp) (Some (js "A1")) 0 0 Hws eq_refl
               false (or_intror Hf)).
    reflexivity.
Qed.

Lemma place_without_hint_witness :
  handlePlaceInExcelForChartOrBelow
    (stateOf occupiedA1 "" (Some (pendingNote "Total: 7")))
  = {| messages := [aiSays (Text.failedToPlace (occupiedError (js "A1")))];
       input := []; pendingPlacement := None; pendingUpload := None;
       workbook := occupiedA1; requests := [] |}.
Proof.
  exact (place_without_hint
           (stateOf occupiedA1 "" (Some (pendingNote "Total: 7")))
           (pendingNote "Total: 7")
           (sheetWith "Sheet1" [((0, 0)%nat, VStr (js "kept"))])
           eq_refl eq_refl eq_refl eq_refl).
Defined.

(** C9 as stated fails: over an occupied A1 the Place action without a
    hint writes nothing, A1 keeps its value. *)
Lemma place_without_hint_not_unconditional :
  let st' := handlePlaceInExcelForChartOrBelow
               (stateOf occupiedA1 "" (Some (pendingNote "Total: 7"))) in
  exists ws', worksheets (workbook st') !! 0%nat = Some ws'
    /\ cellAt ws' 0 0 = VStr (js "kept")
    /\ cellAt ws' 0 0 <> resultValue (js "Total: 7")
    /\ cellAt ws' 0 0 <> VStr (js "Total: 7").
Proof.
  eexists. split; [vm_compute; reflexivity |].
  split; [vm_compute; reflexivity |]. split; vm_compute; discriminate.
Qed.

(** ** Overwrite confirmation *)

Lemma confirmsOverwrite_spec (inp a : jsstring) :
  confirmsOverwrite inp a = true <->
  toLowerCase (trim inp) = js "overwrite"
  \/ toLowerCase (trim inp) = js "overwrite " ++ toLowerCase a.
Proof.
  unfold confirmsOverwrite, strEq. rewrite orb_true_iff, !bool_decide_eq_true.
  reflexivity.
Qed.

(** Branch 1 of [handleSend], taken in a state where an overwrite of the
    cell at [addr] is awaited for a pending note: an input which, trimmed
    and lower-cased, is exactly [overwrite] or [overwrite] followed by one
    space and the lower-cased address writes the value of the note over the
    cell with the overwrite flag set and clears the pending result; any
    other input leaves the pending result and the workbook as they were and
    emits the confirmation prompt again.  Both empty the input box. *)
Lemma overwrite_confirmation
    (backend : Payload -> BackendAnswer) (st : AppState)
    (pp : PendingPlacement) (ao : AwaitingOverwrite) (ws : Worksheet) (r c : nat) :
  pendingPlacement st = Some pp ->
  awaitingOverwrite pp = Some ao ->
  nonEmpty (chart pp) = None ->
  worksheets (workbook st) !! activeSheet (workbook st) = Some ws ->
  parseA1 (targetAddress (Some (addr ao))) = Some (r, c) ->
  asciiOnly (input st) ->
  let text := toLowerCase (trim (input st)) in
  (text = js "overwrite" \/ text = js "overwrite " ++ toLowerCase (addr ao) ->
   handleSend backend st
   = {| messages := messages st ++ [aiSays (Text.overwrote (addr ao))];
        input := []; pendingPlacement := None;
        pendingUpload := pendingUpload st;
        workbook :=
          withSheet (workbook st) (activeSheet (workbook st))
            (withCells ws (putCell (r, c) (resultValue (note pp)) (cells ws)));
        requests := requests st |})
  /\ (text <> js "overwrite" /\ text <> js "overwrite " ++ toLowerCase (addr ao) ->
      handleSend backend st
      = {| messages := messages st ++ [aiSays Text.confirmPrompt];
           input := []; pendingPlacement := Some pp;
           pendingUpload := pendingUpload st; workbook := workbook st;
           requests := requests st |}).
Proof.
  intros Hp Ho Hc Hws Ha _ text. unfold handleSend, sendAwaitingOverwrite.
  rewrite Hp, Ho. split.
  - intros Ht. apply confirmsOverwrite_spec in Ht. rewrite Ht, Hc. hexec.
    rewrite (writeResult_writes _ ws (note pp) (Some (addr ao)) r c Hws Ha
               true (or_introl eq_refl)).
    reflexivity.
  - intros [H1 H2]. destruct (confirmsOverwrite (input st) (addr ao)) eqn:E.
    + apply confirmsOverwrite_spec in E. tauto.
    + hexec. now rewrite Hp.
Qed.

Lemma overwrite_confirmation_instance :
  handleSend noBackend (stateOf occupiedA1 "Overwrite a1" (Some awaitingA1))
  = {| messages := [aiSays (Text.overwrote (js "A1"))];
       input := []; pendingPlacement := None; pendingUpload := None;
       workbook :=
         {| worksheets :=
              [sheetWith "Sheet1" [((0, 0)%nat, VNum {| unscaled := 7; scale := 0 |})]];
            activeSheet := 0 |};
       requests := [] |}.
Proof.
  exact (proj1 (overwrite_confirmation noBackend
                  (stateOf occupiedA1 "Overwrite a1" (Some awaitingA1))
                  awaitingA1 {| addr := js "A1"; chartFlag := false |}
                  (sheetWith "Sheet1" [((0, 0)%nat, VStr (js "kept"))]) 0 0
                  eq_refl eq_refl eq_refl eq_refl eq_refl
                  (asciiOnly_check (js "Overwrite a1") eq_refl))
           (or_intror eq_refl)).
Defined.

(** The input is trimmed before the comparison: with a leading blank it
    still confirms. *)
Lemma overwrite_confirmation_trims_input :
  let st := stateOf occupiedA1 " overwrite" (Some awaitingA1) in
  ~ sameTextCI (input st) (js "overwrite")
  /\ ~ sameTextCI (input st) (js "overwrite A1")
  /\ pendingPlacement (handleSend noBackend st) = None
  /\ workbook (handleSend noBackend st) <> workbook st.
Proof.
  split; [vm_compute; discriminate |]. split; [vm_compute; discriminate |].
  split; [vm_compute; reflexivity |]. vm_compute. discriminate.
Qed.

(** C3: the confirmation is never awaited when a text arrives.  "Place in
    specific cell", then the address of a cell that holds a value: the pane
    asks to type [overwrite A1], but the handler clears the pending result
    right after it has recorded the awaited overwrite.  The phrase typed
    next does not commit the write and does not bring the prompt again: it
    is sent to the chat endpoint as a command, and A1 keeps its value.  The
    same happens after "Place below data" has proposed a cell that holds a
    value. *)
Theorem typed_overwrite_is_sent_as_command :
  let st0 := stateOf occupiedA1 "" (Some (pendingNote "Total: 7")) in
  let st1 := handleSend noBackend
               (typeInput (js "A1") (handlePlaceInSpecificCell st0)) in
  let st2 := handleSend noBackend (typeInput (js "overwrite A1") st1) in
  let st0' := stateOf takenBelowItem "" (Some pendingForItem) in
  let st1' := handlePlaceInExcelForChartOrBelow st0' in
  let st2' := handleSend noBackend (typeInput (js "overwrite A3") st1') in
  (messages st1 = [aiSays Text.askCell; aiSays (Text.cellOccupied (js "A1"))]
   /\ pendingPlacement st1 = None
   /\ workbook st2 = occupiedA1
   /\ messages st2
      = messages st1 ++ [userSays (js "overwrite A1"); aiSays Text.noResponse]
   /\ requests st2
      = [{| user_message := js "overwrite A1";
            excel_data := [[VStr (js "kept")]];
            chat_history := messages st1 |}])
  /\ (messages st1' = [aiSays (Text.suggestedOccupied (js "A3"))]
      /\ pendingPlacement st1' = None
      /\ workbook st2' = takenBelowItem
      /\ messages st2'
         = messages st1' ++ [userSays (js "overwrite A3"); aiSays Text.noResponse]
      /\ requests st2'
         = [{| user_message := js "overwrite A3";
               excel_data := [[VStr (js "Item")]; [VStr (js "taken")]];
               chat_history := messages st1' |}]).
Proof.
  cbv zeta. repeat split; vm_compute; reflexivity.
Qed.

(** ** The value written for a note *)

Lemma matchHere_opt_cons (c : N -> bool) (re : list Regex.item) (x : N) (s : jsstring) :
  Regex.matchHere (Regex.Opt c :: re) (x :: s)
  = if c x then
      match Regex.matchHere re s with
      | Some n => Some (S n)
      | None => Regex.matchHere re (x :: s)
      end
    else Regex.matchHere re (x :: s).
Proof. reflexivity. Qed.

Lemma matchHere_opt_nil (c : N -> bool) (re : list Regex.item) :
  Regex.matchHere (Regex.Opt c :: re) [] = Regex.matchHere re [].
Proof. reflexivity. Qed.

Lemma matchHere_star (c : N -> bool) (re : list Regex.item) (s : jsstring) :
  Regex.matchHere (Regex.Star c :: re) s = Regex.star c (Regex.matchHere re) s.
Proof. reflexivity. Qed.

Lemma star_stops (c : N -> bool) (k : jsstring -> option nat) (s : jsstring) :
  (forall x s', s = x :: s' -> c x = false) -> Regex.star c k s = k s.
Proof.
  intros H. destruct s as [|x s']; [reflexivity |]. simpl.
  now rewrite (H x s').
Qed.

Lemma noDigit_head (x : N) (s : jsstring) :
  noDigit (x :: s) = true -> Chars.isDigit x = false /\ noDigit s = true.
Proof.
  unfold noDigit. simpl. intros [Hx Hs]%andb_prop. split; [| assumption].
  now destruct (Chars.isDigit x).
Qed.

Lemma plus_digit_fails (s : jsstring) :
  noDigit s = true -> Regex.matchHere [Regex.Plus Chars.isDigit] s = None.
Proof.
  destruct s as [|x s]; [reflexivity |]. intros [Hx _]%noDigit_head.
  simpl. now rewrite Hx.
Qed.

Lemma fraction_fails (s : jsstring) :
  noDigit s = true ->
  Regex.matchHere [Regex.Opt (Chars.isChar 46); Regex.Plus Chars.isDigit] s = None.
Proof.
  intros Hs. destruct s as [|x s].
  - rewrite matchHere_opt_nil. now apply plus_digit_fails.
  - rewrite matchHere_opt_cons, (plus_digit_fails _ Hs).
    apply noDigit_head in Hs as [_ Hs]. rewrite (plus_digit_fails _ Hs).
    now destruct (Chars.isChar 46 x).
Qed.

Lemma unsigned_fails (s : jsstring) :
  noDigit s = true ->
  Regex.matchHere [Regex.Star Chars.isDigit; Regex.Opt (Chars.isChar 46);
                   Regex.Plus Chars.isDigit] s = None.
Proof.
  intros Hs. rewrite matchHere_star, star_stops; [now apply fraction_fails |].
  intros x s' ->. now apply noDigit_head in Hs as [Hx _].
Qed.

Lemma numeric_no_match_here (s : jsstring) :
  noDigit s = true -> Regex.matchHere numericPattern s = None.
Proof.
  intros Hs. unfold numericPattern. destruct s as [|x s].
  - rewrite matchHere_opt_nil. now apply unsigned_fails.
  - rewrite matchHere_opt_cons, (unsigned_fails _ Hs).
    apply noDigit_head in Hs as [_ Hs]. rewrite (unsigned_fails _ Hs).
    now destruct (_ || _).
Qed.

Lemma no_digit_no_number (s : jsstring) :
  noDigit s = true -> Regex.search numericPattern s = None.
Proof.
  induction s as [|x s IH]; intros Hs.
  - reflexivity.
  - cbn [Regex.search]. rewrite (numeric_no_match_here _ Hs).
    apply noDigit_head in Hs as [_ Hs]. now rewrite IH.
Qed.

Lemma resultValue_text (note : jsstring) :
  noDigit note = true -> resultValue note = VStr note.
Proof. intros H. unfold resultValue. now rewrite no_digit_no_number. Qed.

Lemma parseA1_nonempty (a : jsstring) (k : nat * nat) : parseA1 a = Some k -> a <> [].
Proof. intros H ->. discriminate. Qed.

Lemma targetAddress_upper (s : jsstring) (k : nat * nat) :
  parseA1 (toUpperCase s) = Some k ->
  targetAddress (Some (toUpperCase s)) = toUpperCase s.
Proof.
  intros H. pose proof (parseA1_nonempty _ _ H) as Hne. unfold targetAddress.
  destruct (toUpperCase s) as [|x t] eqn:E; [congruence |].
  rewrite <- E. apply toUpperCase_idem.
Qed.

(** The specific-cell path over a cell that is null or empty. *)
Lemma sendAwaitingCell_writes
    (st : AppState) (pp : PendingPlacement) (ws : Worksheet) (r c : nat) :
  nonEmpty (chart pp) = None ->
  worksheets (workbook st) !! activeSheet (workbook st) = Some ws ->
  parseA1 (toUpperCase (trim (input st))) = Some (r, c) ->
  filled (cellAt ws r c) = false ->
  sendAwaitingCell pp st
  = {| messages := messages st ++
         [aiSays (Text.placedAtDot (toUpperCase (trim (input st))))];
       input := []; pendingPlacement := None;
       pendingUpload := pendingUpload st;
       workbook :=
         withSheet (workbook st) (activeSheet (workbook st))
           (withCells ws (putCell (r, c) (resultValue (note pp)) (cells ws)));
       requests := requests st |}.
Proof.
  intros Hc Hws Ha Hf. unfold sendAwaitingCell, placeInCell.
  rewrite (parseA1_test_upper _ _ Ha). hexec. exec. rewrite Hws, Ha. exec.
  rewrite Hf, Hc. hexec.
  assert (Ht : parseA1 (targetAddress (Some (toUpperCase (trim (input st)))))
               = Some (r, c)) by now rewrite (targetAddress_upper _ _ Ha).
  rewrite (writeResult_writes _ ws (note pp) _ r c Hws Ht false (or_intror Hf)).
  reflexivity.
Qed.

(** ** Placement on a results sheet *)


Lemma insertSorted_In (x z : jsstring) (l : list jsstring) :
  In x (insertSorted z l) -> x = z \/ In x l.
Proof.
  induction l as [|w l IH]; simpl.
  - intros [<- | []]; now left.
  - destruct (strLe z w); simpl; intros [<- | H]; auto.
    destruct (IH H); auto.
Qed.

Lemma sortStrings_In (x : jsstring) (l : list jsstring) :
  In x (sortStrings l) -> In x l.
Proof.
  induction l as [|y l IH]; simpl; [tauto |].
  intros [-> | H]%insertSorted_In; auto.
Qed.

(** The results sheet chosen carries the prefix. *)
Lemma latestResultsSheet_prefix (wb wb' : Workbook) (n : jsstring) :
  latestResultsSheet false wb = (wb', Ok (Some n)) ->
  startsWith n resultsPrefix = true.
Proof.
  unfold latestResultsSheet. exec.
  destruct (List.filter _ _) as [|m ms] eqn:E; [discriminate |].
  intros [= _ Hl].
  assert (Hin : In n (m :: ms)).
  { apply sortStrings_In, list_elem_of_In, last_Some_elem_of, Hl. }
  rewrite <- E in Hin. now apply filter_In in Hin as [_ Hin].
Qed.









(** C8 at a failing input: creating a new results sheet for the note
    "Sum: 42.5 units" stores the number 42.5 in its A1, not the cleaned
    text. *)
Theorem new_results_sheet_stores_number :
  let st' := handlePlaceOnResultsSheet true
               (stateOf occupiedA1 "" (Some (pendingNote "Sum: 42.5 units"))) in
  exists ws', worksheets (workbook st') !! 1%nat = Some ws'
    /\ sheetName ws' = js "AI_Results_1"
    /\ cellAt ws' 0 0 = VNum {| unscaled := 425; scale := 1 |}
    /\ cellAt ws' 0 0 <> VStr (cleanText sumNote).
Proof.
  eexists. split; [vm_compute; reflexivity |].
  split; [vm_compute; reflexivity |]. split; [vm_compute; reflexivity |].
  vm_compute. discriminate.
Qed.

(** ** The cell proposed below a column *)

Lemma findIndex_spec {A} (p : A -> bool) (l : list A) (i : nat) :
  findIndex p l = Some i ->
  (exists x, l !! i = Some x /\ p x = true)
  /\ (forall j x, (j < i)%nat -> l !! j = Some x -> p x = false).
Proof.
  revert i. induction l as [|y l IH]; intros i; simpl; [discriminate |].
  destruct (p y) eqn:Hy.
  - intros [= <-]. split; [eauto |]. intros j x Hj. lia.
  - destruct (findIndex p l) as [i' |]; [| discriminate].
    intros [= <-]. destruct (IH i' eq_refl) as [Hx Hbefore]. split; [assumption |].
    intros [|j] x Hj; simpl; [congruence |]. apply Hbefore. lia.
Qed.

(** The scan keeps the last index of the run at which the test holds. *)
Lemma last_wins_scan (P : nat -> bool) (len start init : nat) :
  (init < start)%nat ->
  let r := fold_left (fun lastRow i => if P i then i else lastRow)
             (seq start len) init in
  (r = init \/ ((start <= r < start + len)%nat /\ P r = true))
  /\ (forall j, (r < j)%nat -> (start <= j < start + len)%nat -> P j = false).
Proof.
  revert start init. induction len as [|len IH]; intros start init Hlt; simpl.
  - split; [now left | lia].
  - destruct (IH (S start) (if P start then start else init)) as [Hr Hafter].
    { destruct (P start); lia. }
    set (r := fold_left _ (seq (S start) len) _) in *.
    split.
    + destruct Hr as [-> | [Hrange Hp]].
      * destruct (P start) eqn:Hs; [right; split; [lia | assumption] | now left].
      * right. split; [lia | assumption].
    + intros j Hj Hrange. destruct (Nat.eq_dec j start) as [-> | Hne].
      * destruct Hr as [Hr | [Hr _]]; [| lia].
        destruct (P start) eqn:Hs; [| reflexivity]. lia.
      * apply Hafter; lia.
Qed.

Lemma truthy_filled (v : CellValue) : truthy v = true -> filled v = true.
Proof. destruct v as [|[|x s]|x|b]; simpl; auto; discriminate. Qed.

Section FindPlacementCell.
Variables (wb : Workbook) (ws : Worksheet) (columnName : jsstring).
Variables (headerRow : list CellValue) (rest : list (list CellValue)) (idx : nat).
Hypothesis active : worksheets wb !! activeSheet wb = Some ws.
Hypothesis used : valuesOrEmpty (getUsedRangeOrNullObject ws) = headerRow :: rest.
Hypothesis matched : findIndex (headerMatches columnName) headerRow = Some idx.

Let vals := headerRow :: rest.

(** What [findPlacementCell] does once the column is found: it looks the
    computed address up and reports the cell. *)
Lemma findPlacementCell_found :
  findPlacementCell columnName wb
  = match parseA1 (placementAddress vals idx) with
    | Some (r, c) =>
        (wb, Ok {| found := true; cellAddress := Some (placementAddress vals idx);
                   occupied := filled (cellAt ws r c) |})
    | None => (wb, Throw (HostError InvalidArgument))
    end.
Proof.
  unfold findPlacementCell. exec. rewrite active. exec. rewrite used, matched.
  exec. rewrite active. fold vals. destruct (parseA1 _) as [[r c] |]; reflexivity.
Qed.

Lemma header_present : present (columnCell vals 0 idx) = true.
Proof.
  destruct (findIndex_spec _ _ _ matched) as [(h & Hh & Hm) _].
  unfold columnCell, vals. simpl. rewrite Hh. simpl.
  apply truthy_filled. unfold headerMatches in Hm. now apply andb_prop in Hm as [Hm _].
Qed.

Lemma lastFilledRow_spec :
  let lastRow := lastFilledRow vals idx in
  (lastRow < length vals)%nat
  /\ present (columnCell vals lastRow idx) = true
  /\ (forall j, (lastRow < j < length vals)%nat ->
                present (columnCell vals j idx) = false).
Proof.
  unfold lastFilledRow.
  destruct (last_wins_scan (fun i => present (columnCell vals i idx))
              (length vals - 1) 1 0 ltac:(lia)) as [Hr Hafter].
  cbv zeta in Hr, Hafter. set (r := fold_left _ _ _) in *.
  assert (Hlen : (0 < length vals)%nat) by (unfold vals; simpl; lia).
  split; [| split].
  - destruct Hr as [-> | [? _]]; lia.
  - destruct Hr as [-> | [_ ?]]; [apply header_present | assumption].
  - intros j Hj. apply Hafter; lia.
Qed.
End FindPlacementCell.

(** The proposal in the coordinates of the used range. *)
Lemma findPlacementCell_in_values
    (wb : Workbook) (ws : Worksheet) (columnName : jsstring)
    (headerRow : list CellValue) (rest : list (list CellValue)) (idx : nat) :
  worksheets wb !! activeSheet wb = Some ws ->
  valuesOrEmpty (getUsedRangeOrNullObject ws) = headerRow :: rest ->
  findIndex (headerMatches columnName) headerRow = Some idx ->
  (idx <= 25)%nat ->
  let lastRow := lastFilledRow (headerRow :: rest) idx in
  let address := fromCharCode (65 + N.of_nat idx) ++ natToString (lastRow + 2) in
  N.of_nat (lastRow + 2) <= maxRows ->
  parseA1 address = Some ((lastRow + 1)%nat, idx)
  /\ findPlacementCell columnName wb
     = (wb, Ok {| found := true; cellAddress := Some address;
                  occupied := filled (cellAt ws (lastRow + 1) idx) |}).
Proof.
  intros Hws Hused Hm Hidx lastRow address Hrow.
  assert (Ha : parseA1 address = Some ((lastRow + 1)%nat, idx)).
  { unfold address. rewrite parseA1_column_row by (try assumption; lia).
    do 2 f_equal. lia. }
  split; [exact Ha |].
  rewrite (findPlacementCell_found wb ws columnName headerRow rest idx Hws Hused Hm).
  change (placementAddress (headerRow :: rest) idx) with address.
  now rewrite Ha.
Qed.

Lemma findIndex_first {A} (p : A -> bool) (l : list A) (i : nat) (x : A) :
  l !! i = Some x -> p x = true ->
  (forall j y, (j < i)%nat -> l !! j = Some y -> p y = false) ->
  findIndex p l = Some i.
Proof.
  revert i. induction l as [|z l IH]; intros i Hx Hp Hbefore; [discriminate |].
  destruct i as [|i]; simpl in *.
  - injection Hx as ->. now rewrite Hp.
  - rewrite (Hbefore 0%nat z) by (reflexivity || lia).
    rewrite (IH i Hx Hp); [reflexivity |].
    intros j y Hj Hy. apply (Hbefore (S j) y); [lia | exact Hy].
Qed.

(** The used range covers every cell that holds a value. *)
Lemma usedBounds_covers (ws : Worksheet) (r c : nat) :
  filled (cellAt ws r c) = true ->
  exists b, usedBounds ws = Some b
            /\ (minRow b <= r <= maxRow b)%nat /\ (minCol b <= c <= maxCol b)%nat.
Proof.
  unfold usedBounds, cellAt. intros Hf.
  assert (H : forall k v, cells ws !! k = Some v -> filled v = true ->
              exists b, map_fold extend None (cells ws) = Some b
                        /\ (minRow b <= k.1 <= maxRow b)%nat
                        /\ (minCol b <= k.2 <= maxCol b)%nat).
  { apply (map_fold_weak_ind
             (fun acc (m : gmap (nat * nat) CellValue) =>
                forall k v, m !! k = Some v -> filled v = true ->
                  exists b, acc = Some b
                            /\ (minRow b <= k.1 <= maxRow b)%nat
                            /\ (minCol b <= k.2 <= maxCol b)%nat)).
    - intros k v. now rewrite lookup_empty.
    - intros i x m acc Hi IH k v. unfold extend.
      destruct (decide (i = k)) as [<- | Hne].
      + rewrite lookup_insert_eq. intros [= <-] ->.
        destruct acc as [b |]; eexists; (split; [reflexivity |]); simpl; lia.
      + rewrite lookup_insert_ne by assumption. intros Hk Hv.
        destruct (IH k v Hk Hv) as (b & -> & Hr & Hc).
        destruct (filled x); eexists; (split; [reflexivity |]); simpl; lia. }
  destruct (cells ws !! (r, c)) as [v |] eqn:E; [| discriminate].
  exact (H (r, c) v E Hf).
Qed.

Section UsedRangeFromA1.
Variables (ws : Worksheet) (b : Bounds).
Hypothesis bounds : usedBounds ws = Some b.
Hypothesis fromRow1 : minRow b = 0%nat.
Hypothesis fromColumnA : minCol b = 0%nat.

Let vals := valuesOrEmpty (getUsedRangeOrNullObject ws).

Lemma used_values :
  vals = map (fun r => map (cellAt ws r) (seq 0 (maxCol b + 1))) (seq 0 (maxRow b + 1)).
Proof.
  unfold vals, getUsedRangeOrNullObject. rewrite bounds. simpl.
  rewrite fromRow1, fromColumnA, !Nat.sub_0_r. reflexivity.
Qed.

Lemma used_values_header :
  vals = map (cellAt ws 0) (seq 0 (maxCol b + 1)) :: tl vals.
Proof.
  rewrite used_values at 1. rewrite used_values.
  replace (maxRow b + 1)%nat with (S (maxRow b)) by lia. reflexivity.
Qed.

Lemma used_columnCell (i j : nat) :
  columnCell vals i j
  = if ((i <=? maxRow b) && (j <=? maxCol b))%nat then Some (cellAt ws i j) else None.
Proof.
  unfold columnCell. rewrite used_values, list_lookup_fmap.
  destruct (Nat.leb_spec i (maxRow b)) as [Hi | Hi].
  - rewrite lookup_seq_lt by lia. simpl. rewrite list_lookup_fmap.
    destruct (Nat.leb_spec j (maxCol b)) as [Hj | Hj].
    + rewrite lookup_seq_lt by lia. reflexivity.
    + rewrite lookup_seq_ge by lia. reflexivity.
  - rewrite lookup_seq_ge by lia. reflexivity.
Qed.

(** In a used range that starts at A1, a cell of the values holds a value
    exactly when the cell of the sheet at the same place does. *)
Lemma used_present (i j : nat) :
  present (columnCell vals i j) = filled (cellAt ws i j).
Proof.
  rewrite used_columnCell.
  destruct ((i <=? maxRow b) && (j <=? maxCol b))%nat eqn:E; [reflexivity |].
  simpl. destruct (filled (cellAt ws i j)) eqn:Hf; [| reflexivity].
  destruct (usedBounds_covers ws i j Hf) as (b' & Hb & Hi & Hj).
  assert (b' = b) as -> by congruence.
  apply andb_false_iff in E as [E | E]; apply Nat.leb_gt in E; lia.
Qed.
End UsedRangeFromA1.

(** The same for a used range that starts in column A at any row: the
    rows of the values are counted from the first used row. *)
Section UsedRangeFromColumnA.
Variables (ws : Worksheet) (b : Bounds).
Hypothesis bounds : usedBounds ws = Some b.
Hypothesis fromColumnA : minCol b = 0%nat.

Let vals := valuesOrEmpty (getUsedRangeOrNullObject ws).

Lemma used_rows :
  vals = map (fun r => map (cellAt ws r) (seq 0 (maxCol b + 1)))
           (seq (minRow b) (maxRow b - minRow b + 1)).
Proof.
  unfold vals, getUsedRangeOrNullObject. rewrite bounds. simpl.
  rewrite fromColumnA, !Nat.sub_0_r. reflexivity.
Qed.

Lemma used_rows_header :
  vals = map (cellAt ws (minRow b)) (seq 0 (maxCol b + 1)) :: tl vals.
Proof.
  rewrite used_rows at 1. rewrite used_rows.
  replace (maxRow b - minRow b + 1)%nat with (S (maxRow b - minRow b)) by lia.
  reflexivity.
Qed.

Lemma used_rows_columnCell (i j : nat) :
  columnCell vals i j
  = if ((i <=? maxRow b - minRow b) && (j <=? maxCol b))%nat
    then Some (cellAt ws (minRow b + i) j) else None.
Proof.
  unfold columnCell. rewrite used_rows, list_lookup_fmap.
  destruct (Nat.leb_spec i (maxRow b - minRow b)) as [Hi | Hi].
  - rewrite lookup_seq_lt by lia. simpl. rewrite list_lookup_fmap.
    destruct (Nat.leb_spec j (maxCol b)) as [Hj | Hj].
    + rewrite lookup_seq_lt by lia. reflexivity.
    + rewrite lookup_seq_ge by lia. reflexivity.
  - rewrite lookup_seq_ge by lia. reflexivity.
Qed.

(** A cell of the values holds a value exactly when the cell of the sheet
    that many rows below the first used row does. *)
Lemma used_rows_present (i j : nat) :
  present (columnCell vals i j) = filled (cellAt ws (minRow b + i) j).
Proof.
  rewrite used_rows_columnCell.
  destruct ((i <=? maxRow b - minRow b) && (j <=? maxCol b))%nat eqn:E; [reflexivity |].
  simpl. destruct (filled (cellAt ws (minRow b + i) j)) eqn:Hf; [| reflexivity].
  destruct (usedBounds_covers ws _ j Hf) as (b' & Hb & Hi & Hj).
  assert (b' = b) as -> by congruence.
  apply andb_false_iff in E as [E | E]; apply Nat.leb_gt in E; lia.
Qed.
End UsedRangeFromColumnA.

(** An address whose row number is beyond the last row of the grid
    denotes no cell. *)
Lemma parseA1_row_outside (ch : N) (row : nat) :
  Chars.isLetter ch = true -> maxRows < N.of_nat row ->
  parseA1 (ch :: natToString row) = None.
Proof.
  intros Hl Hmax. unfold parseA1, natToString.
  pose proof (NToString_digits (N.of_nat row)) as Hds.
  pose proof (NToString_nonempty (N.of_nat row)) as Hne.
  change (ch :: NToString (N.of_nat row)) with ([ch] ++ NToString (N.of_nat row)).
  rewrite (takeWhile_app Chars.isLetter [ch] (NToString (N.of_nat row))).
  - change (drop (length [ch]) ([ch] ++ NToString (N.of_nat row)))
      with (NToString (N.of_nat row)).
    pose proof (digitsValue_NToString (N.of_nat row)) as Hv.
    remember (NToString (N.of_nat row)) as ds eqn:E in *.
    destruct ds as [|d ds]; [congruence |].
    rewrite Hds, Hv. unfold maxRows in *.
    replace (N.of_nat row <=? 1048576) with false by cases_cmp.
    now rewrite andb_false_r.
  - simpl. now rewrite Hl.
  - intros x r' E. rewrite E in Hds. simpl in Hds.
    apply andb_prop in Hds as [Hx _]. now apply digit_not_letter.
Qed.

(** C6, as amended: on a sheet whose used range starts in column A and
    whose header row, the first row of the used range, holds at a column
    index of at most 25 the first cell that matches the hint (of ASCII text,
    like the header), the column has a last row that holds a value, with no
    value in any row after it whatever gaps lie before; [findPlacementCell]
    returns, when that is inside the grid, the address of that column whose
    row number is the index of that last row, counted from the header row as
    row 0, plus 2; when it is outside the grid the host rejects the lookup
    of the address and nothing is returned.  The flag [occupied] is that of
    the cell of the sheet at this address: when the header row is row 1 of
    the sheet, the free cell right below the data of the column. *)
Theorem findPlacementCell_below_last_filled
    (wb : Workbook) (ws : Worksheet) (b : Bounds) (columnName : jsstring)
    (idx : nat) :
  worksheets wb !! activeSheet wb = Some ws ->
  usedBounds ws = Some b ->
  minCol b = 0%nat ->
  asciiOnly columnName ->
  (forall c, asciiOnly (toString (cellAt ws (minRow b) c))) ->
  headerMatches columnName (cellAt ws (minRow b) idx) = true ->
  (forall j, (j < idx)%nat ->
             headerMatches columnName (cellAt ws (minRow b) j) = false) ->
  (idx <= 25)%nat ->
  exists lastRow,
    filled (cellAt ws (minRow b + lastRow) idx) = true
    /\ (forall j, (lastRow < j)%nat -> filled (cellAt ws (minRow b + j) idx) = false)
    /\ (N.of_nat (lastRow + 2) <= maxRows ->
        let address := fromCharCode (65 + N.of_nat idx) ++ natToString (lastRow + 2) in
        parseA1 address = Some ((lastRow + 1)%nat, idx)
        /\ findPlacementCell columnName wb
           = (wb, Ok {| found := true; cellAddress := Some address;
                        occupied := filled (cellAt ws (lastRow + 1) idx) |})
        /\ (minRow b = 0%nat -> filled (cellAt ws (lastRow + 1) idx) = false))
    /\ (maxRows < N.of_nat (lastRow + 2) ->
        findPlacementCell columnName wb = (wb, Throw (HostError InvalidArgument))).
Proof.
  intros Hws Hb Hcol _ _ Hm Hfirst Hidx.
  assert (Hfilled : filled (cellAt ws (minRow b) idx) = true).
  { apply truthy_filled. unfold headerMatches in Hm.
    now apply andb_prop in Hm as [Hm _]. }
  destruct (usedBounds_covers ws _ idx Hfilled) as (b' & Hb' & Hr0 & Hc0).
  assert (b' = b) as -> by congruence.
  pose proof (used_rows_header ws b Hb Hcol) as Hvals.
  set (headerRow := map (cellAt ws (minRow b)) (seq 0 (maxCol b + 1))) in *.
  set (rest := tl (valuesOrEmpty (getUsedRangeOrNullObject ws))) in *.
  assert (Hfind : findIndex (headerMatches columnName) headerRow = Some idx).
  { apply (findIndex_first _ _ _ (cellAt ws (minRow b) idx)); [| assumption |].
    - unfold headerRow. rewrite list_lookup_fmap, lookup_seq_lt by lia. reflexivity.
    - intros j y Hj. unfold headerRow. rewrite list_lookup_fmap.
      rewrite lookup_seq_lt by lia. intros [= <-]. now apply Hfirst. }
  pose proof (lastFilledRow_spec columnName headerRow rest idx Hfind)
    as (Hlt & Hlast & Hafter).
  cbv zeta in Hlt, Hlast, Hafter.
  pose proof (used_rows_present ws b Hb Hcol) as Hpresent. rewrite Hvals in Hpresent.
  set (lastRow := lastFilledRow (headerRow :: rest) idx) in *.
  assert (Hfree : forall j, (lastRow < j)%nat ->
                            filled (cellAt ws (minRow b + j) idx) = false).
  { intros j Hj. rewrite <- Hpresent.
    destruct (Nat.lt_ge_cases j (length (headerRow :: rest))) as [Hin | Hout].
    - apply Hafter. lia.
    - unfold columnCell. now rewrite (lookup_ge_None_2 _ _ Hout). }
  exists lastRow. split; [now rewrite <- Hpresent |]. split; [exact Hfree |].
  split.
  - intros Hgrid address.
    destruct (findPlacementCell_in_values wb ws columnName headerRow rest idx
                Hws Hvals Hfind Hidx Hgrid) as [Ha Hres].
    split; [exact Ha |]. split; [exact Hres |].
    intros Hrow. specialize (Hfree (lastRow + 1)%nat ltac:(lia)).
    now rewrite Hrow in Hfree.
  - intros Hout.
    rewrite (findPlacementCell_found wb ws columnName headerRow rest idx
               Hws Hvals Hfind).
    unfold placementAddress. fold lastRow. unfold fromCharCode.
    rewrite N.mod_small by lia. cbn [app].
    rewrite parseA1_row_outside; [reflexivity | | assumption].
    unfold Chars.isLetter, Chars.isUpper, Chars.isLower. cases_cmp.
Qed.

(** On [gapColumn] the column B holds values in rows 2 and 4: the address
    is B5.  On [tableFromRow3] the header row is row 3 and the column has
    one value below it: the address is B3, the header cell itself. *)
Lemma findPlacementCell_below_last_filled_witness :
  findPlacementCell (js "sales") gapColumn
  = (gapColumn, Ok {| found := true; cellAddress := Some (js "B5");
                      occupied := false |})
  /\ findPlacementCell (js "sales") tableFromRow3
     = (tableFromRow3, Ok {| found := true; cellAddress := Some (js "B3");
                             occupied := true |}).
Proof.
  assert (Hascii : forall (l : list (nat * nat * CellValue)) (name : string) r c,
             Forall (fun e => asciiOnly (toString e.2)) l ->
             asciiOnly (toString (cellAt (sheetWith name l) r c))).
  { intros l name r c Hl. unfold cellAt, sheetWith. cbn [cells].
    destruct (list_to_map l !! (r, c)) as [v |] eqn:E; [| now apply asciiOnly_check].
    apply elem_of_list_to_map_2 in E.
    rewrite Forall_forall in Hl. exact (Hl _ E). }
  assert (Hlast : forall (l : list (nat * nat * CellValue)) (name : string) r c n,
             filled (cellAt (sheetWith name l) r c) = true ->
             Forall (fun e => e.1.2 = c -> (e.1.1 <= n)%nat) l -> (r <= n)%nat).
  { intros l name r c n Hf Hl. unfold cellAt, sheetWith in Hf. cbn [cells] in Hf.
    destruct (list_to_map l !! (r, c)) as [v |] eqn:E; [| discriminate].
    apply elem_of_list_to_map_2 in E.
    rewrite Forall_forall in Hl. exact (Hl _ E eq_refl). }
  split.
  - destruct (findPlacementCell_below_last_filled gapColumn
                (sheetWith "Sheet1"
                   [((0, 0)%nat, VStr (js "Item")); ((0, 1)%nat, VStr (js "Sales"));
                    ((1, 1)%nat, VNum {| unscaled := 10; scale := 0 |});
                    ((3, 1)%nat, VNum {| unscaled := 30; scale := 0 |});
                    ((4, 0)%nat, VStr (js "last"))])
                {| minRow := 0; minCol := 0; maxRow := 4; maxCol := 1 |}
                (js "sales") 1%nat eq_refl eq_refl eq_refl
                (asciiOnly_check (js "sales") eq_refl))
      as (lastRow & Hl & Hafter & Hres & _).
    + intros c. apply Hascii. repeat constructor; now apply asciiOnly_check.
    + reflexivity.
    + intros [|j] Hj; [reflexivity | lia].
    + lia.
    + cbn [minRow Nat.add] in Hl, Hafter.
      assert (E : lastRow = 3%nat).
      { destruct (Nat.lt_trichotomy lastRow 3) as [Hlt | [-> | Hgt]]; [| reflexivity |].
        - specialize (Hafter 3%nat Hlt). vm_compute in Hafter. discriminate Hafter.
        - apply Hlast with (n := 3%nat) in Hl; [lia |].
          repeat (constructor; [cbn; lia |]). constructor. }
      subst lastRow. destruct Hres as (_ & Hres & _); [vm_compute; discriminate |].
      exact Hres.
  - destruct (findPlacementCell_below_last_filled tableFromRow3
                (sheetWith "Sheet1"
                   [((2, 0)%nat, VStr (js "Item")); ((2, 1)%nat, VStr (js "Sales"));
                    ((3, 1)%nat, VNum {| unscaled := 10; scale := 0 |})])
                {| minRow := 2; minCol := 0; maxRow := 3; maxCol := 1 |}
                (js "sales") 1%nat eq_refl eq_refl eq_refl
                (asciiOnly_check (js "sales") eq_refl))
      as (lastRow & Hl & Hafter & Hres & _).
    + intros c. apply Hascii. repeat constructor; now apply asciiOnly_check.
    + reflexivity.
    + intros [|j] Hj; [reflexivity | lia].
    + lia.
    + cbn [minRow Nat.add] in Hl, Hafter.
      assert (E : lastRow = 1%nat).
      { destruct (Nat.lt_trichotomy lastRow 1) as [Hlt | [-> | Hgt]]; [| reflexivity |].
        - specialize (Hafter 1%nat Hlt). vm_compute in Hafter. discriminate Hafter.
        - apply Hlast with (n := 3%nat) in Hl; [lia |].
          repeat (constructor; [cbn; lia |]). constructor. }
      subst lastRow. destruct Hres as (_ & Hres & _); [vm_compute; discriminate |].
      exact Hres.
Defined.

(** C6 as stated fails in two ways.  With the match in column AH (index
    33) the address returned is "b3", a cell of column B.  And on a sheet
    whose column A is empty, the match in B1 yields "A3", a cell of column
    A. *)
Lemma findPlacementCell_beyond_Z :
  (exists ws,
     worksheets columnAH !! activeSheet columnAH = Some ws
     /\ headerMatches (js "sales") (cellAt ws 0 33) = true
     /\ (forall j, (j < 33)%nat -> headerMatches (js "sales") (cellAt ws 0 j) = false)
     /\ findPlacementCell (js "sales") columnAH
        = (columnAH, Ok {| found := true; cellAddress := Some (js "b3");
                           occupied := false |})
     /\ parseA1 (js "b3") = Some (2%nat, 1%nat))
  /\ (exists ws,
        worksheets emptyColumnA !! activeSheet emptyColumnA = Some ws
        /\ headerMatches (js "sales") (cellAt ws 0 1) = true
        /\ headerMatches (js "sales") (cellAt ws 0 0) = false
        /\ findPlacementCell (js "sales") emptyColumnA
           = (emptyColumnA, Ok {| found := true; cellAddress := Some (js "A3");
                                  occupied := false |})
        /\ parseA1 (js "A3") = Some (2%nat, 0%nat)).
Proof.
  split.
  - eexists. split; [reflexivity |]. split; [vm_compute; reflexivity |].
    split; [| split; vm_compute; reflexivity].
    intros j Hj. do 33 (destruct j as [|j]; [vm_compute; reflexivity |]). lia.
  - eexists. split; [reflexivity |]. split; [vm_compute; reflexivity |].
    split; [vm_compute; reflexivity |]. split; vm_compute; reflexivity.
Qed.

(** ** Columns beyond Z *)

Lemma fromCharCode_column (idx : nat) :
  N.of_nat idx < maxColumns ->
  fromCharCode (65 + N.of_nat idx) = [65 + N.of_nat idx].
Proof.
  unfold fromCharCode, maxColumns. intros H. f_equal. apply N.mod_small. lia.
Qed.

Lemma placementAddress_test (vals : list (list CellValue)) (idx : nat) :
  N.of_nat idx < maxColumns ->
  Regex.test addressPattern (placementAddress vals idx) = true <-> (idx <= 25)%nat.
Proof.
  intros Hidx. unfold placementAddress. rewrite fromCharCode_column by assumption.
  split.
  - unfold Regex.test, addressPattern. rewrite bool_decide_eq_true.
    cbn [app Regex.matchHere].
    destruct (Chars.isUpper (65 + N.of_nat idx)) eqn:E.
    + intros _. unfold Chars.isUpper in E. cases_cmp.
    + intros [n Hn]. discriminate Hn.
  - intros Hle. apply letters_digits_match.
    + apply digit_not_upper.
    + discriminate.
    + simpl. unfold Chars.isUpper. cases_cmp.
    + apply NToString_nonempty.
    + apply NToString_digits.
Qed.

(** C10, as amended: when the first matching header cell (of ASCII text,
    like the hint) lies at a column index of 26 or more (inside the grid),
    the address [findPlacementCell] computes has as column part the single
    character of code 65 + index, which is not an upper-case letter, so the
    address fails the grammar of upper-case letters followed by digits;
    computed addresses are well formed exactly for indices up to 25.  No
    other address can be returned.  For the indices 32 to 57 the character
    is a lower-case letter: the address is returned and denotes the column
    32 places to the left.  For the other indices the character is no letter
    and the host rejects the lookup: nothing is returned. *)
Theorem findPlacementCell_column_letter
    (wb : Workbook) (ws : Worksheet) (columnName : jsstring)
    (headerRow : list CellValue) (rest : list (list CellValue)) (idx : nat) :
  worksheets wb !! activeSheet wb = Some ws ->
  valuesOrEmpty (getUsedRangeOrNullObject ws) = headerRow :: rest ->
  asciiOnly columnName ->
  Forall (fun h => asciiOnly (toString h)) headerRow ->
  findIndex (headerMatches columnName) headerRow = Some idx ->
  N.of_nat idx < maxColumns ->
  (26 <= idx)%nat ->
  let vals := headerRow :: rest in
  let lastRow := lastFilledRow vals idx in
  let address := placementAddress vals idx in
  address = (65 + N.of_nat idx) :: natToString (lastRow + 2)
  /\ Chars.isUpper (65 + N.of_nat idx) = false
  /\ Regex.test addressPattern address = false
  /\ (forall i, N.of_nat i < maxColumns ->
        (Regex.test addressPattern (placementAddress vals i) = true <-> (i <= 25)%nat))
  /\ (forall wb' p, findPlacementCell columnName wb = (wb', Ok p) ->
                    cellAddress p = Some address)
  /\ ((32 <= idx <= 57)%nat -> N.of_nat (lastRow + 2) <= maxRows ->
      Chars.isLower (65 + N.of_nat idx) = true
      /\ findPlacementCell columnName wb
         = (wb, Ok {| found := true; cellAddress := Some address;
                      occupied := filled (cellAt ws (lastRow + 1) (idx - 32)) |}))
  /\ (~ (32 <= idx <= 57)%nat ->
      Chars.isLetter (65 + N.of_nat idx) = false
      /\ findPlacementCell columnName wb = (wb, Throw (HostError InvalidArgument))).
Proof.
  intros Hws Hused _ _ Hm Hidx H26 vals lastRow address.
  pose proof (findPlacementCell_found wb ws columnName headerRow rest idx
                Hws Hused Hm) as Hfound.
  fold vals in Hfound. fold address in Hfound.
  assert (Haddr : address = (65 + N.of_nat idx) :: natToString (lastRow + 2)).
  { unfold address, placementAddress. now rewrite fromCharCode_column. }
  split; [exact Haddr |]. split; [unfold Chars.isUpper; cases_cmp |].
  split.
  { destruct (Regex.test addressPattern address) eqn:E; [| reflexivity].
    apply placementAddress_test in E; [lia | assumption]. }
  split; [intros i Hi; now apply placementAddress_test |]. split; [| split].
  - intros wb' p. rewrite Hfound. destruct (parseA1 address) as [[r c] |].
    + now intros [= _ <-].
    + discriminate.
  - intros Hlow Hrow.
    assert (Hl : Chars.isLower (65 + N.of_nat idx) = true)
      by (unfold Chars.isLower; cases_cmp).
    split; [exact Hl |]. rewrite Hfound, Haddr.
    rewrite (parseA1_one_letter _ (idx - 32) (lastRow + 2)); try assumption; try lia.
    + replace (lastRow + 2 - 1)%nat with (lastRow + 1)%nat by lia. reflexivity.
    + unfold Chars.isLetter. now rewrite Hl, orb_true_r.
    + unfold Chars.toUpper. rewrite Hl. lia.
  - intros Hnot.
    assert (Hl : Chars.isLetter (65 + N.of_nat idx) = false)
      by (unfold Chars.isLetter, Chars.isUpper, Chars.isLower; cases_cmp).
    split; [exact Hl |]. rewrite Hfound.
    replace (parseA1 address) with (@None (nat * nat)); [reflexivity |].
    rewrite Haddr. unfold parseA1. cbn [takeWhile]. now rewrite Hl.
Qed.

Lemma findPlacementCell_column_letter_witness :
  placementAddress [widerHeader] 27 = js "\2"
  /\ Regex.test addressPattern (js "\2") = false
  /\ findPlacementCell (js "sales") widerSheet
     = (widerSheet, Throw (HostError InvalidArgument)).
Proof.
  destruct (findPlacementCell_column_letter widerSheet
              (sheetWith "Sheet1"
                 [((0, 0)%nat, VStr (js "Item")); ((0, 27)%nat, VStr (js "Sales"))])
              (js "sales") widerHeader [] 27%nat eq_refl eq_refl
              (asciiOnly_check (js "sales") eq_refl)
              (asciiRow_check widerHeader eq_refl) eq_refl eq_refl ltac:(lia))
    as (H1 & _ & H3 & _ & _ & _ & H7).
  split; [exact H1 |]. split; [exact H3 |]. apply H7. lia.
Defined.

(** C10 as stated fails: with the match at index 32 the column part of
    the address returned is the letter "a"; the address passes the check of
    [writeResult] and denotes a cell of column A. *)
Lemma findPlacementCell_returns_lower_case_letter :
  exists ws headerRow rest,
    worksheets columnAG !! activeSheet columnAG = Some ws
    /\ valuesOrEmpty (getUsedRangeOrNullObject ws) = headerRow :: rest
    /\ findIndex (headerMatches (js "sales")) headerRow = Some 32%nat
    /\ findPlacementCell (js "sales") columnAG
       = (columnAG, Ok {| found := true; cellAddress := Some (js "a3");
                          occupied := false |})
    /\ Chars.isLetter 97 = true
    /\ Regex.test addressPatternCI (targetAddress (Some (js "a3"))) = true
    /\ parseA1 (js "a3") = Some (2%nat, 0%nat).
Proof.
  eexists. eexists. eexists. split; [reflexivity |].
  split; [vm_compute; reflexivity |]. split; [vm_compute; reflexivity |].
  split; [vm_compute; reflexivity |]. split; [reflexivity |].
  split; vm_compute; reflexivity.
Qed.

(** ** Instances *)

Lemma writeResult_overwrite_guard_witness :
  writeResult (js "Total: 7") false (Some (js "a1")) false occupiedA1
  = (occupiedA1, Throw (occupiedError (js "A1")))
  /\ writeResult (js "Total: 7") false (Some (js "a1")) true occupiedA1
     = ({| worksheets :=
             [sheetWith "Sheet1" [((0, 0)%nat, VNum {| unscaled := 7; scale := 0 |})]];
           activeSheet := 0 |}, Ok tt).
Proof.
  destruct (writeResult_overwrite_guard occupiedA1
              (sheetWith "Sheet1" [((0, 0)%nat, VStr (js "kept"))])
              (js "Total: 7") (Some (js "a1")) 0 0 eq_refl eq_refl)
    as (H1 & H2 & _).
  split; [exact (H1 eq_refl) | exact (H2 true (or_introl eq_refl))].
Defined.

Lemma pending_blocks_commands_witness :
  handleSend noBackend (stateOf occupiedA1 "sum sales" (Some (pendingNote "Total: 7")))
  = {| messages := [aiSays Text.finishFirst]; input := js "sum sales";
       pendingPlacement := Some (pendingNote "Total: 7"); pendingUpload := None;
       workbook := occupiedA1; requests := [] |}.
Proof.
  exact (pending_blocks_commands noBackend
           (stateOf occupiedA1 "sum sales" (Some (pendingNote "Total: 7")))
           (pendingNote "Total: 7") eq_refl eq_refl eq_refl).
Defined.

(** ** Cells that hold a value are kept *)

Lemma keeps_refl (wb : Workbook) : keeps wb wb.
Proof. intros h ws r c Hws _. eauto. Qed.

Lemma keeps_trans (wb1 wb2 wb3 : Workbook) :
  keeps wb1 wb2 -> keeps wb2 wb3 -> keeps wb1 wb3.
Proof.
  intros H12 H23 h ws r c Hws Hf.
  destruct (H12 h ws r c Hws Hf) as (ws2 & Hws2 & E2).
  destruct (H23 h ws2 r c Hws2) as (ws3 & Hws3 & E3); [congruence |].
  exists ws3. split; [assumption | congruence].
Qed.

Lemma untouched_refl (n : nat) (wb : Workbook) : untouched n wb wb.
Proof. intros h _. reflexivity. Qed.

Lemma untouched_trans (n : nat) (wb1 wb2 wb3 : Workbook) :
  untouched n wb1 wb2 -> untouched n wb2 wb3 -> untouched n wb1 wb3.
Proof. intros H12 H23 h Hh. rewrite H23, H12; auto. Qed.

Lemma untouched_keeps (wb wb' : Workbook) :
  untouched (length (worksheets wb)) wb wb' -> keeps wb wb'.
Proof.
  intros Hu h ws r c Hws _. exists ws. split; [| reflexivity].
  rewrite Hu; [assumption |]. now apply lookup_lt_Some in Hws.
Qed.

Lemma putCell_other (k k' : nat * nat) (v : CellValue)
    (m : gmap (nat * nat) CellValue) :
  k <> k' -> putCell k v m !! k' = m !! k'.
Proof.
  intros Hne. destruct v as [|[|x s]|x|b]; simpl; try reflexivity;
    first [now apply lookup_insert_ne | now apply lookup_delete_ne].
Qed.

(** A change of the cells of one sheet that respects the cells holding a
    value. *)
Lemma keeps_withCells (wb : Workbook) (h : nat) (ws : Worksheet)
    (m : gmap (nat * nat) CellValue) :
  worksheets wb !! h = Some ws ->
  (forall r c, filled (cellAt ws r c) = true -> m !! (r, c) = cells ws !! (r, c)) ->
  keeps wb (withSheet wb h (withCells ws m)).
Proof.
  intros Hws Hm h' ws' r c Hws' Hf. unfold withSheet. cbn [worksheets].
  destruct (Nat.eq_dec h h') as [<- | Hne].
  - rewrite list_lookup_insert_eq by now apply lookup_lt_Some in Hws.
    eexists. split; [reflexivity |].
    assert (ws' = ws) as -> by congruence.
    unfold cellAt, withCells. cbn [cells]. now rewrite Hm.
  - rewrite list_lookup_insert_ne by assumption. eauto.
Qed.

Lemma keeps_withImages (wb : Workbook) (h : nat) (ws : Worksheet)
    (imgs : list jsstring) :
  worksheets wb !! h = Some ws -> keeps wb (withSheet wb h (withImages ws imgs)).
Proof.
  intros Hws h' ws' r c Hws' Hf. unfold withSheet. cbn [worksheets].
  destruct (Nat.eq_dec h h') as [<- | Hne].
  - rewrite list_lookup_insert_eq by now apply lookup_lt_Some in Hws.
    eexists. split; [reflexivity |].
    assert (ws' = ws) as -> by congruence. reflexivity.
  - rewrite list_lookup_insert_ne by assumption. eauto.
Qed.

Lemma untouched_withSheet (n h : nat) (wb : Workbook) (ws : Worksheet) :
  (n <= h)%nat -> untouched n wb (withSheet wb h ws).
Proof.
  intros Hle h' Hh'. unfold withSheet. cbn [worksheets].
  apply list_lookup_insert_ne. lia.
Qed.

(** The used range is null only on a sheet without a cell holding a value. *)
Lemma usedBounds_None (ws : Worksheet) :
  usedBounds ws = None -> forall r c, filled (cellAt ws r c) = false.
Proof.
  unfold usedBounds, cellAt. intros Hnone r c.
  assert (H : forall k v, cells ws !! k = Some v -> filled v = false).
  { revert Hnone.
    apply (map_fold_weak_ind
             (fun acc (m : gmap (nat * nat) CellValue) =>
                acc = None -> forall k v, m !! k = Some v -> filled v = false)).
    - intros _ k v. now rewrite lookup_empty.
    - intros i x m acc Hi IH. unfold extend. destruct (filled x) eqn:Hx.
      + discriminate.
      + intros Hacc k v. destruct (decide (i = k)) as [<- | Hne].
        * rewrite lookup_insert_eq. congruence.
        * rewrite lookup_insert_ne by assumption. now apply IH. }
  destruct (cells ws !! (r, c)) as [v |] eqn:E; [apply (H _ _ E) | reflexivity].
Qed.

Lemma same_keeps {A} (m : Excel A) : ESame m -> EKeeps m.
Proof. intros H wb. rewrite H. apply keeps_refl. Qed.

Lemma same_above {A} (n : nat) (m : Excel A) : ESame m -> Above n m.
Proof. intros H wb Hn. rewrite H. split; [apply untouched_refl | assumption]. Qed.

Lemma ret_same {A} (a : A) : ESame (ret a : Excel A).
Proof. intros wb. reflexivity. Qed.

Lemma throw_same {A} (e : Error) : ESame (throw e : Excel A).
Proof. intros wb. reflexivity. Qed.

Lemma bind_same {A B} (m : Excel A) (k : A -> Excel B) :
  ESame m -> (forall a, ESame (k a)) -> ESame (bind m k).
Proof.
  intros Hm Hk wb. unfold bind. specialize (Hm wb).
  destruct (m wb) as [wb' [a | e]]; simpl in *; subst; [apply Hk | reflexivity].
Qed.

Lemma bind_keeps {A B} (m : Excel A) (k : A -> Excel B) :
  EKeeps m -> (forall a, EKeeps (k a)) -> EKeeps (bind m k).
Proof.
  intros Hm Hk wb. unfold bind. specialize (Hm wb).
  destruct (m wb) as [wb' [a | e]]; simpl in *; [| assumption].
  eapply keeps_trans; [eassumption | apply Hk].
Qed.

Lemma bind_above {A B} (n : nat) (Q : A -> Prop) (m : Excel A) (k : A -> Excel B) :
  Above n m ->
  (forall wb wb' a, (n <= length (worksheets wb))%nat -> m wb = (wb', Ok a) -> Q a) ->
  (forall a, Q a -> Above n (k a)) ->
  Above n (bind m k).
Proof.
  intros Hm HQ Hk wb Hn. unfold bind. destruct (Hm wb Hn) as [Hu Hlen].
  specialize (HQ wb). destruct (m wb) as [wb' [a | e]]; simpl in *; [| auto].
  destruct (Hk a (HQ wb' a Hn eq_refl) wb' Hlen) as [Hu' Hlen'].
  split; [eapply untouched_trans; eassumption | assumption].
Qed.

Lemma above_keeps {A} (m : Excel A) : (forall n, Above n m) -> EKeeps m.
Proof.
  intros H wb. apply untouched_keeps. now apply (H (length (worksheets wb)) wb).
Qed.

Lemma getActiveWorksheet_same : ESame Host.getActiveWorksheet.
Proof. intros wb. reflexivity. Qed.

Lemma sheet_same (h : nat) : ESame (Host.sheet h).
Proof. intros wb. unfold Host.sheet. now destruct (_ !! _). Qed.

Lemma names_same : ESame Host.names.
Proof. intros wb. reflexivity. Qed.

Lemma getItemOrNullObject_same (n : jsstring) : ESame (Host.getItemOrNullObject n).
Proof. intros wb. reflexivity. Qed.

Lemma getItem_same (n : jsstring) : ESame (Host.getItem n).
Proof.
  apply bind_same; [apply getItemOrNullObject_same |].
  intros [h |]; [apply ret_same | apply throw_same].
Qed.

Lemma usedRange_same (h : nat) : ESame (Host.usedRange h).
Proof. apply bind_same; [apply sheet_same | intros ws; apply ret_same]. Qed.

Lemma readCell_same (h : nat) (a : jsstring) : ESame (Host.readCell h a).
Proof.
  apply bind_same; [apply sheet_same |]. intros ws.
  destruct (parseA1 a) as [[r c] |]; [apply ret_same | apply throw_same].
Qed.

Lemma findPlacementCell_same (columnName : jsstring) :
  ESame (findPlacementCell columnName).
Proof.
  apply bind_same; [apply getActiveWorksheet_same |]. intros sheet.
  apply bind_same; [apply usedRange_same |]. intros used. cbv beta zeta.
  destruct (valuesOrEmpty used) as [|headerRow rest]; [apply ret_same |].
  destruct (findIndex (headerMatches columnName) headerRow);
    [| apply ret_same].
  apply bind_same; [apply readCell_same | intros v; apply ret_same].
Qed.

Lemma getExcelData_same : ESame getExcelData.
Proof.
  apply bind_same; [apply getActiveWorksheet_same |]. intros sheet.
  apply bind_same; [apply usedRange_same | intros u; apply ret_same].
Qed.

Lemma latestResultsSheet_same (createNew : bool) : ESame (latestResultsSheet createNew).
Proof.
  apply bind_same; [apply names_same |]. intros names.
  destruct (List.filter _ _); [apply ret_same |].
  destruct createNew; apply ret_same.
Qed.

Lemma add_above (n : nat) (name : jsstring) : Above n (Host.add name).
Proof.
  intros wb Hn. destruct (add_cases name wb) as [[c ->] | ->]; simpl.
  - split; [apply untouched_refl | assumption].
  - split; [| rewrite length_app; lia].
    intros h Hh. apply lookup_app_l. lia.
Qed.

Lemma add_handle (n : nat) (name : jsstring) (wb wb' : Workbook) (h : nat) :
  (n <= length (worksheets wb))%nat -> Host.add name wb = (wb', Ok h) -> (n <= h)%nat.
Proof.
  intros Hn. destruct (add_cases name wb) as [[c ->] | ->]; [discriminate |].
  intros [= _ <-]. assumption.
Qed.

Lemma setCells_above (n h : nat) (f : gmap (nat * nat) CellValue ->
                                      gmap (nat * nat) CellValue) :
  (n <= h)%nat -> Above n (Host.setCells h f).
Proof.
  intros Hle wb Hn. unfold Host.setCells. destruct (worksheets wb !! h) as [ws |]; simpl.
  - split; [now apply untouched_withSheet |]. now rewrite length_insert.
  - split; [apply untouched_refl | assumption].
Qed.

Lemma writeCell_above (n h : nat) (a : jsstring) (v : CellValue) :
  (n <= h)%nat -> Above n (Host.writeCell h a v).
Proof.
  intros Hle. unfold Host.writeCell.
  destruct (parseA1 a); [now apply setCells_above | apply same_above, throw_same].
Qed.

Lemma writeBlock_above (n h r0 c0 nrows ncols : nat) (rows : list (list CellValue)) :
  (n <= h)%nat -> Above n (Host.writeBlock h r0 c0 nrows ncols rows).
Proof.
  intros Hle. unfold Host.writeBlock.
  destruct (_ && _); [now apply setCells_above | apply same_above, throw_same].
Qed.

Lemma addImage_keeps (h : nat) (img : jsstring) : EKeeps (Host.addImage h img).
Proof.
  intros wb. unfold Host.addImage. destruct (worksheets wb !! h) as [ws |] eqn:E; simpl.
  - now apply keeps_withImages.
  - apply keeps_refl.
Qed.

Lemma add_keeps (name : jsstring) : EKeeps (Host.add name).
Proof. apply above_keeps. intros n. apply add_above. Qed.

Lemma insertChartImageOnSheet_keeps (chart : jsstring) (sheetName : option jsstring) :
  EKeeps (insertChartImageOnSheet chart sheetName).
Proof.
  apply bind_keeps; [| intros h; apply addImage_keeps].
  destruct sheetName as [[|c r] |]; try apply same_keeps, getActiveWorksheet_same.
  apply bind_keeps; [apply same_keeps, getItemOrNullObject_same |].
  intros [h |]; [apply same_keeps, getItem_same | apply add_keeps].
Qed.

Lemma writeResult_new_sheet_above (n : nat) (note : jsstring)
    (cellAddress : option jsstring) (overwrite : bool) :
  Above n (writeResult note true cellAddress overwrite).
Proof.
  unfold writeResult. apply (bind_above n (fun h => (n <= h)%nat)).
  - apply (bind_above n (fun _ => True)); auto using same_above, names_same.
    intros names _. apply add_above.
  - intros wb wb' h Hn. unfold bind, Host.names. apply add_handle. assumption.
  - intros h Hh. cbv zeta. destruct (negb _); [apply same_above, throw_same |].
    apply (bind_above n (fun _ => True)); auto using same_above, readCell_same.
    intros cur _. destruct (_ && _); [apply same_above, throw_same |].
    now apply writeCell_above.
Qed.

(** Without the overwrite flag [writeResult] keeps every cell that holds a
    value. *)
Lemma writeResult_keeps (note : jsstring) (newSheet : bool)
    (cellAddress : option jsstring) :
  EKeeps (writeResult note newSheet cellAddress false).
Proof.
  destruct newSheet.
  - apply above_keeps. intros n. apply writeResult_new_sheet_above.
  - intros wb. unfold writeResult. exec.
    destruct (Regex.test _ _); [| apply keeps_refl].
    destruct (worksheets wb !! activeSheet wb) as [ws |] eqn:Hws; [| apply keeps_refl].
    exec. destruct (parseA1 _) as [[r c] |] eqn:Ha; [| apply keeps_refl].
    destruct (filled (cellAt ws r c)) eqn:Hf; [apply keeps_refl |].
    rewrite Hws. apply keeps_withCells; [assumption |].
    intros r' c' Hf'. apply putCell_other. intros [= -> ->]. congruence.
Qed.

(** With the flag it changes at most the cell addressed, on the active
    sheet. *)
Lemma writeResult_overwrite_elsewhere
    (note : jsstring) (cellAddress : option jsstring) (wb : Workbook)
    (h : nat) (ws : Worksheet) (r c : nat) :
  worksheets wb !! h = Some ws ->
  h <> activeSheet wb \/ parseA1 (targetAddress cellAddress) <> Some (r, c) ->
  exists ws', worksheets (writeResult note false cellAddress true wb).1 !! h = Some ws'
              /\ cellAt ws' r c = cellAt ws r c.
Proof.
  intros Hh Hother. unfold writeResult. exec.
  destruct (Regex.test _ _); [| eauto].
  destruct (worksheets wb !! activeSheet wb) as [wsA |] eqn:Hws; [| eauto].
  exec. destruct (parseA1 _) as [[r' c'] |] eqn:Ha; [| eauto].
  destruct (filled (cellAt wsA r' c')); rewrite Hws; unfold withSheet;
    cbn [worksheets].
  all: destruct (Nat.eq_dec (activeSheet wb) h) as [E | Hne];
    [| rewrite list_lookup_insert_ne by assumption; eauto].
  all: rewrite E in *; rewrite list_lookup_insert_eq
         by (now apply lookup_lt_Some in Hh).
  all: eexists; split; [reflexivity |].
  all: assert (wsA = ws) as -> by congruence.
  all: unfold cellAt, withCells; cbn [cells].
  all: rewrite putCell_other; [reflexivity |].
  all: intros [= -> ->]; destruct Hother as [Ho | Ho]; [now apply Ho | now apply Ho].
Qed.

Lemma createSheetFromUpload_keeps (name : jsstring) (hs : list jsstring)
    (rows : list (list CellValue)) :
  EKeeps (createSheetFromUpload name hs rows).
Proof.
  apply above_keeps. intros n. unfold createSheetFromUpload.
  apply (bind_above n (fun h => (n <= h)%nat)).
  - apply add_above.
  - intros wb wb' h Hn. now apply add_handle.
  - intros h Hh. apply (bind_above n (fun _ => True)); auto using writeBlock_above.
    intros _ _. apply (bind_above n (fun _ => True)); auto.
    + destruct (_ <? _)%nat; [now apply writeBlock_above | apply same_above, ret_same].
    + intros _ _. apply same_above, ret_same.
Qed.

Lemma same_onlyAt {A} (h : nat) (m : Excel A) : ESame m -> OnlyAt h m.
Proof. intros H wb h' _. now rewrite H. Qed.

Lemma bind_onlyAt {A B} (h : nat) (m : Excel A) (k : A -> Excel B) :
  OnlyAt h m -> (forall a, OnlyAt h (k a)) -> OnlyAt h (bind m k).
Proof.
  intros Hm Hk wb h' Hne. unfold bind. specialize (Hm wb h' Hne).
  destruct (m wb) as [wb' [a | e]]; simpl in *; [| assumption].
  now rewrite Hk.
Qed.

Lemma writeBlock_onlyAt (h r0 c0 nrows ncols : nat) (rows : list (list CellValue)) :
  OnlyAt h (Host.writeBlock h r0 c0 nrows ncols rows).
Proof.
  intros wb h' Hne. unfold Host.writeBlock, Host.setCells.
  destruct (_ && _); [| reflexivity].
  destruct (worksheets wb !! h); [| reflexivity]. simpl.
  apply list_lookup_insert_ne. congruence.
Qed.

Lemma writeUploadToEmptySheet_keeps (hs : list jsstring)
    (rows : list (list CellValue)) (wb : Workbook) :
  (forall ws, worksheets wb !! activeSheet wb = Some ws -> usedBounds ws = None) ->
  keeps wb (writeUploadToEmptySheet hs rows wb).1.
Proof.
  intros Hempty h ws r c Hws Hf.
  destruct (Nat.eq_dec h (activeSheet wb)) as [-> | Hne].
  - rewrite (usedBounds_None ws (Hempty ws Hws)) in Hf. discriminate.
  - exists ws. split; [| reflexivity]. rewrite <- Hws.
    assert (Honly : forall a, OnlyAt a
              (let* used := Host.usedRange a in
               if (0 <? rowCountOrZero used)%nat
               then ret (NotWritten (js "sheet_not_empty"))
               else
                 let width := Nat.max 1 (length hs) in
                 Host.writeBlock a 0 0 1 width [headerCells hs] ;;;
                 (if (0 <? length rows)%nat
                  then Host.writeBlock a 1 0 (length rows) width rows
                  else ret tt) ;;;
                 ret (Wrote (js "wrote_to_empty_sheet") None))).
    { intros a. apply bind_onlyAt; [apply same_onlyAt, usedRange_same |].
      intros used. destruct (_ <? _)%nat; [apply same_onlyAt, ret_same |].
      cbv zeta. apply bind_onlyAt; [apply writeBlock_onlyAt |]. intros _.
      apply bind_onlyAt; [| intros _; apply same_onlyAt, ret_same].
      destruct (_ <? _)%nat; [apply writeBlock_onlyAt | apply same_onlyAt, ret_same]. }
    exact (Honly (activeSheet wb) wb h Hne).
Qed.

Lemma hret_keeps {A} (a : A) : HKeeps (ret a : Handler A).
Proof. intros st. apply keeps_refl. Qed.

Lemma hbind_keeps {A B} (Q : A -> Prop) (m : Handler A) (k : A -> Handler B) :
  HKeeps m ->
  (forall st st' a, m st = (st', Ok a) -> Q a) ->
  (forall a, Q a -> HKeeps (k a)) ->
  HKeeps (bind m k).
Proof.
  intros Hm HQ Hk st. unfold bind. specialize (Hm st). specialize (HQ st).
  destruct (m st) as [st' [a | e]]; simpl in *; [| assumption].
  eapply keeps_trans; [eassumption |]. apply Hk. now apply (HQ st').
Qed.

Lemma hseq_keeps {A B} (m : Handler A) (k : A -> Handler B) :
  HKeeps m -> (forall a, HKeeps (k a)) -> HKeeps (bind m k).
Proof. intros Hm Hk. apply (hbind_keeps (fun _ => True)); auto. Qed.

Lemma tryCatch_keeps {A} (body : Handler A) (handler : Error -> Handler A) :
  HKeeps body -> (forall e, HKeeps (handler e)) -> HKeeps (tryCatch body handler).
Proof.
  intros Hb Hh st. unfold tryCatch. specialize (Hb st).
  destruct (body st) as [st' [a | e]]; simpl in *; [assumption |].
  eapply keeps_trans; [eassumption | apply Hh].
Qed.

Lemma pushMessage_keeps (m : Message.t) : HKeeps (pushMessage m).
Proof. intros st. apply keeps_refl. Qed.

Lemma say_keeps (txt : jsstring) : HKeeps (say txt).
Proof. apply pushMessage_keeps. Qed.

Lemma setInput_keeps (v : jsstring) : HKeeps (setInput v).
Proof. intros st. apply keeps_refl. Qed.

Lemma setPendingPlacement_keeps (v : option PendingPlacement) :
  HKeeps (setPendingPlacement v).
Proof. intros st. apply keeps_refl. Qed.

Lemma clearPendingPlacement_keeps : HKeeps clearPendingPlacement.
Proof. intros st. apply keeps_refl. Qed.

Lemma setPendingUpload_keeps (v : option PendingUpload) : HKeeps (setPendingUpload v).
Proof. intros st. apply keeps_refl. Qed.

Lemma fetchChat_keeps (backend : Payload -> BackendAnswer) (p : Payload) :
  HKeeps (fetchChat backend p).
Proof. intros st. apply keeps_refl. Qed.

Lemma excelRun_keeps {A} (m : Excel A) : EKeeps m -> HKeeps (excelRun m).
Proof.
  intros Hm st. unfold excelRun. specialize (Hm (workbook st)).
  now destruct (m (workbook st)).
Qed.

Create HintDb keeps.
#[local] Hint Resolve hret_keeps pushMessage_keeps say_keeps setInput_keeps
  setPendingPlacement_keeps clearPendingPlacement_keeps setPendingUpload_keeps
  fetchChat_keeps
  excelRun_keeps same_keeps insertChartImageOnSheet_keeps writeResult_keeps
  findPlacementCell_same getExcelData_same latestResultsSheet_same
  readCell_same getActiveWorksheet_same createSheetFromUpload_keeps
  add_keeps names_same usedRange_same ret_same bind_same bind_keeps : keeps.

(** Decomposition of a handler into its steps. *)
Ltac keeps_steps :=
  repeat first
    [ progress cbv beta iota zeta
    | apply hseq_keeps; [| intros ?]
    | apply tryCatch_keeps; [| intros ?]
    | progress auto with keeps ].

Lemma placeInExcelBody_keeps (pp : PendingPlacement) : HKeeps (placeInExcelBody pp).
Proof.
  unfold placeInExcelBody.
  destruct (nonEmpty (chart pp)); [keeps_steps |].
  destruct (nonEmpty (suggestedColumn pp)); [| keeps_steps].
  apply hseq_keeps; [auto with keeps |]. intros placement.
  destruct (negb (found placement)); [auto with keeps |].
  destruct (occupied placement); keeps_steps.
Qed.

Lemma handlePlaceInExcel_keeps (st : AppState) :
  keeps (workbook st) (workbook (handlePlaceInExcelForChartOrBelow st)).
Proof.
  unfold handlePlaceInExcelForChartOrBelow.
  destruct (pendingPlacement st) as [pp |]; [| apply keeps_refl].
  apply (hseq_keeps (A := unit) (B := unit)); [| intros _; apply setPendingPlacement_keeps].
  apply tryCatch_keeps; [apply placeInExcelBody_keeps | intros e; apply say_keeps].
Qed.

Lemma handlePlaceInSpecificCell_keeps (st : AppState) :
  keeps (workbook st) (workbook (handlePlaceInSpecificCell st)).
Proof.
  unfold handlePlaceInSpecificCell.
  destruct (pendingPlacement st) as [pp |]; [| apply say_keeps].
  apply (hseq_keeps (A := unit) (B := unit)); [| intros _; apply say_keeps].
  apply setPendingPlacement_keeps.
Qed.

Lemma handleDontPlace_keeps (st : AppState) :
  keeps (workbook st) (workbook (handleDontPlace st)).
Proof.
  unfold handleDontPlace.
  apply (hseq_keeps (A := unit) (B := unit)); [| intros _; apply setPendingPlacement_keeps].
  destruct (pendingPlacement st); [apply say_keeps | apply hret_keeps].
Qed.

Lemma placeOnNewResultsSheet_keeps (pp : PendingPlacement) :
  HKeeps (placeOnResultsSheetBody pp true).
Proof.
  unfold placeOnResultsSheetBody.
  apply hseq_keeps; [auto with keeps |]. intros latest. cbv iota.
  destruct (nonEmpty (chart pp)) as [c |].
  - apply hseq_keeps.
    + apply hseq_keeps; [| intros newName; apply hret_keeps].
      apply excelRun_keeps, bind_keeps; [auto with keeps |]. intros names.
      cbv zeta. apply bind_keeps; [apply add_keeps | intros _; auto with keeps].
    + intros [target |]; keeps_steps.
  - apply (hbind_keeps (fun target => target = None)).
    + keeps_steps.
    + intros st st' target. unfold bind, excelRun, say, pushMessage,
        clearPendingPlacement, setPendingPlacement, ret.
      destruct (writeResult _ _ _ _ _) as [wb' [[] | e]]; simpl; congruence.
    + intros target ->. apply hret_keeps.
Qed.

Lemma handlePlaceOnNewResultsSheet_keeps (st : AppState) :
  keeps (workbook st) (workbook (handlePlaceOnResultsSheet true st)).
Proof.
  unfold handlePlaceOnResultsSheet.
  destruct (pendingPlacement st) as [pp |]; [| apply keeps_refl].
  apply tryCatch_keeps; [apply placeOnNewResultsSheet_keeps | intros e; apply say_keeps].
Qed.

Lemma placeInCell_keeps (pp : PendingPlacement) (a : jsstring) :
  HKeeps (placeInCell pp a).
Proof.
  unfold placeInCell. apply hseq_keeps; [auto with keeps |]. intros value.
  destruct (filled value); [keeps_steps |].
  destruct (nonEmpty (chart pp)); keeps_steps.
Qed.

Lemma sendAwaitingCell_keeps (pp : PendingPlacement) (st : AppState) :
  keeps (workbook st) (workbook (sendAwaitingCell pp st)).
Proof.
  unfold sendAwaitingCell. cbv zeta. destruct (negb _).
  - apply (hseq_keeps (A := unit) (B := unit)); [apply say_keeps |].
    intros _. apply setInput_keeps.
  - apply (hseq_keeps (A := unit) (B := unit)); [| intros _; apply setInput_keeps].
    apply tryCatch_keeps; [| intros e; apply say_keeps].
    apply hseq_keeps; [apply placeInCell_keeps | intros _; apply setPendingPlacement_keeps].
Qed.

Lemma sendCommand_keeps (backend : Payload -> BackendAnswer) (st : AppState) :
  keeps (workbook st) (workbook (sendCommand backend st)).
Proof.
  unfold sendCommand. destruct (trim (input st)) as [|x userText]; [apply keeps_refl |].
  apply (hseq_keeps (A := unit) (B := unit)); [apply pushMessage_keeps |]. intros _.
  apply hseq_keeps; [apply setInput_keeps |]. intros _.
  apply tryCatch_keeps; [| intros e; apply say_keeps].
  apply hseq_keeps; [auto with keeps |]. intros excelData.
  apply hseq_keeps; [apply fetchChat_keeps |].
  intros [m | | [|] n c]; keeps_steps.
Qed.

(** The workbook after a confirmed overwrite of a pending note. *)
Lemma sendAwaitingOverwrite_workbook
    (pp : PendingPlacement) (ao : AwaitingOverwrite) (st : AppState) :
  confirmsOverwrite (input st) (addr ao) = true ->
  nonEmpty (chart pp) = None ->
  workbook (sendAwaitingOverwrite pp ao st)
  = (writeResult (note pp) false (Some (addr ao)) true (workbook st)).1.
Proof.
  intros Hc Hchart. unfold sendAwaitingOverwrite. rewrite Hc, Hchart. hexec.
  now destruct (writeResult _ _ _ _ _) as [wb' [[] | e]].
Qed.

Lemma sendAwaitingOverwrite_keeps
    (pp : PendingPlacement) (ao : AwaitingOverwrite) (st : AppState) :
  confirmsOverwrite (input st) (addr ao) = false \/ nonEmpty (chart pp) <> None ->
  keeps (workbook st) (workbook (sendAwaitingOverwrite pp ao st)).
Proof.
  intros Hcase. unfold sendAwaitingOverwrite.
  destruct (confirmsOverwrite (input st) (addr ao)).
  - destruct (nonEmpty (chart pp)) as [c |]; [| destruct Hcase; congruence].
    apply (hseq_keeps (A := unit) (B := unit)); [| intros _; apply setInput_keeps].
    apply tryCatch_keeps; [| intros e; apply say_keeps]. keeps_steps.
  - apply (hseq_keeps (A := unit) (B := unit)); [apply say_keeps |].
    intros _. apply setInput_keeps.
Qed.

Lemma uploadCreateSheet_keeps (now : N) (st : AppState) :
  keeps (workbook st) (workbook (uploadCreateSheet now st)).
Proof.
  unfold uploadCreateSheet. destruct (pendingUpload st) as [up |]; [| apply keeps_refl].
  cbv zeta. apply (hseq_keeps (A := UploadResult) (B := unit)); [auto with keeps |].
  intros _. keeps_steps.
Qed.

Lemma uploadCancel_keeps (st : AppState) :
  keeps (workbook st) (workbook (uploadCancel st)).
Proof.
  unfold uploadCancel. destruct (pendingUpload st) as [up |]; [| apply keeps_refl].
  apply (hseq_keeps (A := unit) (B := unit)); [apply say_keeps |].
  intros _. apply setPendingUpload_keeps.
Qed.

Lemma hbind_keeps_at {A B} (m : Handler A) (k : A -> Handler B) (st : AppState) :
  keeps (workbook st) (workbook (m st).1) ->
  (forall st' a, m st = (st', Ok a) -> keeps (workbook st') (workbook (k a st').1)) ->
  keeps (workbook st) (workbook (bind m k st).1).
Proof.
  intros Hm Hk. unfold bind. destruct (m st) as [st' [a | e]]; simpl in *; [| assumption].
  eapply keeps_trans; [eassumption | now apply Hk].
Qed.

Lemma tryCatch_keeps_at {A} (body : Handler A) (handler : Error -> Handler A)
    (st : AppState) :
  keeps (workbook st) (workbook (body st).1) ->
  (forall e, HKeeps (handler e)) ->
  keeps (workbook st) (workbook (tryCatch body handler st).1).
Proof.
  intros Hb Hh. unfold tryCatch. destruct (body st) as [st' [a | e]]; simpl in *;
    [assumption |].
  eapply keeps_trans; [eassumption | apply Hh].
Qed.

Lemma activeSheetIsEmpty_true (wb wb' : Workbook) (b : bool) :
  (forall ws, worksheets wb !! activeSheet wb = Some ws -> usedBounds ws = None) ->
  activeSheetIsEmpty wb = (wb', Ok b) -> wb' = wb /\ b = true.
Proof.
  intros Hempty. unfold activeSheetIsEmpty. exec.
  destruct (worksheets wb !! activeSheet wb) as [ws |]; [| discriminate].
  exec. unfold getUsedRangeOrNullObject. rewrite (Hempty ws eq_refl).
  now intros [= <- <-].
Qed.

Lemma uploadAppendBelow_empty_keeps (st : AppState) :
  (forall ws, worksheets (workbook st) !! activeSheet (workbook st) = Some ws ->
              usedBounds ws = None) ->
  keeps (workbook st) (workbook (uploadAppendBelow st)).
Proof.
  intros Hempty. unfold uploadAppendBelow.
  destruct (pendingUpload st) as [up |]; [| apply keeps_refl].
  apply (hbind_keeps_at (A := unit) (B := unit));
    [| intros st' _ _; apply setPendingUpload_keeps].
  apply tryCatch_keeps_at; [| intros e; apply say_keeps].
  apply hbind_keeps_at.
  - apply excelRun_keeps, same_keeps. unfold activeSheetIsEmpty. auto with keeps.
  - intros st' isEmpty Heq.
    assert (Hst : workbook st' = workbook st /\ isEmpty = true).
    { unfold excelRun in Heq.
      destruct (activeSheetIsEmpty (workbook st)) as [wb' r] eqn:E.
      injection Heq as <- ->. apply (activeSheetIsEmpty_true _ _ _ Hempty E). }
    destruct Hst as [Hwb ->]. rewrite <- Hwb in Hempty.
    apply hbind_keeps_at; [| intros st'' res _; apply say_keeps].
    unfold excelRun.
    pose proof (writeUploadToEmptySheet_keeps (headers up) (rows up) (workbook st')
                  Hempty) as Hk.
    now destruct (writeUploadToEmptySheet _ _ _).
Qed.

Lemma chooseFile_keeps (backend : Payload -> BackendAnswer)
    (file : option jsstring) (up : UploadAnswer) (full : RowsAnswer) (st : AppState) :
  keeps (workbook st) (workbook (step backend (ChooseFile file up full) st)).
Proof.
  replace (workbook (step backend (ChooseFile file up full) st)) with (workbook st);
    [apply keeps_refl |].
  destruct file as [name |]; [| reflexivity]. cbn [step].
  destruct up as [shown | | detail | file_id original_name parsed];
    try reflexivity.
  destruct full as [shown | status rows_no_header]; reflexivity.
Qed.

(** The events that write under a guard, in any state: placing below the
    data or at A1, placing in a specific cell, creating a new results sheet,
    creating a sheet from an upload, writing an upload to an empty sheet and
    choosing a file keep the value of every cell that held one, unless the
    event is the confirmation of the overwrite awaited for that very cell.
    (The append to an existing results sheet, the append below existing data
    and the horizontal merge are left out.) *)
Lemma guarded_actions_keep_data
    (backend : Payload -> BackendAnswer) (a : Action) (st : AppState)
    (h : nat) (ws : Worksheet) (r c : nat) :
  guarded a st ->
  worksheets (workbook st) !! h = Some ws ->
  filled (cellAt ws r c) = true ->
  (exists ws', worksheets (workbook (step backend a st)) !! h = Some ws'
               /\ cellAt ws' r c = cellAt ws r c)
  \/ confirmedOverwrite a st h r c.
Proof.
  intros Hg Hws Hf.
  assert (Hkeep : keeps (workbook st) (workbook (step backend a st)) ->
                  exists ws', worksheets (workbook (step backend a st)) !! h = Some ws'
                              /\ cellAt ws' r c = cellAt ws r c)
    by (intros Hk; exact (Hk h ws r c Hws Hf)).
  destruct a as [| | createNew | | | now | | | | file up full]; simpl in Hg |- *.
  - left. apply Hkeep, handlePlaceInExcel_keeps.
  - left. apply Hkeep, handlePlaceInSpecificCell_keeps.
  - subst createNew. left. apply Hkeep, handlePlaceOnNewResultsSheet_keeps.
  - left. apply Hkeep, handleDontPlace_keeps.
  - simpl in Hkeep. unfold handleSend in *.
    destruct (pendingPlacement st) as [pp |] eqn:Hp;
      [| left; apply Hkeep, sendCommand_keeps].
    destruct (awaitingOverwrite pp) as [ao |] eqn:Ho.
    + destruct (confirmsOverwrite (input st) (addr ao)) eqn:Hc;
        [| left; apply Hkeep, sendAwaitingOverwrite_keeps; now left].
      destruct (nonEmpty (chart pp)) as [ch |] eqn:Hch;
        [left; apply Hkeep, sendAwaitingOverwrite_keeps; right; congruence |].
      destruct (Nat.eq_dec h (activeSheet (workbook st))) as [Hh | Hh];
        [destruct (decide (parseA1 (targetAddress (Some (addr ao))) = Some (r, c)))
           as [Ha | Ha] |].
      * right. split; [reflexivity |]. exists pp, ao. auto.
      * left. rewrite (sendAwaitingOverwrite_workbook pp ao st Hc Hch).
        apply writeResult_overwrite_elsewhere; auto.
      * left. rewrite (sendAwaitingOverwrite_workbook pp ao st Hc Hch).
        apply writeResult_overwrite_elsewhere; auto.
    + destruct (awaitingCell pp); [left; apply Hkeep, sendAwaitingCell_keeps |].
      left. apply Hkeep, say_keeps.
  - left. apply Hkeep, uploadCreateSheet_keeps.
  - left. apply Hkeep, uploadAppendBelow_empty_keeps, Hg.
  - destruct Hg.
  - left. apply Hkeep, uploadCancel_keeps.
  - left. apply Hkeep, chooseFile_keeps.
Qed.

Lemma guarded_actions_keep_data_instance :
  (exists ws', worksheets (workbook (step noBackend PlaceInExcel
                                       (stateOf occupiedA1 "" (Some (pendingNote "Total: 7")))))
                 !! 0%nat = Some ws'
               /\ cellAt ws' 0 0 = VStr (js "kept"))
  \/ confirmedOverwrite PlaceInExcel
       (stateOf occupiedA1 "" (Some (pendingNote "Total: 7"))) 0 0 0.
Proof.
  exact (guarded_actions_keep_data noBackend PlaceInExcel
           (stateOf occupiedA1 "" (Some (pendingNote "Total: 7"))) 0
           (sheetWith "Sheet1" [((0, 0)%nat, VStr (js "kept"))]) 0 0
           I eq_refl eq_refl).
Defined.

(** C2: the horizontal merge destroys data.  With headers in A1 and B1
    and a remark in C2, the merge of an upload with one column starts at the
    column after the last header of row 1, column C, and writes its rows
    from there: the remark in C2 is replaced, and no confirmation was asked
    or given.  The comments of the function promise the opposite
    ("preserving existing headers and data", "next empty column"). *)
Theorem horizontal_merge_overwrites :
  let st := uploadPending remarkBesideTable in
  exists ws ws',
    worksheets (workbook st) !! 0%nat = Some ws
    /\ cellAt ws 1 2 = VStr (js "remark")
    /\ worksheets (workbook (step noBackend UploadMergeHorizontally st)) !! 0%nat
       = Some ws'
    /\ cellAt ws' 1 2 = VNum {| unscaled := 5; scale := 0 |}
    /\ ~ confirmedOverwrite UploadMergeHorizontally st 0 1 2.
Proof.
  eexists. eexists. split; [reflexivity |]. split; [vm_compute; reflexivity |].
  split; [vm_compute; reflexivity |]. split; [vm_compute; reflexivity |].
  intros [Hsend _]. discriminate Hsend.
Qed.

(** ** The writers without a guard, and the prompt that is not awaited *)

(** The append to a results sheet counts the used rows: over a sheet
    whose only value is in A2 it writes to A2. *)
Lemma results_append_overwrites :
  let wb := {| worksheets :=
                 [sheetWith "Sheet1" [];
                  sheetWith "AI_Results_1" [((1, 0)%nat, VStr (js "remark"))]];
               activeSheet := 0 |} in
  let st' := handlePlaceOnResultsSheet false
               (stateOf wb "" (Some (pendingNote "Total: 7"))) in
  exists ws', worksheets (workbook st') !! 1%nat = Some ws'
              /\ cellAt ws' 1 0 = VStr (js "Total: 7").
Proof. eexists. split; vm_compute; reflexivity. Qed.

(** The append below the data starts at the number of used rows: over a
    sheet whose only value is in A2 it writes to A2. *)
Lemma vertical_append_overwrites :
  let wb := {| worksheets := [sheetWith "Sheet1" [((1, 0)%nat, VStr (js "remark"))]];
               activeSheet := 0 |} in
  exists ws', worksheets (workbook (uploadAppendBelow (uploadPending wb))) !! 0%nat
              = Some ws'
              /\ cellAt ws' 1 0 = VNum {| unscaled := 5; scale := 0 |}.
Proof. eexists. split; vm_compute; reflexivity. Qed.

(** The Place action always ends with no pending result, also when it has
    just asked for an overwrite confirmation: its [finally] block clears
    what the branch had set. *)
Lemma place_clears_pending (st : AppState) :
  pendingPlacement st <> None ->
  pendingPlacement (handlePlaceInExcelForChartOrBelow st) = None.
Proof.
  intros Hp. unfold handlePlaceInExcelForChartOrBelow.
  destruct (pendingPlacement st) as [pp |]; [| congruence].
  unfold finish, bind, tryCatch.
  destruct (placeInExcelBody pp st) as [st' [[] | e]]; reflexivity.
Qed.

Lemma place_clears_pending_instance :
  let st := {| messages := []; input := [];
               pendingPlacement :=
                 Some {| note := js "Total: 7"; chart := None;
                         suggestedColumn := Some (js "item");
                         awaitingCell := false; awaitingOverwrite := None |};
               pendingUpload := None;
               workbook :=
                 {| worksheets :=
                      [sheetWith "Sheet1" [((1, 0)%nat, VStr (js "Item"));
                                           ((2, 0)%nat, VStr (js "taken"))]];
                    activeSheet := 0 |};
               requests := [] |} in
  handlePlaceInExcelForChartOrBelow st
  = {| messages := [aiSays (Text.suggestedOccupied (js "A3"))]; input := [];
       pendingPlacement := None; pendingUpload := None;
       workbook := workbook st; requests := [] |}.
Proof. vm_compute. reflexivity. Qed.

(** ** Commands without a pending result *)

(** With nothing pending the same input does reach the backend: one
    request is logged, carrying the trimmed text and the used values. *)
Lemma command_reaches_backend
    (backend : Payload -> BackendAnswer) (st : AppState) (ws : Worksheet) :
  pendingPlacement st = None ->
  trim (input st) <> [] ->
  worksheets (workbook st) !! activeSheet (workbook st) = Some ws ->
  requests (handleSend backend st)
  = requests st ++
      [{| user_message := trim (input st);
          excel_data := valuesOrEmpty (getUsedRangeOrNullObject ws);
          chat_history := messages st |}].
Proof.
  intros Hp Hin Hws. unfold handleSend, sendCommand. rewrite Hp.
  destruct (trim (input st)) as [|x userText]; [congruence |].
  hexec. unfold getExcelData, fetchChat. exec. rewrite Hws. exec.
  cbn [workbook requests messages].
  destruct (backend _) as [m | | [|] n c]; reflexivity.
Qed.

(** * Further properties of the helpers and of the handlers *)

(** ** Column names *)

Lemma columnNumber_snoc (ls : jsstring) (c : N) :
  columnNumber (ls ++ [c]) = columnNumber ls * 26 + (Chars.toUpper c - 64).
Proof. unfold columnNumber. now rewrite fold_left_app. Qed.

Lemma indexToColumnNameLoop_spec (fuel : nat) :
  forall (index : N) (colName : jsstring),
    (N.to_nat index <= fuel)%nat ->
    exists ls, indexToColumnNameLoop fuel index colName = ls ++ colName
               /\ forallb Chars.isUpper ls = true
               /\ columnNumber ls = index
               /\ (0 < index -> ls <> []).
Proof.
  induction fuel as [|fuel IH]; intros index colName Hfuel.
  - exists []. assert (index = 0) as -> by lia. simpl. repeat split; lia.
  - cbn [indexToColumnNameLoop]. destruct (N.ltb_spec 0 index) as [Hpos | Hz].
    + pose proof (N.mod_lt (index - 1) 26 ltac:(lia)) as Hrem.
      pose proof (N.div_mod (index - 1) 26 ltac:(lia)) as Hdiv.
      assert (Hnext : (index - 1) / 26 < index).
      { apply N.le_lt_trans with (index - 1); [| lia].
        apply N.Div0.div_le_upper_bound. lia. }
      destruct (IH ((index - 1) / 26)
                  (fromCharCode (65 + (index - 1) mod 26) ++ colName)
                  ltac:(lia)) as (ls & -> & Hup & Hnum & _).
      exists (ls ++ fromCharCode (65 + (index - 1) mod 26)).
      unfold fromCharCode. rewrite N.mod_small by lia.
      split; [now rewrite <- app_assoc |]. split; [| split].
      * rewrite forallb_app, Hup. cbn [forallb andb]. unfold Chars.isUpper.
        generalize dependent ((index - 1) mod 26). intros rem Hrem _. cases_cmp.
      * rewrite columnNumber_snoc, Hnum. unfold Chars.toUpper, Chars.isLower.
        generalize dependent ((index - 1) mod 26). intros rem Hrem Hdiv. cases_cmp.
      * intros _. now destruct ls.
    + exists []. assert (index = 0) as -> by lia. simpl. repeat split; lia.
Qed.

Lemma indexToColumnName_spec (index : N) :
  forallb Chars.isUpper (indexToColumnName index) = true
  /\ columnNumber (indexToColumnName index) = index
  /\ (0 < index -> indexToColumnName index <> []).
Proof.
  unfold indexToColumnName.
  destruct (indexToColumnNameLoop_spec (N.to_nat index) index [] (Nat.le_refl _))
    as (ls & -> & H). now rewrite app_nil_r.
Qed.

Lemma upper_is_letter (c : N) : Chars.isUpper c = true -> Chars.isLetter c = true.
Proof. unfold Chars.isLetter. now intros ->. Qed.

Lemma forallb_impl {A} (p q : A -> bool) (l : list A) :
  (forall x, p x = true -> q x = true) -> forallb p l = true -> forallb q l = true.
Proof.
  intros Hpq. rewrite !forallb_forall. auto.
Qed.

(** The address made of letters and of a row of the grid. *)
Lemma parseA1_letters_row (ls : jsstring) (row : N) :
  ls <> [] -> forallb Chars.isLetter ls = true ->
  columnNumber ls <= maxColumns -> 1 <= row <= maxRows ->
  parseA1 (ls ++ NToString row)
  = Some (N.to_nat (row - 1), N.to_nat (columnNumber ls - 1)).
Proof.
  intros Hne Hls Hcol Hrow. unfold parseA1.
  pose proof (NToString_digits row) as Hds.
  pose proof (NToString_nonempty row) as Hdne.
  pose proof (digitsValue_NToString row) as Hv.
  rewrite (takeWhile_app Chars.isLetter ls (NToString row)); [| assumption |].
  - rewrite drop_app_length.
    destruct ls as [|l ls]; [congruence |].
    remember (NToString row) as ds eqn:E in *.
    destruct ds as [|d ds]; [congruence |].
    rewrite Hds, Hv.
    destruct (N.leb_spec 1 row); [| lia].
    destruct (N.leb_spec row maxRows); [| lia].
    destruct (N.leb_spec (columnNumber (l :: ls)) maxColumns); [| lia].
    reflexivity.
  - intros x r' E. rewrite E in Hds. simpl in Hds.
    apply andb_prop in Hds as [Hx _]. now apply digit_not_letter.
Qed.

(** X1: [indexToColumnName] is the inverse of the reading of column
    letters.  For a one-based index inside the grid the name is made of
    upper-case letters, its column number is the index, and the name
    followed by a row number is the address of the cell in that column and
    row. *)
Theorem indexToColumnName_round_trip (index row : N) :
  1 <= index <= maxColumns ->
  1 <= row <= maxRows ->
  forallb Chars.isUpper (indexToColumnName index) = true
  /\ columnNumber (indexToColumnName index) = index
  /\ parseA1 (indexToColumnName index ++ NToString row)
     = Some (N.to_nat (row - 1), N.to_nat (index - 1)).
Proof.
  intros Hi Hr. destruct (indexToColumnName_spec index) as (Hup & Hnum & Hne).
  split; [assumption |]. split; [assumption |].
  rewrite parseA1_letters_row; try assumption.
  - now rewrite Hnum.
  - apply Hne. lia.
  - revert Hup. apply forallb_impl, upper_is_letter.
  - now rewrite Hnum.
Qed.

Lemma indexToColumnName_round_trip_witness :
  indexToColumnName 28 = js "AB"
  /\ parseA1 (js "AB7") = Some (6%nat, 27%nat).
Proof.
  destruct (indexToColumnName_round_trip 28 7) as (_ & _ & H).
  - vm_compute. split; discriminate.
  - vm_compute. split; discriminate.
  - split; [reflexivity | exact H].
Defined.

(** ** What a match is made of *)

(** A match of [c*] followed by [k] is a run of [c] and a match of [k]. *)
Lemma star_some (c : N -> bool) (k : jsstring -> option nat) (s : jsstring) (n : nat) :
  Regex.star c k s = Some n ->
  exists i m, forallb c (take i s) = true /\ (i <= length s)%nat
              /\ k (drop i s) = Some m /\ n = (i + m)%nat.
Proof.
  revert n. induction s as [|x s IH]; intros n; simpl.
  - intros H. exists 0%nat, n. auto.
  - destruct (c x) eqn:Hx.
    + destruct (Regex.star c k s) as [n' |] eqn:Hs.
      * intros [= <-]. destruct (IH n' eq_refl) as (i & m & Hall & Hi & Hk & ->).
        exists (S i), m. simpl. rewrite Hx. repeat split; auto. lia.
      * intros H. exists 0%nat, n. repeat split; auto. lia.
    + intros H. exists 0%nat, n. repeat split; auto. lia.
Qed.

Lemma star_greedy (c : N -> bool) (k : jsstring -> option nat) (s : jsstring) :
  (forall t, k t = Some 0%nat) ->
  Regex.star c k s = Some (length (takeWhile c s)).
Proof.
  intros Hk. induction s as [|x s IH]; simpl; [apply Hk |].
  destruct (c x); [now rewrite IH | apply Hk].
Qed.

Lemma star_length (c : N -> bool) (k : jsstring -> option nat) (s : jsstring) (n : nat) :
  (forall t m, k t = Some m -> (m <= length t)%nat) ->
  Regex.star c k s = Some n -> (n <= length s)%nat.
Proof.
  intros Hk (i & m & _ & Hi & Hm & ->)%star_some.
  apply Hk in Hm. rewrite length_drop in Hm. lia.
Qed.

Lemma matchHere_length (re : list Regex.item) :
  forall s n, Regex.matchHere re s = Some n -> (n <= length s)%nat.
Proof.
  induction re as [|[c | c | c | c |] re IH]; intros s n; cbn [Regex.matchHere].
  - intros [= <-]. lia.
  - destruct s as [|x s]; [discriminate |]. destruct (c x); [| discriminate].
    destruct (Regex.matchHere re s) as [m |] eqn:E; [| discriminate].
    intros [= <-]. apply IH in E. simpl. lia.
  - destruct s as [|x s]; [apply IH |]. destruct (c x); [| apply IH].
    destruct (Regex.matchHere re s) as [m |] eqn:E; [| apply IH].
    intros [= <-]. apply IH in E. simpl. lia.
  - now apply star_length.
  - destruct s as [|x s]; [discriminate |]. destruct (c x); [| discriminate].
    destruct (Regex.star c (Regex.matchHere re) s) as [m |] eqn:E; [| discriminate].
    intros [= <-]. apply star_length in E; [simpl; lia | assumption].
  - destruct s; [apply IH | discriminate].
Qed.

(** [s.match(re)] splits the text around a match of [re]. *)
Lemma search_sound (re : list Regex.item) (s pre m post : jsstring) :
  Regex.search re s = Some (pre, m, post) ->
  s = pre ++ m ++ post /\ Regex.matchHere re (m ++ post) = Some (length m).
Proof.
  revert pre. induction s as [|x s IH]; intros pre; cbn [Regex.search].
  - destruct (Regex.matchHere re []) as [n |] eqn:E; [| discriminate].
    intros [= <- <- <-]. pose proof (matchHere_length _ _ _ E) as Hn.
    simpl in Hn. assert (n = 0%nat) as -> by lia. auto.
  - destruct (Regex.matchHere re (x :: s)) as [n |] eqn:E.
    + intros [= <- <- <-]. pose proof (matchHere_length _ _ _ E) as Hn.
      rewrite take_drop. split; [reflexivity |].
      rewrite E, length_take. f_equal. lia.
    + destruct (Regex.search re s) as [[[pre' m'] post'] |] eqn:Es; [| discriminate].
      intros [= <- <- <-]. destruct (IH pre' eq_refl) as [-> Hm]. auto.
Qed.

(** A match at some place of the text makes the search succeed. *)
Lemma search_complete (re : list Regex.item) (pre s : jsstring) (n : nat) :
  Regex.matchHere re s = Some n -> is_Some (Regex.search re (pre ++ s)).
Proof.
  intros Hm. induction pre as [|x pre IH].
  - destruct s; cbn [app Regex.search]; rewrite Hm; eauto.
  - cbn [app Regex.search]. destruct (Regex.matchHere re (x :: pre ++ s)); [eauto |].
    destruct IH as [[[p m] q] ->]. eauto.
Qed.

Lemma search_none (re : list Regex.item) (s : jsstring) :
  Regex.search re s = None -> forall i, Regex.matchHere re (drop i s) = None.
Proof.
  intros H i. destruct (Regex.matchHere re (drop i s)) as [n |] eqn:E; [| reflexivity].
  destruct (search_complete re (take i s) _ _ E) as [x Hx].
  rewrite take_drop in Hx. congruence.
Qed.

(** ** The grammar of addresses *)

Lemma takeWhile_stops {A} (p : A -> bool) (l : list A) (x : A) (r : list A) :
  drop (length (takeWhile p l)) l = x :: r -> p x = false.
Proof.
  induction l as [|y l IH]; simpl; [discriminate |].
  destruct (p y) eqn:E; simpl; [assumption |]. now intros [= <- _].
Qed.

Lemma take_all_prefix {A} (p : A -> bool) (l : list A) (i : nat) :
  forallb p (take i l) = true -> (i <= length l)%nat ->
  (i <= length (takeWhile p l))%nat.
Proof.
  revert i. induction l as [|y l IH]; intros [|i]; simpl; try lia.
  intros [Hy Hl]%andb_prop Hi. rewrite Hy. simpl. apply le_n_S, IH; [assumption | lia].
Qed.

Lemma drop_in_run {A} (p : A -> bool) (l : list A) (i : nat) :
  (i < length (takeWhile p l))%nat ->
  exists x r, drop i l = x :: r /\ p x = true.
Proof.
  revert i. induction l as [|y l IH]; intros i; simpl; [lia |].
  destruct (p y) eqn:E; simpl; [| lia].
  destruct i as [|i]; [eauto |]. intros Hi. apply IH. lia.
Qed.

Lemma digits_eos_only (t : jsstring) (n : nat) :
  Regex.matchHere [Regex.Plus Chars.isDigit; Regex.Eos] t = Some n ->
  t <> [] /\ forallb Chars.isDigit t = true.
Proof.
  cbn [Regex.matchHere]. destruct t as [|d t]; [discriminate |].
  destruct (Chars.isDigit d) eqn:Hd; [| discriminate].
  destruct (Regex.star _ _ t) as [m |] eqn:E; [| discriminate]. intros _.
  apply star_some in E as (i & m' & Hall & Hi & Hk & _).
  split; [discriminate |]. simpl. rewrite Hd. simpl.
  destruct (drop i t) as [|y r] eqn:Ed; [| discriminate].
  apply drop_nil_inv in Ed.
  now rewrite take_ge in Hall by lia.
Qed.

Section AddressGrammar.
Variable L : N -> bool.
Hypothesis L_not_digit : forall c, Chars.isDigit c = true -> L c = false.

Lemma letters_digits_only (a : jsstring) :
  Regex.test [Regex.Plus L; Regex.Plus Chars.isDigit; Regex.Eos] a
  = lettersThenDigits L a.
Proof.
  destruct (lettersThenDigits L a) eqn:Hshape.
  - unfold lettersThenDigits in Hshape. cbv zeta in Hshape.
    apply andb_prop in Hshape as [[Hl Hd]%andb_prop Hds].
    apply negb_true_iff, bool_decide_eq_false in Hl, Hd.
    rewrite (takeWhile_split L a) at 1.
    apply letters_digits_match; auto using takeWhile_all.
  - unfold Regex.test. apply bool_decide_eq_false. intros [n Hn].
    cbn [Regex.matchHere] in Hn. destruct a as [|x a]; [discriminate |].
    destruct (L x) eqn:Hx; [| discriminate].
    destruct (Regex.star _ _ a) as [m |] eqn:E; [| discriminate].
    apply star_some in E as (i & m' & Hall & Hi & Hk & _).
    apply digits_eos_only in Hk as [Hne Hds].
    pose proof (take_all_prefix L a i Hall Hi) as Hle.
    assert (Hi' : i = length (takeWhile L a)).
    { destruct (Nat.eq_dec i (length (takeWhile L a))) as [| Hneq]; [assumption |].
      destruct (drop_in_run L a i ltac:(lia)) as (y & r & Ed & Hy).
      rewrite Ed in Hds. simpl in Hds. apply andb_prop in Hds as [Hdy _].
      rewrite (L_not_digit _ Hdy) in Hy. discriminate. }
    subst i. unfold lettersThenDigits in Hshape. simpl in Hshape.
    rewrite Hx in Hshape. simpl in Hshape. rewrite Hds in Hshape.
    rewrite bool_decide_eq_false_2 in Hshape by assumption. discriminate.
Qed.
End AddressGrammar.

(** X2: the address checks accept exactly the texts made of one or more
    letters followed by one or more digits and nothing else: upper-case
    letters for the check of [handleSend], letters of either case for the
    check of [writeResult]. *)
Theorem address_check_accepts (a : jsstring) :
  Regex.test addressPattern a = lettersThenDigits Chars.isUpper a
  /\ Regex.test addressPatternCI a = lettersThenDigits Chars.isLetter a.
Proof.
  split; apply letters_digits_only; auto using digit_not_upper, digit_not_letter.
Qed.

(** ** The value written is a number or the note *)

(** Case analysis on a code unit that a [match] tells from constants. *)
Ltac cases_code :=
  repeat match goal with
         | |- context [match ?p with xI _ => _ | xO _ => _ | xH => _ end] =>
             is_var p; destruct p
         | |- context [match ?n with N0 => _ | Npos _ => _ end] =>
             is_var n; destruct n
         end.

Lemma digit_not_space (c : N) : Chars.isDigit c = true -> Chars.isSpace c = false.
Proof. unfold Chars.isDigit, Chars.isSpace. cases_cmp. Qed.

(** A text that starts with a digit is read as a number. *)
Lemma parseFloat_digit (d : N) (r : jsstring) :
  Chars.isDigit d = true -> is_Some (parseFloat (d :: r)).
Proof.
  intros Hd. pose proof (digit_not_space d Hd) as Hsp.
  assert (H45 : d <> 45) by (intros ->; discriminate).
  assert (H43 : d <> 43) by (intros ->; discriminate).
  unfold parseFloat, trimStart. cbn [dropWhile]. rewrite Hsp.
  cbv beta iota zeta.
  cases_code; try congruence; cbn [takeWhile]; rewrite Hd; cbn [app]; eauto.
Qed.

Lemma parseFloat_fraction (d : N) (r : jsstring) :
  Chars.isDigit d = true -> is_Some (parseFloat (46 :: d :: r)).
Proof.
  intros Hd. unfold parseFloat, trimStart. cbn [dropWhile Chars.isSpace].
  change (Chars.isSpace 46) with false. cbv beta iota zeta.
  change (takeWhile Chars.isDigit (46 :: d :: r)) with (@nil N).
  cbn [length drop app takeWhile]. rewrite Hd. eauto.
Qed.

Lemma fraction_head (t : jsstring) (m : nat) :
  Regex.matchHere [Regex.Opt (Chars.isChar 46); Regex.Plus Chars.isDigit] t = Some m ->
  numberHead t m.
Proof.
  destruct t as [|x r]; [discriminate |]. rewrite matchHere_opt_cons.
  assert (Hplus : forall y s k,
             Regex.matchHere [Regex.Plus Chars.isDigit] (y :: s) = Some k ->
             Chars.isDigit y = true /\ (1 <= k)%nat).
  { intros y s k. cbn [Regex.matchHere]. destruct (Chars.isDigit y); [| discriminate].
    destruct (Regex.star _ _ s); [| discriminate]. intros [= <-]. split; [reflexivity | lia]. }
  destruct (Chars.isChar 46 x) eqn:Hx.
  - apply N.eqb_eq in Hx. subst x.
    destruct (Regex.matchHere [Regex.Plus Chars.isDigit] r) as [k |] eqn:E.
    + intros [= <-]. destruct r as [|d r]; [discriminate |].
      apply Hplus in E as [Hd Hk]. right. exists d, r. repeat split; auto. lia.
    + intros [Hd _]%Hplus. discriminate.
  - intros [Hd Hk]%Hplus. left. exists x, r. auto.
Qed.

Lemma unsigned_head (t : jsstring) (n : nat) :
  Regex.matchHere [Regex.Star Chars.isDigit; Regex.Opt (Chars.isChar 46);
                   Regex.Plus Chars.isDigit] t = Some n ->
  numberHead t n.
Proof.
  rewrite matchHere_star. intros (i & m & Hall & Hi & Hk & ->)%star_some.
  apply fraction_head in Hk. destruct i as [|i]; [exact Hk |].
  destruct t as [|d r]; [simpl in Hi; lia |]. simpl in Hall.
  apply andb_prop in Hall as [Hd _]. left. exists d, r. repeat split; auto. lia.
Qed.

Lemma numberHead_parses (t : jsstring) (n : nat) :
  numberHead t n -> is_Some (parseFloat (take n t)).
Proof.
  intros [(d & r & -> & Hd & Hn) | (d & r & -> & Hd & Hn)].
  - destruct n as [|n]; [lia |]. cbn [take]. now apply parseFloat_digit.
  - destruct n as [|[|n]]; [lia | lia |]. cbn [take]. now apply parseFloat_fraction.
Qed.

Lemma parseFloat_signed (x d : N) (r : jsstring) :
  (Chars.isChar 45 x || Chars.isChar 43 x) = true -> Chars.isDigit d = true ->
  is_Some (parseFloat (x :: d :: r)) /\ is_Some (parseFloat (x :: 46 :: d :: r)).
Proof.
  intros Hx Hd.
  assert (Hcases : x = 45 \/ x = 43).
  { unfold Chars.isChar in Hx. apply orb_prop in Hx as [Hx | Hx];
      apply N.eqb_eq in Hx; auto. }
  destruct Hcases as [-> | ->]; split; unfold parseFloat, trimStart;
    cbn [dropWhile]; match goal with |- context [Chars.isSpace ?c] =>
                       change (Chars.isSpace c) with false end;
    cbv beta iota zeta; cbn [takeWhile]; try rewrite Hd;
    try change (Chars.isDigit 46) with false;
    cbn [length drop app takeWhile]; try rewrite Hd; cbn [app]; eauto.
Qed.

Lemma numberHead_signed (x : N) (t : jsstring) (n : nat) :
  (Chars.isChar 45 x || Chars.isChar 43 x) = true ->
  numberHead t n -> is_Some (parseFloat (x :: take n t)).
Proof.
  intros Hx [(d & r & -> & Hd & Hn) | (d & r & -> & Hd & Hn)].
  - destruct n as [|n]; [lia |]. cbn [take].
    now apply (parseFloat_signed x d (take n r)).
  - destruct n as [|[|n]]; [lia | lia |]. cbn [take].
    now apply (parseFloat_signed x d (take n r)).
Qed.

(** Every match of the numeric pattern is read as a number. *)
Lemma numeric_match_parses (u : jsstring) (n : nat) :
  Regex.matchHere numericPattern u = Some n -> is_Some (parseFloat (take n u)).
Proof.
  unfold numericPattern. destruct u as [|x u].
  - rewrite matchHere_opt_nil. intros H%unsigned_head. now apply numberHead_parses.
  - rewrite matchHere_opt_cons. destruct (_ || _) eqn:Hx.
    + destruct (Regex.matchHere _ u) as [k |] eqn:E.
      * intros [= <-]. cbn [take]. apply unsigned_head in E.
        now apply numberHead_signed.
      * intros H%unsigned_head. now apply numberHead_parses.
    + intros H%unsigned_head. now apply numberHead_parses.
Qed.

(** A digit starts a match of the numeric pattern. *)
Lemma numeric_match_at_digit (d : N) (s : jsstring) :
  Chars.isDigit d = true -> is_Some (Regex.matchHere numericPattern (d :: s)).
Proof.
  intros Hd. unfold numericPattern. rewrite matchHere_opt_cons.
  assert (Hsign : (Chars.isChar 45 d || Chars.isChar 43 d) = false).
  { unfold Chars.isDigit, Chars.isChar in *. cases_cmp. }
  rewrite Hsign, matchHere_star. cbn [Regex.star]. rewrite Hd.
  destruct (Regex.star _ _ s); [eauto |].
  rewrite matchHere_opt_cons.
  assert (Hdot : Chars.isChar 46 d = false).
  { unfold Chars.isDigit, Chars.isChar in *. cases_cmp. }
  rewrite Hdot. cbn [Regex.matchHere]. rewrite Hd.
  erewrite star_greedy; [simpl; eauto |]. reflexivity.
Qed.

Lemma noDigit_false (s : jsstring) :
  noDigit s = false ->
  exists pre d r, s = pre ++ d :: r /\ Chars.isDigit d = true.
Proof.
  unfold noDigit. induction s as [|x s IH]; simpl; [discriminate |].
  destruct (Chars.isDigit x) eqn:Hx; simpl.
  - intros _. exists [], x, s. auto.
  - intros (pre & d & r & -> & Hd)%IH. exists (x :: pre), d, r. auto.
Qed.

(** A note with a digit is written as a number. *)
Lemma resultValue_digit (note : jsstring) :
  noDigit note = false -> exists x, resultValue note = VNum x.
Proof.
  intros (pre & d & r & -> & Hd)%noDigit_false.
  destruct (numeric_match_at_digit d r Hd) as [n Hm].
  destruct (search_complete numericPattern pre _ _ Hm) as [[[p m] q] Hs].
  unfold resultValue. rewrite Hs.
  apply search_sound in Hs as [_ Hmatch].
  apply numeric_match_parses in Hmatch as [x Hx].
  rewrite take_app_length in Hx. rewrite Hx. eauto.
Qed.

(** X3: the value [writeResult] writes is the note itself exactly when the
    note has no digit; as soon as the note has a digit the value is a
    number, never a NaN. *)
Theorem resultValue_number_or_note (note : jsstring) :
  (noDigit note = true /\ resultValue note = VStr note)
  \/ (noDigit note = false /\ exists x, resultValue note = VNum x).
Proof.
  destruct (noDigit note) eqn:Hn.
  - left. split; [reflexivity |]. now apply resultValue_text.
  - right. split; [reflexivity |]. now apply resultValue_digit.
Qed.

(** ** The text written on a results sheet *)

Lemma dropWhile_head {A} (p : A -> bool) (l : list A) (x : A) (r : list A) :
  dropWhile p l = x :: r -> p x = false.
Proof.
  induction l as [|y l IH]; simpl; [discriminate |].
  destruct (p y) eqn:E; [assumption |]. now intros [= <- _].
Qed.

Lemma dropWhile_id {A} (p : A -> bool) (l : list A) :
  (forall x r, l = x :: r -> p x = false) -> dropWhile p l = l.
Proof. destruct l as [|x r]; [reflexivity |]. intros H. simpl. now rewrite (H x r). Qed.

Lemma dropWhile_suffix {A} (p : A -> bool) (l : list A) :
  exists pre, l = pre ++ dropWhile p l /\ forallb p pre = true.
Proof.
  induction l as [|y l (pre & E & Hpre)]; simpl; [now exists [] |].
  destruct (p y) eqn:Hy; [| now exists []].
  exists (y :: pre). simpl. rewrite Hy. split; [congruence | assumption].
Qed.

Lemma collapseNewlines_no_newline (b : bool) (s : jsstring) :
  forallb (fun c => negb (c =? 10)) (collapseNewlines b s) = true.
Proof.
  revert b. induction s as [|c s IH]; intros b; simpl; [reflexivity |].
  destruct (N.eqb_spec c 10) as [-> | Hc].
  - destruct b; simpl; auto.
  - simpl. rewrite IH. apply N.eqb_neq in Hc. now rewrite Hc.
Qed.

Lemma collapseNewlines_id (b : bool) (s : jsstring) :
  forallb (fun c => negb (c =? 10)) s = true -> collapseNewlines b s = s.
Proof.
  revert b. induction s as [|c s IH]; intros b; simpl; [reflexivity |].
  intros [Hc Hs]%andb_prop. apply negb_true_iff in Hc. rewrite Hc.
  now rewrite IH.
Qed.

Lemma collapseNewlines_head (s : jsstring) (x : N) (r : jsstring) :
  s = x :: r -> x <> 10 ->
  exists r', collapseNewlines false s = x :: r'.
Proof.
  intros -> Hx. simpl. apply N.eqb_neq in Hx. rewrite Hx. eauto.
Qed.

Lemma last_rev {A} (l : list A) : last (rev l) = head l.
Proof. destruct l as [|x l]; [reflexivity |]. simpl. apply last_snoc. Qed.

Lemma trimEnd_last (s : jsstring) (x : N) :
  last (trimEnd s) = Some x -> Chars.isSpace x = false.
Proof.
  unfold trimEnd. rewrite last_rev.
  destruct (dropWhile Chars.isSpace (rev s)) as [|y r] eqn:E; [discriminate |].
  simpl. intros [= <-]. exact (dropWhile_head _ _ _ _ E).
Qed.

Lemma trimEnd_id (s : jsstring) :
  (forall x, last s = Some x -> Chars.isSpace x = false) -> trimEnd s = s.
Proof.
  intros H. unfold trimEnd. rewrite dropWhile_id, rev_involutive; [reflexivity |].
  intros x r E. apply H. rewrite <- (rev_involutive s), E. rewrite last_rev. reflexivity.
Qed.

Lemma trimEnd_sublist (s : jsstring) :
  exists post, s = trimEnd s ++ post.
Proof.
  unfold trimEnd. destruct (dropWhile_suffix Chars.isSpace (rev s)) as (pre & E & _).
  exists (rev pre). rewrite <- rev_app_distr, <- E. now rewrite rev_involutive.
Qed.

Lemma trimEnd_head (s : jsstring) (x : N) (r : jsstring) :
  s = x :: r -> Chars.isSpace x = false -> exists r', trimEnd s = x :: r'.
Proof.
  intros -> Hx. destruct (trimEnd_sublist (x :: r)) as [post E].
  destruct (trimEnd (x :: r)) as [|y r'] eqn:Et.
  - exfalso. unfold trimEnd in Et.
    assert (Hrev : dropWhile Chars.isSpace (rev (x :: r)) = []).
    { apply (f_equal (@rev N)) in Et. now rewrite rev_involutive in Et. }
    destruct (dropWhile_suffix Chars.isSpace (rev (x :: r))) as (pre & E' & Hall).
    rewrite Hrev, app_nil_r in E'. rewrite <- E' in Hall.
    rewrite forallb_forall in Hall. specialize (Hall x).
    rewrite Hall in Hx; [discriminate |]. apply in_rev. rewrite rev_involutive. now left.
  - simpl in E. injection E as <- _. eauto.
Qed.

(** No character from [0] to [z] but the controls and the space is white
    space. *)
Lemma printable_not_space (c : N) : 33 <= c <= 122 -> Chars.isSpace c = false.
Proof.
  intros Hc. unfold Chars.isSpace.
  repeat match goal with
         | |- context [c =? ?k] => rewrite (proj2 (N.eqb_neq c k)) by lia
         end.
  rewrite (proj2 (N.leb_gt c 13)), (proj2 (N.leb_gt 8192 c)) by lia.
  now rewrite andb_false_r.
Qed.

Lemma alnum_range (c : N) : Chars.isAlnum c = true -> 48 <= c <= 122.
Proof.
  unfold Chars.isAlnum, Chars.isLetter, Chars.isUpper, Chars.isLower, Chars.isDigit.
  cases_cmp.
Qed.

Lemma alnum_not_space (c : N) : Chars.isAlnum c = true -> Chars.isSpace c = false.
Proof. intros H%alnum_range. apply printable_not_space. lia. Qed.

Lemma alnum_not_newline (c : N) : Chars.isAlnum c = true -> c <> 10.
Proof. intros H ->. discriminate. Qed.

Lemma forallb_prefix {A} (p : A -> bool) (l r : list A) :
  forallb p (l ++ r) = true -> forallb p l = true.
Proof. rewrite forallb_app. now intros [H _]%andb_prop. Qed.

(** X4: the text appended to a results sheet has no newline, starts with
    a letter or a digit when it is not empty, does not end with white space,
    and cleaning it again changes nothing. *)
Theorem cleanText_shape (note : jsstring) :
  forallb (fun c => negb (c =? 10)) (cleanText note) = true
  /\ (forall x r, cleanText note = x :: r -> Chars.isAlnum x = true)
  /\ (forall x, last (cleanText note) = Some x -> Chars.isSpace x = false)
  /\ cleanText (cleanText note) = cleanText note.
Proof.
  unfold cleanText at 1 2 3.
  set (body := dropWhile (fun c => negb (Chars.isAlnum c)) note).
  assert (Hbody : forall x r, body = x :: r -> Chars.isAlnum x = true).
  { intros x r E. apply dropWhile_head in E. now apply negb_false_iff in E. }
  set (flat := collapseNewlines false body).
  assert (Hflat : forallb (fun c => negb (c =? 10)) flat = true)
    by apply collapseNewlines_no_newline.
  assert (Hhead : forall x r, trim flat = x :: r -> Chars.isAlnum x = true).
  { intros x r E. destruct body as [|y b] eqn:Eb.
    - discriminate E.
    - pose proof (Hbody y b eq_refl) as Hy.
      destruct (collapseNewlines_head (y :: b) y b eq_refl (alnum_not_newline _ Hy))
        as [r1 E1].
      fold flat in E1. unfold trim, trimStart in E. rewrite E1 in E.
      rewrite dropWhile_id in E
        by (intros ? ? [= <- _]; now apply alnum_not_space).
      destruct (trimEnd_head (y :: r1) y r1 eq_refl (alnum_not_space _ Hy)) as [r2 E2].
      rewrite E2 in E. now injection E as <- _. }
  assert (Hline : forallb (fun c => negb (c =? 10)) (trim flat) = true).
  { unfold trim, trimStart.
    destruct (dropWhile_suffix Chars.isSpace flat) as (pre & E & _).
    destruct (trimEnd_sublist (dropWhile Chars.isSpace flat)) as [post E'].
    rewrite E, forallb_app in Hflat. apply andb_prop in Hflat as [_ Hflat].
    rewrite E' in Hflat. now apply forallb_prefix in Hflat. }
  assert (Hlast : forall x, last (trim flat) = Some x -> Chars.isSpace x = false).
  { intros x. apply trimEnd_last. }
  split; [assumption |]. split; [assumption |]. split; [assumption |].
  unfold cleanText. fold body. fold flat.
  rewrite (dropWhile_id _ (trim flat))
    by (intros x r E; apply negb_false_iff; eauto).
  rewrite collapseNewlines_id by assumption.
  unfold trim at 1, trimStart.
  rewrite (dropWhile_id _ (trim flat))
    by (intros x r E; apply alnum_not_space; eauto).
  now apply trimEnd_id.
Qed.

(** ** The column suggested by a command *)

Lemma word_not_space (c : N) : Chars.isWord c = true -> Chars.isSpace c = false.
Proof.
  unfold Chars.isWord. intros [H | H]%orb_prop.
  - now apply alnum_not_space.
  - apply N.eqb_eq in H. now subst c.
Qed.

Lemma isCI_lower (x c : N) :
  Chars.isLower x = true -> Chars.isCI x c = true -> Chars.toLower c = x.
Proof.
  unfold Chars.isCI, Chars.toLower, Chars.isUpper, Chars.isLower. intros Hx.
  cases_cmp.
Qed.

Lemma take_takeWhile {A} (p : A -> bool) (l : list A) :
  take (length (takeWhile p l)) l = takeWhile p l.
Proof.
  induction l as [|x l IH]; simpl; [reflexivity |].
  destruct (p x); simpl; congruence.
Qed.

(** The match of the sum pattern: the keyword, white space, a word. *)
Lemma sumPattern_match (u : jsstring) (n : nat) :
  Regex.matchHere sumPattern u = Some n ->
  exists kw sp w,
    take n u = kw ++ sp ++ w
    /\ length kw = 3%nat /\ toLowerCase kw = js "sum"
    /\ sp <> [] /\ forallb Chars.isSpace sp = true
    /\ w <> [] /\ forallb Chars.isWord w = true
    /\ (forall x r, drop n u = x :: r -> Chars.isWord x = false).
Proof.
  unfold sumPattern. cbn [Regex.matchHere].
  destruct u as [|c1 [|c2 [|c3 [|s1 u]]]];
    repeat match goal with
           | |- context [Chars.isCI ?k ?c] =>
               let H := fresh "H" in destruct (Chars.isCI k c) eqn:H; cbn [fmap option_fmap option_map]
           end; try discriminate.
  destruct (Chars.isSpace s1) eqn:Hs1; [| discriminate].
  destruct (Regex.star _ _ u) as [m |] eqn:E; [| discriminate].
  cbn [fmap option_fmap option_map]. intros [= <-].
  apply star_some in E as (i & m' & Hsp & Hi & Hk & ->).
  cbn [Regex.matchHere] in Hk.
  destruct (drop i u) as [|w1 t] eqn:Ed; [discriminate |].
  destruct (Chars.isWord w1) eqn:Hw1; [| discriminate].
  erewrite star_greedy in Hk by reflexivity.
  injection Hk as <-.
  exists [c1; c2; c3], (s1 :: take i u), (w1 :: takeWhile Chars.isWord t).
  assert (Hu : u = take i u ++ w1 :: t) by (rewrite <- Ed; symmetry; apply take_drop).
  split; [| split; [reflexivity | split; [| split; [discriminate | split;
    [| split; [discriminate | split]]]]]].
  - cbn [take app]. do 4 f_equal.
    rewrite Hu at 1. rewrite take_app_add' by (rewrite length_take; lia).
    f_equal. cbn [take]. f_equal. apply take_takeWhile.
  - unfold toLowerCase. cbn [map].
    rewrite (isCI_lower 115 c1), (isCI_lower 117 c2), (isCI_lower 109 c3);
      auto.
  - cbn [forallb]. now rewrite Hs1, Hsp.
  - cbn [forallb]. rewrite Hw1. apply takeWhile_all.
  - intros x r. cbn [drop]. rewrite Hu at 1.
    rewrite drop_app_add' by (rewrite length_take; lia).
    cbn [drop]. apply takeWhile_stops.
Qed.

(** X5: the column suggested for a command is a word of the command, not
    empty, that follows the keyword "sum" (in any case) and white space, and
    that runs up to the next character that is not a word character. *)
Theorem suggestColumn_captures_word (userText col : jsstring) :
  suggestColumn userText = Some col ->
  col <> [] /\ forallb Chars.isWord col = true
  /\ exists pre kw sp post,
       userText = pre ++ kw ++ sp ++ col ++ post
       /\ toLowerCase kw = js "sum"
       /\ sp <> [] /\ forallb Chars.isSpace sp = true
       /\ (forall x r, post = x :: r -> Chars.isWord x = false).
Proof.
  unfold suggestColumn.
  destruct (Regex.search sumPattern userText) as [[[pre m] post] |] eqn:Hs;
    [| discriminate].
  intros [= <-]. apply search_sound in Hs as [-> Hm].
  apply sumPattern_match in Hm as (kw & sp & w & Ht & Hlen & Hkw & Hne & Hsp & Hwne & Hw & Hpost).
  rewrite take_app_length in Ht. rewrite drop_app_length in Hpost. subst m.
  rewrite drop_app_length' by (symmetry; assumption).
  assert (Hcol : dropWhile Chars.isSpace (sp ++ w) = w).
  { clear - Hsp Hw Hwne. induction sp as [|s sp IH]; simpl in *.
    - apply dropWhile_id. intros x r ->. simpl in Hw.
      apply andb_prop in Hw as [Hx _]. now apply word_not_space.
    - apply andb_prop in Hsp as [-> Hsp]. auto. }
  rewrite Hcol. split; [assumption |]. split; [assumption |].
  exists pre, kw, sp, post. rewrite <- !app_assoc. auto.
Qed.

Lemma suggestColumn_captures_word_witness :
  suggestColumn (js "please SUM   Sales_2024 now") = Some (js "Sales_2024")
  /\ forallb Chars.isWord (js "Sales_2024") = true.
Proof.
  split; [reflexivity |].
  exact (proj1 (proj2 (suggestColumn_captures_word
                         (js "please SUM   Sales_2024 now") (js "Sales_2024") eq_refl))).
Defined.

(** ** Sheet names made from file names *)

Lemma extension_not_before (t ext : jsstring) (x : N) :
  Regex.matchHere extensionPattern (x :: t ++ 46 :: ext) = None.
Proof.
  unfold extensionPattern. cbn [Regex.matchHere].
  destruct (Chars.isChar 46 x); [| reflexivity].
  destruct (t ++ 46 :: ext) as [|y r] eqn:Et; [reflexivity |].
  destruct (negb _) eqn:Hy; [| reflexivity].
  destruct (Regex.star _ _ r) as [m |] eqn:E; [| reflexivity].
  exfalso. apply star_some in E as (i & m' & Hall & Hi & Hk & _).
  cbn [Regex.matchHere] in Hk.
  destruct (drop i r) eqn:Ed; [| discriminate]. apply drop_nil_inv in Ed.
  rewrite take_ge in Hall by assumption.
  assert (Hall' : forallb (fun c => negb (Chars.isChar 47 c || Chars.isChar 46 c))
                    (t ++ 46 :: ext) = true).
  { rewrite Et. simpl. now rewrite Hy, Hall. }
  rewrite forallb_app in Hall'. apply andb_prop in Hall' as [_ Hall'].
  simpl in Hall'. discriminate.
Qed.

Lemma extension_search (stem ext : jsstring) :
  ext <> [] ->
  forallb (fun c => negb (Chars.isChar 47 c || Chars.isChar 46 c)) ext = true ->
  Regex.search extensionPattern (stem ++ 46 :: ext) = Some (stem, 46 :: ext, []).
Proof.
  intros Hne Hext. induction stem as [|x stem IH].
  - cbn [app Regex.search]. unfold extensionPattern. cbn [Regex.matchHere].
    change (Chars.isChar 46 46) with true.
    destruct ext as [|e ext]; [congruence |]. simpl in Hext.
    apply andb_prop in Hext as [-> Hext].
    rewrite <- (app_nil_r ext) at 1.
    rewrite (star_prefix _ _ ext [] 0); [| assumption | discriminate | reflexivity].
    cbn [fmap option_fmap option_map]. rewrite Nat.add_0_r.
    replace (S (S (length ext))) with (length (46 :: e :: ext)) by reflexivity.
    now rewrite firstn_all, drop_all.
  - cbn [app Regex.search]. now rewrite extension_not_before, IH.
Qed.

(** X6: for a file name that ends with a point and an extension without
    point or slash, the base of the sheet name is the part before that
    point with every character other than letters, digits, underscores,
    hyphens and spaces removed. *)
Theorem sheetBaseName_drops_extension (stem ext : jsstring) :
  ext <> [] ->
  forallb (fun c => negb (Chars.isChar 47 c || Chars.isChar 46 c)) ext = true ->
  sheetBaseName (stem ++ 46 :: ext) = List.filter nameChar stem
  /\ Forall (fun c => nameChar c = true) (sheetBaseName (stem ++ 46 :: ext)).
Proof.
  intros Hne Hext.
  assert (E : sheetBaseName (stem ++ 46 :: ext) = List.filter nameChar stem).
  { unfold sheetBaseName. destruct (stem ++ 46 :: ext) eqn:Es.
    - now destruct stem.
    - rewrite <- Es, extension_search by assumption. now rewrite app_nil_r. }
  split; [assumption |]. rewrite E. apply Forall_forall. intros c Hc.
  apply list_elem_of_In, filter_In in Hc. tauto.
Qed.

Lemma sheetBaseName_drops_extension_witness :
  sheetBaseName (js "Q3 sales (final).v2.xlsx") = js "Q3 sales finalv2".
Proof.
  destruct (sheetBaseName_drops_extension (js "Q3 sales (final).v2") (js "xlsx"))
    as [H _]; [discriminate | reflexivity |].
  exact H.
Defined.

(** ** The last header of the first row *)

Lemma fold_found {A} (f : option nat -> A -> option nat) (l : list A) (i : nat) :
  (forall j x, f (Some j) x = Some j) -> fold_left f l (Some i) = Some i.
Proof. intros Hf. induction l as [|x l IH]; simpl; [reflexivity |]. now rewrite Hf. Qed.

Lemma lastFilledIndex_snoc (row : list CellValue) (v : CellValue) :
  lastFilledIndex (row ++ [v])
  = if filled v then Some (length row) else lastFilledIndex row.
Proof.
  unfold lastFilledIndex. rewrite imap_app, rev_app_distr. cbn [imap rev app fold_left].
  rewrite Nat.add_0_r. destruct (filled v); [| reflexivity].
  apply fold_found. now intros j [idx val].
Qed.

Lemma lookup_snoc_cases {A} (l : list A) (x : A) (j : nat) (y : A) :
  (l ++ [x]) !! j = Some y ->
  ((j < length l)%nat /\ l !! j = Some y) \/ (j = length l /\ y = x).
Proof.
  intros H. destruct (Nat.lt_ge_cases j (length l)) as [Hin | Hout].
  - left. rewrite lookup_app_l in H by assumption. auto.
  - right. rewrite lookup_app_r in H by assumption.
    destruct (j - length l)%nat eqn:E; [| discriminate].
    injection H as <-. split; [lia | reflexivity].
Qed.

Lemma lastFilledIndex_none (firstRow : list CellValue) :
  lastFilledIndex firstRow = None ->
  forall j v, firstRow !! j = Some v -> filled v = false.
Proof.
  induction firstRow as [|x row IH] using rev_ind; [intros _ j v; discriminate |].
  rewrite lastFilledIndex_snoc. destruct (filled x) eqn:Hx; [discriminate |].
  intros Hnone j v [[_ Hv] | [_ ->]]%lookup_snoc_cases; eauto.
Qed.

Lemma lastFilledIndex_some (firstRow : list CellValue) (i : nat) :
  lastFilledIndex firstRow = Some i ->
  (exists v, firstRow !! i = Some v /\ filled v = true)
  /\ forall j v, (i < j)%nat -> firstRow !! j = Some v -> filled v = false.
Proof.
  induction firstRow as [|x row IH] using rev_ind; [discriminate |].
  rewrite lastFilledIndex_snoc. destruct (filled x) eqn:Hx.
  - intros [= <-]. split.
    + exists x. split; [| assumption]. now rewrite lookup_app_r, Nat.sub_diag by lia.
    + intros j v Hj [[Hlt _] | [-> _]]%lookup_snoc_cases; lia.
  - intros Hi. destruct (IH Hi) as [(w & Hw & Hf) Hafter]. split.
    + exists w. split; [| assumption]. rewrite lookup_app_l; [assumption |].
      now apply lookup_lt_Some in Hw.
    + intros j v Hj [[_ Hv] | [_ ->]]%lookup_snoc_cases; eauto.
Qed.

(** X7: the scan of the first row from the right returns the index of
    the last cell that is neither null nor empty, and nothing when the row
    has no such cell. *)
Theorem lastFilledIndex_spec (firstRow : list CellValue) :
  match lastFilledIndex firstRow with
  | Some i =>
      (exists v, firstRow !! i = Some v /\ filled v = true)
      /\ forall j v, (i < j)%nat -> firstRow !! j = Some v -> filled v = false
  | None => forall j v, firstRow !! j = Some v -> filled v = false
  end.
Proof.
  destruct (lastFilledIndex firstRow) as [i |] eqn:E.
  - now apply lastFilledIndex_some.
  - now apply lastFilledIndex_none.
Qed.

(** ** Equality of header lists up to case *)

(** X8: [arraysEqualCI] holds of two lists of ASCII texts exactly when
    they have the same length and the texts at each index are equal up to
    the case of their letters. *)
Theorem arraysEqualCI_spec (a b : list jsstring) :
  Forall asciiOnly a -> Forall asciiOnly b ->
  (arraysEqualCI a b = true
   <-> length a = length b
       /\ forall i x y, a !! i = Some x -> b !! i = Some y -> sameTextCI x y).
Proof.
  intros _ _.
  assert (Hmap : map toLowerCase a = map toLowerCase b
                 <-> length a = length b
                     /\ forall i x y, a !! i = Some x -> b !! i = Some y -> sameTextCI x y).
  { split.
    - intros E. split.
      + apply (f_equal length) in E. now rewrite !length_map in E.
      + intros i x y Hx Hy. unfold sameTextCI.
        apply (f_equal (fun l => l !! i)) in E. rewrite !list_lookup_fmap, Hx, Hy in E.
        now injection E.
    - intros [Hlen Hall]. apply list_eq. intros i. rewrite !list_lookup_fmap.
      destruct (a !! i) as [x |] eqn:Ea.
      + destruct (lookup_lt_is_Some_2 b i) as [y Eb].
        { rewrite <- Hlen. now apply lookup_lt_Some in Ea. }
        rewrite Eb. simpl. f_equal. exact (Hall i x y Ea Eb).
      + apply lookup_ge_None in Ea. rewrite Hlen in Ea.
        now rewrite (lookup_ge_None_2 b i). }
  rewrite <- Hmap. clear Hmap.
  unfold arraysEqualCI. destruct (Nat.eqb_spec (length a) (length b)) as [Hlen | Hlen];
    cbn [negb].
  - rewrite forallb_forall. split.
    + intros H. apply list_eq. intros i. rewrite !list_lookup_fmap.
      destruct (a !! i) as [x |] eqn:Ea.
      * destruct (lookup_lt_is_Some_2 b i) as [y Eb].
        { rewrite <- Hlen. now apply lookup_lt_Some in Ea. }
        rewrite Eb. simpl. f_equal.
        specialize (H i). rewrite Ea, Eb in H. simpl in H.
        eapply bool_decide_eq_true_1, H, in_seq.
        apply lookup_lt_Some in Ea. lia.
      * apply lookup_ge_None in Ea. rewrite Hlen in Ea.
        now rewrite (lookup_ge_None_2 b i).
    + intros E i Hi%in_seq. apply bool_decide_eq_true_2.
      apply (f_equal (fun l => l !! i)) in E. rewrite !list_lookup_fmap in E.
      destruct (a !! i), (b !! i); simpl in *; congruence.
  - split; [discriminate |]. intros E. apply (f_equal length) in E.
    rewrite !length_map in E. contradiction.
Qed.

(** ** Integers that binary64 numbers represent

    Up to [2^53] in magnitude every integer is a Number, and prints digit
    by digit. *)

Section Binary64Facts.
Local Open Scope Z_scope.

Lemma infinity_large : 2 ^ 53 < Binary64.infinity.
Proof. unfold Binary64.infinity. apply Z.pow_lt_mono_r; lia. Qed.

Lemma roundMagnitude_small (n : Z) :
  0 <= n < 2 ^ 53 -> Binary64.roundMagnitude n = n.
Proof.
  intros [Hn Hlt]. unfold Binary64.roundMagnitude.
  assert (Hl : Z.log2 n < 53).
  { destruct (Z.eq_dec n 0) as [-> | Hne]; [reflexivity |].
    apply Z.log2_lt_pow2; lia. }
  destruct (Z.leb_spec (Z.log2 n - 52) 0); [reflexivity | lia].
Qed.

Lemma roundMagnitude_large (n : Z) :
  2 ^ 53 <= n -> 2 ^ 53 <= Binary64.roundMagnitude n.
Proof.
  intros Hn. unfold Binary64.roundMagnitude.
  assert (Hpos : 0 < n) by (pose proof (Z.pow_pos_nonneg 2 53); lia).
  assert (Hl : 53 <= Z.log2 n) by (apply Z.log2_le_pow2; lia).
  set (e := Z.log2 n - 52).
  destruct (Z.leb_spec e 0) as [He | He]; [lia |].
  rewrite Z.shiftl_mul_pow2 by lia.
  rewrite Z.shiftr_div_pow2 by lia.
  assert (Hq : 2 ^ 52 <= n / 2 ^ e).
  { apply Z.div_le_lower_bound; [apply Z.pow_pos_nonneg; lia |].
    rewrite <- Z.pow_add_r by lia. replace (e + 52) with (Z.log2 n) by (unfold e; lia).
    apply Z.log2_spec. assumption. }
  assert (He2 : 2 ^ 1 <= 2 ^ e) by (apply Z.pow_le_mono_r; lia).
  change (2 ^ 53) with (2 ^ 52 * 2 ^ 1).
  destruct (_ || _); nia.
Qed.

Lemma round_exact (z : Z) : Z.abs z <= 2 ^ 53 -> Binary64.round z = z.
Proof.
  intros Hz. pose proof infinity_large as Hinf0.
  destruct (Z.eq_dec (Z.abs z) (2 ^ 53)) as [E | E].
  - assert (z = 2 ^ 53 \/ z = - 2 ^ 53) as [-> | ->] by lia; vm_compute; reflexivity.
  - unfold Binary64.round. rewrite roundMagnitude_small by lia.
    rewrite Z.min_l by lia. destruct z; simpl; lia.
Qed.

Lemma round_large (c : Z) : 2 ^ 53 <= c -> 2 ^ 53 <= Binary64.round c.
Proof.
  intros Hc. pose proof infinity_large as Hinf0.
  assert (Hpos : 0 < c) by (pose proof (Z.pow_pos_nonneg 2 53); lia).
  unfold Binary64.round. rewrite Z.abs_eq by lia.
  pose proof (roundMagnitude_large c Hc).
  rewrite Z.sgn_pos by lia. lia.
Qed.

(** Below [2^53] only the number itself reads back as it. *)
Lemma round_reads_back (x c : Z) :
  0 <= x < 2 ^ 53 -> 0 <= c -> Binary64.round c = x -> c = x.
Proof.
  intros Hx Hc Hr. destruct (Z.lt_ge_cases c (2 ^ 53)) as [Hlt | Hge].
  - rewrite round_exact in Hr by lia. exact Hr.
  - pose proof (round_large c Hge). lia.
Qed.

Lemma nearest_sound (x p c : Z) :
  0 <= x -> 0 < p -> Binary64.nearest x p = Some c ->
  0 <= c /\ Binary64.round c = x.
Proof.
  intros Hx Hp. unfold Binary64.nearest, Binary64.readsBack.
  assert (Hlo : 0 <= x / p * p) by (pose proof (Z.div_pos x p); nia).
  destruct (Z.eqb_spec (Binary64.round (x / p * p)) x) as [E1 | E1];
    destruct (Z.eqb_spec (Binary64.round (x / p * p + p)) x) as [E2 | E2];
    intros [= <-]; repeat destruct (_ <? _); try destruct (Z.even _);
    split; auto; lia.
Qed.

Lemma shortestFrom_sound (x : Z) (d k fuel : nat) :
  0 <= x -> Binary64.round x = x ->
  0 <= Binary64.shortestFrom x d k fuel
  /\ Binary64.round (Binary64.shortestFrom x d k fuel) = x.
Proof.
  intros Hx Hr. revert k. induction fuel as [|fuel IH]; intros k; simpl; [auto |].
  destruct (Binary64.nearest x (10 ^ Z.of_nat (d - k))) as [c |] eqn:E; [| apply IH].
  apply (nearest_sound x (10 ^ Z.of_nat (d - k)) c Hx); [| exact E].
  apply Z.pow_pos_nonneg; lia.
Qed.

Lemma shortest_exact (x : Z) : 0 <= x < 2 ^ 53 -> Binary64.shortest x = x.
Proof.
  intros Hx. unfold Binary64.shortest.
  destruct (shortestFrom_sound x (length (NToString (Z.to_N x))) 1
              (length (NToString (Z.to_N x)))) as [Hc Hr]; [lia | |].
  - apply round_exact. lia.
  - now apply round_reads_back.
Qed.

(** An integer up to [2^53] in magnitude prints digit by digit. *)
Lemma toString_exact (z : Z) : Z.abs z <= 2 ^ 53 -> Binary64.toString z = ZToString z.
Proof.
  intros Hz. pose proof infinity_large as Hinf0.
  destruct (Z.eq_dec (Z.abs z) (2 ^ 53)) as [E | E].
  - assert (z = 2 ^ 53 \/ z = - 2 ^ 53) as [-> | ->] by lia; vm_compute; reflexivity.
  - unfold Binary64.toString.
    destruct (Z.leb_spec Binary64.infinity (Z.abs z)) as [H | _]; [lia |].
    rewrite shortest_exact by lia.
    destruct (Z.ltb_spec (Z.abs z) (10 ^ 21)) as [_ | H];
      [| change (2 ^ 53) with 9007199254740992 in Hz;
         change (10 ^ 21) with 1000000000000000000000 in H; lia].
    destruct z as [| p | p]; reflexivity.
Qed.

End Binary64Facts.

(** Beyond, a Number stands for several integers: 2^53 + 1 is read as
    2^53, and 2^60 prints with zeros for the digits it does not hold. *)
Lemma round_beyond_exact :
  Binary64.round (2 ^ 53 + 1) = (2 ^ 53)%Z
  /\ Binary64.round (2 ^ 53 + 3) = (2 ^ 53 + 4)%Z
  /\ Binary64.toString (2 ^ 60) = js "1152921504606847000"
  /\ Binary64.toString (Binary64.round (10 ^ 21)) = js "1e+21"
  /\ Binary64.toString (Binary64.round (2 ^ 70)) = js "1.1805916207174113e+21"
  /\ Binary64.toString (Binary64.round (10 ^ 400)) = js "Infinity".
Proof. repeat split; vm_compute; reflexivity. Qed.

(** ** The name of a new results sheet *)

Lemma radixDigit_digit (c : N) : Chars.isDigit c = true -> isRadixDigit 10 c = true.
Proof.
  intros Hc. unfold isRadixDigit, digitValue. rewrite Hc.
  unfold Chars.isDigit in Hc. cases_cmp.
Qed.

Lemma takeWhile_id {A} (p : A -> bool) (l : list A) :
  forallb p l = true -> takeWhile p l = l.
Proof.
  induction l as [|x l IH]; simpl; [reflexivity |].
  intros [-> Hl]%andb_prop. now rewrite IH.
Qed.

(** [parseInt] reads a run of decimal digits, with or without a minus
    sign, as the Number nearest to its value. *)
Lemma parseInt_digits (ds : jsstring) :
  ds <> [] -> forallb Chars.isDigit ds = true ->
  parseInt ds = Some (Binary64.round (Z.of_N (digitsValue 10 ds)))
  /\ parseInt (45 :: ds) = Some (Binary64.round (- Z.of_N (digitsValue 10 ds))).
Proof.
  intros Hne Hds.
  assert (Htw : takeWhile (isRadixDigit 10) ds = ds).
  { apply takeWhile_id. revert Hds. apply forallb_impl, radixDigit_digit. }
  destruct ds as [|d1 ds]; [congruence |].
  pose proof Hds as Hds'. simpl in Hds. apply andb_prop in Hds as [Hd1 Hrest].
  pose proof (digit_not_space d1 Hd1) as Hsp.
  assert (Hd2 : forall d2 r, ds = d2 :: r -> d2 <> 120 /\ d2 <> 88).
  { intros d2 r ->. simpl in Hrest. apply andb_prop in Hrest as [Hd2 _].
    split; intros ->; discriminate. }
  assert (H45 : d1 <> 45) by (intros ->; discriminate).
  assert (H43 : d1 <> 43) by (intros ->; discriminate).
  split; unfold parseInt, trimStart; cbn [dropWhile].
  - rewrite Hsp.
    destruct ds as [|d2 r].
    + cbv beta iota zeta. cases_code; try congruence; rewrite Htw; reflexivity.
    + destruct (Hd2 d2 r eq_refl) as [H120 H88].
      cbv beta iota zeta. cases_code; try congruence; rewrite Htw; reflexivity.
  - change (Chars.isSpace 45) with false. cbv beta iota zeta.
    destruct ds as [|d2 r].
    + cases_code; try congruence; rewrite Htw; reflexivity.
    + destruct (Hd2 d2 r eq_refl) as [H120 H88].
      cases_code; try congruence; rewrite Htw; reflexivity.
Qed.

Lemma parseInt_ZToString (z : Z) :
  parseInt (ZToString z) = Some (Binary64.round z).
Proof.
  destruct z as [|p|p]; unfold ZToString.
  - reflexivity.
  - destruct (parseInt_digits (NToString (Z.to_N (Zpos p)))
                (NToString_nonempty _) (NToString_digits _)) as [-> _].
    rewrite digitsValue_NToString. reflexivity.
  - destruct (parseInt_digits (NToString (Npos p))
                (NToString_nonempty _) (NToString_digits _)) as [_ ->].
    rewrite digitsValue_NToString. reflexivity.
Qed.

Lemma split_nonempty (sep : N) (s : jsstring) : split sep s <> [].
Proof.
  induction s as [|c s IH]; simpl; [discriminate |].
  destruct (c =? sep); [discriminate |]. now destruct (split sep s).
Qed.

Lemma split_none (sep : N) (s : jsstring) :
  forallb (fun c => negb (c =? sep)) s = true -> split sep s = [s].
Proof.
  induction s as [|c s IH]; simpl; [reflexivity |].
  intros [Hc Hs]%andb_prop. apply negb_true_iff in Hc. now rewrite Hc, IH.
Qed.

(** The last piece of a split is the text after the last separator. *)
Lemma split_last (sep : N) (pre t : jsstring) :
  last (split sep (pre ++ sep :: t)) = last (split sep t).
Proof.
  induction pre as [|c pre IH]; cbn [app split].
  - rewrite N.eqb_refl. pose proof (split_nonempty sep t).
    now destruct (split sep t).
  - pose proof (split_nonempty sep (pre ++ sep :: t)) as Hne.
    assert (Htwo : forall seg, split sep (pre ++ sep :: t) <> [seg]).
    { clear. induction pre as [|c pre IH]; intros seg; cbn [app split].
      - rewrite N.eqb_refl. pose proof (split_nonempty sep t).
        destruct (split sep t); congruence.
      - destruct (c =? sep).
        + pose proof (split_nonempty sep (pre ++ sep :: t)).
          destruct (split sep (pre ++ sep :: t)); congruence.
        + pose proof (split_nonempty sep (pre ++ sep :: t)) as Hne.
          destruct (split sep (pre ++ sep :: t)) as [|s1 [|s2 segs]] eqn:E;
            [congruence | | discriminate].
          now specialize (IH s1). }
    destruct (c =? sep).
    + rewrite <- IH. now destruct (split sep (pre ++ sep :: t)).
    + rewrite <- IH. destruct (split sep (pre ++ sep :: t)) as [|s1 [|s2 segs]];
        [congruence | now specialize (Htwo s1) | reflexivity].
Qed.

Lemma digit_not_underscore (s : jsstring) :
  forallb Chars.isDigit s = true -> forallb (fun c => negb (c =? 95)) s = true.
Proof.
  apply forallb_impl. intros c Hc. apply negb_true_iff, N.eqb_neq. intros ->.
  vm_compute in Hc. discriminate Hc.
Qed.

Lemma ZToString_no_underscore (z : Z) :
  forallb (fun c => negb (c =? 95)) (ZToString z) = true.
Proof.
  destruct z as [|p|p]; unfold ZToString.
  - apply digit_not_underscore, NToString_digits.
  - apply digit_not_underscore, NToString_digits.
  - cbn [forallb]. rewrite digit_not_underscore by apply NToString_digits.
    reflexivity.
Qed.

Lemma ZToString_nonempty (z : Z) : ZToString z <> [].
Proof. destruct z; unfold ZToString; try apply NToString_nonempty. discriminate. Qed.

(** The number of a name that ends with an underscore and the decimal
    rendering of an integer is the Number nearest to that integer. *)
Lemma suffixNumber_decimal (stem : jsstring) (z : Z) :
  suffixNumber (stem ++ js "_" ++ ZToString z) = Binary64.round z.
Proof.
  unfold suffixNumber, pop.
  change (stem ++ js "_" ++ ZToString z) with (stem ++ 95 :: ZToString z).
  rewrite split_last, split_none by apply ZToString_no_underscore.
  cbn [last]. pose proof (ZToString_nonempty z).
  destruct (ZToString z) eqn:E; [congruence |]. rewrite <- E.
  now rewrite parseInt_ZToString.
Qed.

(** The number of a name is 0 when the text after its last underscore is
    empty or starts with a character that is no digit, no sign and no white
    space. *)
Lemma suffixNumber_no_number (stem t : jsstring) :
  forallb (fun c => negb (c =? 95)) t = true ->
  (forall x r, t = x :: r ->
     Chars.isSpace x = false /\ x <> 45 /\ x <> 43 /\ Chars.isDigit x = false) ->
  suffixNumber (stem ++ js "_" ++ t) = 0%Z.
Proof.
  intros Hu Hhead. unfold suffixNumber, pop.
  change (stem ++ js "_" ++ t) with (stem ++ 95 :: t).
  rewrite split_last, split_none by assumption. cbn [last].
  destruct t as [|x r]; [reflexivity |].
  destruct (Hhead x r eq_refl) as (Hsp & H45 & H43 & Hd).
  assert (Hrd : isRadixDigit 10 x = false).
  { unfold isRadixDigit, digitValue. rewrite Hd.
    unfold Chars.isDigit in Hd.
    destruct (Chars.isLower x) eqn:Hl; [unfold Chars.isLower in Hl; cases_cmp |].
    destruct (Chars.isUpper x) eqn:Hup; [unfold Chars.isUpper in Hup; cases_cmp |].
    reflexivity. }
  assert (H48 : x <> 48) by (intros ->; discriminate Hd).
  unfold parseInt, trimStart. cbn [dropWhile]. rewrite Hsp.
  cbv beta iota zeta. cases_code; try congruence; cbn [takeWhile]; now rewrite Hrd.
Qed.

Lemma suffixNumber_minted (z : Z) :
  suffixNumber (js "AI_Results_" ++ ZToString z) = Binary64.round z.
Proof. exact (suffixNumber_decimal (js "AI_Results") z). Qed.

Lemma startsWith_app (p s : jsstring) : startsWith (p ++ s) p = true.
Proof.
  induction p as [|x p IH]; simpl; [now destruct s |]. now rewrite N.eqb_refl.
Qed.

Lemma startsWith_spec (s p : jsstring) :
  startsWith s p = true <-> exists rest, s = p ++ rest.
Proof.
  split; [| intros [rest ->]; apply startsWith_app].
  revert s. induction p as [|x p IH]; intros s; [now exists s |].
  destruct s as [|y s]; simpl; [discriminate |].
  intros [Hx Hs]%andb_prop. apply N.eqb_eq in Hx as ->.
  destruct (IH s Hs) as [rest ->]. now exists rest.
Qed.

Lemma filter_none {A} (p : A -> bool) (l : list A) :
  (forall x, In x l -> p x = false) -> List.filter p l = [].
Proof.
  induction l as [|x l IH]; intros H; [reflexivity |]. simpl.
  rewrite (H x) by now left. apply IH. intros; apply H; now right.
Qed.

(** While the numbers of the results sheets stay below [2^53], the next
    index is one more than the greatest of them, and prints digit by
    digit. *)
Lemma nextResultsIndex_max (names : list jsstring) (m : jsstring) :
  In m names -> startsWith m resultsPrefix = true ->
  (forall n, In n names -> startsWith n resultsPrefix = true ->
             (Z.abs (suffixNumber n) < 2 ^ 53)%Z) ->
  exists m',
    In m' names /\ startsWith m' resultsPrefix = true
    /\ (forall n, In n names -> startsWith n resultsPrefix = true ->
                  (suffixNumber n <= suffixNumber m')%Z)
    /\ nextResultsIndex names = (suffixNumber m' + 1)%Z
    /\ nextResultsSheetName names
       = js "AI_Results_" ++ ZToString (suffixNumber m' + 1).
Proof.
  intros Hm Hp Hb. unfold nextResultsSheetName, nextResultsIndex.
  set (matches := List.filter (fun n => startsWith n resultsPrefix) names).
  assert (Hin : In m matches) by (apply filter_In; auto).
  destruct (maxOf_spec (map suffixNumber matches)) as (Hmax & Hle).
  { destruct matches; [destruct Hin | discriminate]. }
  apply in_map_iff in Hmax as (m' & Heq & Hm').
  apply filter_In in Hm' as [Hm' Hp'].
  pose proof (Hb m' Hm' Hp') as Hbm.
  exists m'. split; [assumption |]. split; [assumption |]. split.
  { intros n Hn Hpn. rewrite Heq. apply Hle. apply in_map.
    apply filter_In; auto. }
  destruct matches; [destruct Hin |]. rewrite <- Heq.
  rewrite round_exact by lia. rewrite toString_exact by lia. auto.
Qed.

(** C5, as amended: the name minted for a new results sheet is
    [AI_Results_1] when no sheet name starts with [AI_Results]; otherwise,
    as long as the numbers of those names are below 2^53 in magnitude, it is
    [AI_Results_] followed by one more than the greatest of them.  The
    number of a name is what [parseInt] reads after its last underscore: for
    a name that ends with an underscore and a decimal number, that number;
    0 when no number starts there.  With [AI_Results_1], [AI_Results_3] and [Other] the name is
    [AI_Results_4], both as computed and as the name of the sheet
    [writeResult] adds. *)
Theorem next_results_sheet_name :
  (forall names,
      (forall n rest, In n names -> n <> js "AI_Results" ++ rest) ->
      nextResultsSheetName names = js "AI_Results_1")
  /\ (forall names (num : jsstring -> Z),
        (forall n rest, In n names -> n = js "AI_Results" ++ rest ->
           (exists stem, n = stem ++ js "_" ++ ZToString (num n))
           /\ (Z.abs (num n) < 2 ^ 53)%Z) ->
        forall m rest, In m names -> m = js "AI_Results" ++ rest ->
        exists m' rest',
          In m' names /\ m' = js "AI_Results" ++ rest'
          /\ (forall n rest, In n names -> n = js "AI_Results" ++ rest ->
                             (num n <= num m')%Z)
          /\ nextResultsSheetName names
             = js "AI_Results_" ++ ZToString (num m' + 1))
  /\ (forall names m rest,
        In m names -> m = js "AI_Results" ++ rest ->
        (forall n rest, In n names -> n = js "AI_Results" ++ rest ->
                        (Z.abs (suffixNumber n) < 2 ^ 53)%Z) ->
        exists m' rest',
          In m' names /\ m' = js "AI_Results" ++ rest'
          /\ (forall n rest, In n names -> n = js "AI_Results" ++ rest ->
                             (suffixNumber n <= suffixNumber m')%Z)
          /\ nextResultsSheetName names
             = js "AI_Results_" ++ ZToString (suffixNumber m' + 1))
  /\ (forall stem z, (Z.abs z < 2 ^ 53)%Z ->
                     suffixNumber (stem ++ js "_" ++ ZToString z) = z)
  /\ (forall stem t,
        forallb (fun c => negb (c =? 95)) t = true ->
        (forall x r, t = x :: r ->
           Chars.isSpace x = false /\ x <> 45 /\ x <> 43 /\ Chars.isDigit x = false) ->
        suffixNumber (stem ++ js "_" ++ t) = 0%Z)
  /\ nextResultsSheetName sheetsOfExample = js "AI_Results_4"
  /\ map sheetName
       (worksheets
          (writeResult (js "total") true (Some (js "A1")) false
             {| worksheets :=
                  map (fun n => {| sheetName := n; cells := ∅; images := [] |})
                    sheetsOfExample;
                activeSheet := 0 |}).1)
     = sheetsOfExample ++ [js "AI_Results_4"].
Proof.
  assert (Hgen : forall names m rest,
             In m names -> m = js "AI_Results" ++ rest ->
             (forall n rest, In n names -> n = js "AI_Results" ++ rest ->
                             (Z.abs (suffixNumber n) < 2 ^ 53)%Z) ->
             exists m' rest',
               In m' names /\ m' = js "AI_Results" ++ rest'
               /\ (forall n rest, In n names -> n = js "AI_Results" ++ rest ->
                                  (suffixNumber n <= suffixNumber m')%Z)
               /\ nextResultsSheetName names
                  = js "AI_Results_" ++ ZToString (suffixNumber m' + 1)).
  { intros names m rest Hm Hrest Hb.
    destruct (nextResultsIndex_max names m Hm) as (m' & Hm' & Hp' & Hle & _ & Hname).
    - apply startsWith_spec. now exists rest.
    - intros n Hn Hp. apply startsWith_spec in Hp as [r Hr]. exact (Hb n r Hn Hr).
    - apply startsWith_spec in Hp' as [rest' Hr'].
      exists m', rest'. split; [assumption |]. split; [assumption |].
      split; [| assumption].
      intros n r Hn Hr. apply Hle; [assumption |]. apply startsWith_spec. now exists r. }
  split; [| split; [| split; [| split; [| split; [| split]]]]].
  - intros names Hno. unfold nextResultsSheetName, nextResultsIndex.
    rewrite filter_none; [reflexivity |].
    intros n Hn. destruct (startsWith n resultsPrefix) eqn:E; [| reflexivity].
    apply startsWith_spec in E as [rest Hr]. now destruct (Hno n rest Hn).
  - intros names num Hshape m rest Hm Hrest.
    assert (Hnum : forall n rest, In n names -> n = js "AI_Results" ++ rest ->
                                  suffixNumber n = num n).
    { intros n r Hn Hr. destruct (Hshape n r Hn Hr) as [[stem Hs] Hb].
      rewrite Hs at 1. rewrite suffixNumber_decimal. apply round_exact. lia. }
    destruct (Hgen names m rest Hm Hrest) as (m' & rest' & Hm' & Hr' & Hle & Hname).
    { intros n r Hn Hr. rewrite (Hnum n r Hn Hr). now apply (Hshape n r). }
    exists m', rest'. split; [assumption |]. split; [assumption |]. split.
    + intros n r Hn Hr. rewrite <- (Hnum n r Hn Hr), <- (Hnum m' rest' Hm' Hr').
      now apply (Hle n r).
    + now rewrite <- (Hnum m' rest' Hm' Hr').
  - exact Hgen.
  - intros stem z Hz. rewrite suffixNumber_decimal. apply round_exact. lia.
  - exact suffixNumber_no_number.
  - vm_compute. reflexivity.
  - vm_compute. reflexivity.
Qed.

(** C5 as stated fails from 2^53 on, where adding 1 to a Number is not
    exact: beside a sheet [AI_Results_9007199254740992] the name minted is
    that very name, not [AI_Results_9007199254740993], and the host refuses
    the sheet. *)
Lemma next_results_sheet_name_repeats :
  let name := js "AI_Results_9007199254740992" in
  let wb := {| worksheets := [{| sheetName := name; cells := ∅; images := [] |}];
               activeSheet := 0 |} in
  suffixNumber name = 9007199254740992%Z
  /\ nextResultsSheetName [name] = name
  /\ nextResultsSheetName [name] <> js "AI_Results_9007199254740993"
  /\ writeResult (js "total") true (Some (js "A1")) false wb
     = (wb, Throw (HostError ItemAlreadyExists)).
Proof.
  cbv zeta. split; [vm_compute; reflexivity |]. split; [vm_compute; reflexivity |].
  split; [vm_compute; discriminate | vm_compute; reflexivity].
Qed.

(** X9: the name minted for a new results sheet is the name of no
    existing sheet (compared exactly), as long as the numbers after the last
    underscore of the results sheets are integers that binary64 numbers
    represent exactly. *)
Theorem nextResultsSheetName_fresh (names : list jsstring) :
  (forall n, In n names -> startsWith n resultsPrefix = true ->
             (Z.abs (suffixNumber n) < 2 ^ 53 - 1)%Z) ->
  ~ In (nextResultsSheetName names) names.
Proof.
  intros Hb Hin.
  destruct (List.filter (fun n => startsWith n resultsPrefix) names)
    as [|m ms] eqn:E.
  - assert (Hname : nextResultsSheetName names = js "AI_Results_1").
    { unfold nextResultsSheetName, nextResultsIndex. now rewrite E. }
    rewrite Hname in Hin.
    assert (Hm : In (js "AI_Results_1")
                   (List.filter (fun n => startsWith n resultsPrefix) names))
      by (apply filter_In; auto).
    rewrite E in Hm. destruct Hm.
  - assert (Hm : In m (List.filter (fun n => startsWith n resultsPrefix) names))
      by (rewrite E; now left).
    apply filter_In in Hm as [Hm Hp].
    destruct (nextResultsIndex_max names m Hm Hp) as (m' & Hm' & Hp' & Hle & _ & Hname).
    { intros n Hn Hpn. specialize (Hb n Hn Hpn). lia. }
    rewrite Hname in Hin. specialize (Hb m' Hm' Hp').
    assert (Hpre : startsWith (js "AI_Results_" ++ ZToString (suffixNumber m' + 1))
                     resultsPrefix = true).
    { change (js "AI_Results_" ++ ZToString (suffixNumber m' + 1))
        with (resultsPrefix ++ 95 :: ZToString (suffixNumber m' + 1)).
      apply startsWith_app. }
    specialize (Hle _ Hin Hpre).
    rewrite suffixNumber_minted, round_exact in Hle by lia. lia.
Qed.

Lemma nextResultsSheetName_fresh_witness :
  ~ In (js "AI_Results_4") sheetsOfExample.
Proof.
  apply (nextResultsSheetName_fresh sheetsOfExample).
  intros n [<- | [<- | [<- | []]]] _; vm_compute; reflexivity.
Defined.

Lemma next_results_sheet_name_witness :
  nextResultsSheetName [js "Other"; js "Sheet1"] = js "AI_Results_1"
  /\ exists m', In m' sheetsOfExample /\ suffixNumber m' = 3%Z
       /\ nextResultsSheetName sheetsOfExample
          = js "AI_Results_" ++ ZToString (suffixNumber m' + 1).
Proof.
  destruct next_results_sheet_name as (H1 & H2 & _).
  split.
  - apply H1. intros n rest [<- | [<- | []]]; discriminate.
  - destruct (H2 sheetsOfExample suffixNumber) with (m := js "AI_Results_3") (rest := js "_3")
      as (m' & rest' & Hin & Hp & Hmax & Hname).
    + intros n rest [<- | [<- | [<- | []]]] Hr.
      * split; [now exists (js "AI_Results") | vm_compute; reflexivity].
      * split; [now exists (js "AI_Results") | vm_compute; reflexivity].
      * discriminate Hr.
    + right; left; reflexivity.
    + reflexivity.
    + exists m'. split; [assumption |]. split; [| assumption].
      assert (H3 : (3 <= suffixNumber m')%Z).
      { apply (Hmax (js "AI_Results_3") (js "_3")); [right; left |]; reflexivity. }
      destruct Hin as [<- | [<- | [<- | []]]]; try reflexivity;
        vm_compute in H3; try (exfalso; apply H3; reflexivity); discriminate.
Defined.

(** ** Blocks of cells *)

Lemma foldr_imap_shift {A B} (f : nat -> A -> B -> B) (b : B) (l : list A) (o : nat) :
  foldr (fun '(j, v) acc => f j v acc) b (imap (fun j => pair (o + j)%nat) l)
  = foldr (fun '(j, v) acc => f (o + j)%nat v acc) b (imap pair l).
Proof.
  revert f o. induction l as [|x l IH]; intros f o; [reflexivity |].
  rewrite !imap_cons. cbn [foldr]. rewrite Nat.add_0_r. f_equal.
  rewrite (imap_ext _ (fun j => pair (S o + j)%nat) l)
    by (intros; unfold compose; f_equal; lia).
  rewrite (IH f (S o)).
  rewrite (imap_ext (pair ∘ S) (fun j => pair (1 + j)%nat) l) by reflexivity.
  rewrite (IH (fun j => f (o + j)%nat) 1%nat). apply foldr_ext; [| reflexivity | reflexivity].
  intros [j v] acc. f_equal. lia.
Qed.

Lemma putRow_cons (r c0 : nat) (v : CellValue) (row : list CellValue)
    (m : gmap (nat * nat) CellValue) :
  Host.putRow r c0 (v :: row) m
  = putCell (r, c0) v (Host.putRow r (S c0) row m).
Proof.
  unfold Host.putRow. rewrite imap_cons. cbn [foldr]. rewrite Nat.add_0_r. f_equal.
  rewrite (imap_ext (pair ∘ S) (fun j => pair (1 + j)%nat) row) by reflexivity.
  rewrite (foldr_imap_shift (fun j v acc => putCell (r, (c0 + j)%nat) v acc)).
  apply foldr_ext; [| reflexivity | reflexivity].
  intros [j x] acc. do 2 f_equal. lia.
Qed.

Lemma putRows_cons (r0 c0 : nat) (row : list CellValue) (rows : list (list CellValue))
    (m : gmap (nat * nat) CellValue) :
  Host.putRows r0 c0 (row :: rows) m
  = Host.putRow r0 c0 row (Host.putRows (S r0) c0 rows m).
Proof.
  unfold Host.putRows. rewrite imap_cons. cbn [foldr]. rewrite Nat.add_0_r. f_equal.
  rewrite (imap_ext (pair ∘ S) (fun j => pair (1 + j)%nat) rows) by reflexivity.
  rewrite (foldr_imap_shift (fun i row acc => Host.putRow (r0 + i)%nat c0 row acc)).
  apply foldr_ext; [| reflexivity | reflexivity].
  intros [j x] acc. f_equal. lia.
Qed.

Lemma putCell_same (k : nat * nat) (v : CellValue) (m : gmap (nat * nat) CellValue) :
  putCell k v m !! k = assigned v (m !! k).
Proof.
  destruct v as [|[|x s]|x|b]; simpl; try reflexivity;
    first [now apply lookup_insert_eq | now apply lookup_delete_eq].
Qed.

Lemma putRow_lookup (r c0 : nat) (row : list CellValue)
    (m : gmap (nat * nat) CellValue) (r' c' : nat) :
  Host.putRow r c0 row m !! (r', c')
  = if decide (r' = r /\ (c0 <= c' < c0 + length row)%nat)
    then assigned (default VNull (row !! (c' - c0)%nat)) (m !! (r', c'))
    else m !! (r', c').
Proof.
  revert c0. induction row as [|v row IH]; intros c0.
  - change (Host.putRow r c0 [] m) with m. destruct (decide _) as [[_ H] |]; [simpl in H; lia | reflexivity].
  - rewrite putRow_cons. destruct (decide ((r', c') = (r, c0))) as [[= -> ->] | Hne].
    + rewrite putCell_same, IH.
      destruct (decide (r = r /\ (S c0 <= c0 < _)%nat)) as [[_ H] |]; [lia |].
      destruct (decide _) as [_ | H]; [| simpl in H; lia].
      now rewrite Nat.sub_diag.
    + rewrite putCell_other by congruence. rewrite IH.
      destruct (decide (r' = r /\ (S c0 <= c' < S c0 + length row)%nat)) as [[-> H] | H1];
        destruct (decide _) as [[E H2] | H2]; simpl in *; try reflexivity; try lia.
      * replace (c' - c0)%nat with (S (c' - S c0)) by lia. reflexivity.
      * exfalso. apply H1. split; [assumption |].
        assert (c' <> c0) by congruence. lia.
Qed.

Lemma putRows_lookup (r0 c0 : nat) (rows : list (list CellValue))
    (m : gmap (nat * nat) CellValue) (r' c' : nat) :
  Host.putRows r0 c0 rows m !! (r', c')
  = match rows !! (r' - r0)%nat with
    | Some row =>
        if decide ((r0 <= r')%nat /\ (c0 <= c' < c0 + length row)%nat)
        then assigned (default VNull (row !! (c' - c0)%nat)) (m !! (r', c'))
        else m !! (r', c')
    | None => m !! (r', c')
    end.
Proof.
  revert r0. induction rows as [|row rows IH]; intros r0.
  - reflexivity.
  - rewrite putRows_cons, putRow_lookup, IH.
    destruct (decide (r' = r0 /\ _)) as [[-> H] | H1].
    + rewrite Nat.sub_diag. cbn [lookup list_lookup].
      destruct (decide _) as [_ | H2]; [| lia].
      destruct (rows !! (r0 - S r0)%nat) as [row' |] eqn:E; [| reflexivity].
      destruct (decide _) as [[H3 _] | _]; [lia | reflexivity].
    + destruct (Nat.lt_trichotomy r' r0) as [Hlt | [-> | Hgt]].
      * replace (r' - S r0)%nat with 0%nat by lia.
        replace (r' - r0)%nat with 0%nat by lia. cbn [lookup list_lookup].
        destruct (decide _) as [[H3 _] | _]; [lia |].
        destruct rows as [|row' rows']; [reflexivity |]. cbn [lookup list_lookup].
        destruct (decide _) as [[H3 _] | _]; [lia | reflexivity].
      * rewrite Nat.sub_diag. cbn [lookup list_lookup].
        destruct (decide _) as [[_ H3] | _]; [exfalso; apply H1; auto |].
        destruct (rows !! (r0 - S r0)%nat) as [row' |] eqn:E; [| reflexivity].
        destruct (decide _) as [[H3 _] | _]; [lia | reflexivity].
      * replace (r' - r0)%nat with (S (r' - S r0)) by lia. cbn [lookup list_lookup].
        destruct (rows !! (r' - S r0)%nat) as [row' |]; [| reflexivity].
        destruct (decide _) as [[H3 H4] | H3];
          destruct (decide _) as [[H5 H6] | H5]; try reflexivity; lia.
Qed.

(** A block leaves the cells left of it and the rows above it alone. *)
Lemma putRows_outside (r0 c0 : nat) (rows : list (list CellValue))
    (m : gmap (nat * nat) CellValue) (r' c' : nat) :
  (r' < r0)%nat \/ (c' < c0)%nat ->
  Host.putRows r0 c0 rows m !! (r', c') = m !! (r', c').
Proof.
  intros H. rewrite putRows_lookup.
  destruct (rows !! (r' - r0)%nat); [| reflexivity].
  destruct (decide _) as [[H1 H2] |]; [lia | reflexivity].
Qed.

(** ** The first used row *)

Lemma usedBounds_minRow (ws : Worksheet) (b : Bounds) :
  usedBounds ws = Some b -> exists c, filled (cellAt ws (minRow b) c) = true.
Proof.
  unfold usedBounds, cellAt. intros Hb.
  assert (H : exists k v, cells ws !! k = Some v /\ filled v = true /\ k.1 = minRow b).
  { revert b Hb.
    apply (map_fold_weak_ind
             (fun acc (m : gmap (nat * nat) CellValue) =>
                forall b, acc = Some b ->
                  exists k v, m !! k = Some v /\ filled v = true /\ k.1 = minRow b)).
    - discriminate.
    - intros i x m acc Hi IH b. unfold extend. destruct (filled x) eqn:Hx.
      + destruct acc as [b0 |]; intros [= <-]; cbn [minRow].
        * destruct (Nat.min_spec (minRow b0) i.1) as [[_ ->] | [_ ->]].
          -- destruct (IH b0 eq_refl) as (k & v & Hk & Hv & E).
             exists k, v. rewrite lookup_insert_ne by congruence. auto.
          -- exists i, x. now rewrite lookup_insert_eq.
        * exists i, x. now rewrite lookup_insert_eq.
      + intros ->. destruct (IH b eq_refl) as (k & v & Hk & Hv & E).
        exists k, v. rewrite lookup_insert_ne by congruence. auto. }
  destruct H as ([r c] & v & Hk & Hv & E). simpl in E. subst r.
  exists c. now rewrite Hk.
Qed.

Lemma used_first_row (ws : Worksheet) (b : Bounds) :
  usedBounds ws = Some b ->
  firstRowOf (getUsedRangeOrNullObject ws)
  = Some (map (cellAt ws (minRow b)) (seq (minCol b) (maxCol b - minCol b + 1))).
Proof.
  intros Hb. unfold getUsedRangeOrNullObject. rewrite Hb. cbn [fmap option_fmap option_map].
  unfold firstRowOf, rangeOf. cbn [values].
  replace (maxRow b - minRow b + 1)%nat with (S (maxRow b - minRow b)) by lia.
  reflexivity.
Qed.

Lemma used_first_row_filled (ws : Worksheet) (b : Bounds) :
  usedBounds ws = Some b ->
  existsb filled (map (cellAt ws (minRow b)) (seq (minCol b) (maxCol b - minCol b + 1)))
  = true.
Proof.
  intros Hb. destruct (usedBounds_minRow ws b Hb) as [c Hc].
  destruct (usedBounds_covers ws _ _ Hc) as (b' & Hb' & _ & Hcol).
  assert (b' = b) as -> by congruence.
  apply existsb_exists. exists (cellAt ws (minRow b) c). split; [| assumption].
  apply in_map, in_seq. lia.
Qed.

Lemma used_row_count (ws : Worksheet) (b : Bounds) :
  usedBounds ws = Some b ->
  length (valuesOrEmpty (getUsedRangeOrNullObject ws)) = (maxRow b - minRow b + 1)%nat
  /\ rowCountOrZero (getUsedRangeOrNullObject ws) = (maxRow b - minRow b + 1)%nat.
Proof.
  intros Hb. unfold getUsedRangeOrNullObject. rewrite Hb. cbn.
  now rewrite length_map, length_seq.
Qed.

(** ** Regions that a writer leaves alone *)

Lemma sameOn_refl (S : nat -> nat -> Prop) (h : nat) (wb : Workbook) : sameOn S h wb wb.
Proof. intros h' ws Hws. eauto. Qed.

Lemma sameOn_trans (S : nat -> nat -> Prop) (h : nat) (wb1 wb2 wb3 : Workbook) :
  sameOn S h wb1 wb2 -> sameOn S h wb2 wb3 -> sameOn S h wb1 wb3.
Proof.
  intros H12 H23 h' ws Hws.
  destruct (H12 h' ws Hws) as (ws2 & Hws2 & Hne2 & Hc2).
  destruct (H23 h' ws2 Hws2) as (ws3 & Hws3 & Hne3 & Hc3).
  exists ws3. split; [assumption |]. split.
  - intros Hne. rewrite Hne3, Hne2; auto.
  - intros r c Hs. rewrite Hc3, Hc2; auto.
Qed.

Lemma same_sameOn {A} (S : nat -> nat -> Prop) (h : nat) (m : Excel A) :
  ESame m -> ESameOn S h m.
Proof. intros H wb. rewrite H. apply sameOn_refl. Qed.

Lemma bind_sameOn {A B} (S : nat -> nat -> Prop) (h : nat) (m : Excel A)
    (k : A -> Excel B) :
  ESameOn S h m -> (forall a, ESameOn S h (k a)) -> ESameOn S h (bind m k).
Proof.
  intros Hm Hk wb. unfold bind. specialize (Hm wb).
  destruct (m wb) as [wb' [a | e]]; simpl in *; [| assumption].
  eapply sameOn_trans; [eassumption | apply Hk].
Qed.

Lemma setCells_sameOn (S : nat -> nat -> Prop) (h : nat)
    (f : gmap (nat * nat) CellValue -> gmap (nat * nat) CellValue) :
  (forall m r c, S r c -> f m !! (r, c) = m !! (r, c)) ->
  ESameOn S h (Host.setCells h f).
Proof.
  intros Hf wb. unfold Host.setCells.
  destruct (worksheets wb !! h) as [ws |] eqn:Hws; [| apply sameOn_refl].
  intros h' ws0 Hws0. cbn [fst withSheet worksheets].
  destruct (Nat.eq_dec h' h) as [-> | Hne].
  - rewrite list_lookup_insert_eq by now apply lookup_lt_Some in Hws.
    eexists. split; [reflexivity |]. split; [congruence |].
    intros r c Hs. assert (ws0 = ws) as -> by congruence. cbn [withCells cells]. auto.
  - rewrite list_lookup_insert_ne by congruence. eauto.
Qed.

Lemma writeBlock_sameOn (S : nat -> nat -> Prop) (h r0 c0 nrows ncols : nat)
    (rows : list (list CellValue)) :
  (forall r c, S r c -> (r < r0)%nat \/ (c < c0)%nat) ->
  ESameOn S h (Host.writeBlock h r0 c0 nrows ncols rows).
Proof.
  intros Hout. unfold Host.writeBlock.
  destruct (_ && _); [| apply same_sameOn, throw_same].
  apply setCells_sameOn. intros m r c Hs. apply putRows_outside. auto.
Qed.

(** Cells that hold a value and lie in a region left alone are kept. *)
Lemma sameOn_keeps (S : nat -> nat -> Prop) (h : nat) (wb wb' : Workbook) :
  sameOn S h wb wb' ->
  (forall ws r c, worksheets wb !! h = Some ws -> filled (cellAt ws r c) = true -> S r c) ->
  keeps wb wb'.
Proof.
  intros Hsame Hin h' ws r c Hws Hf.
  destruct (Hsame h' ws Hws) as (ws' & Hws' & Hne & Hc).
  exists ws'. split; [assumption |].
  destruct (Nat.eq_dec h' h) as [-> | Hneq].
  - unfold cellAt. now rewrite Hc by eauto.
  - now rewrite Hne.
Qed.

(** ** The append below the data *)

Lemma vertical_append_keeps_anchored
    (hs : list jsstring) (rows : list (list CellValue)) (wb : Workbook) :
  (forall ws b, worksheets wb !! activeSheet wb = Some ws ->
                usedBounds ws = Some b -> minRow b = 0%nat) ->
  keeps wb (appendUploadToActiveSheetVertical hs rows wb).1.
Proof.
  intros Hanchored. unfold appendUploadToActiveSheetVertical.
  unfold bind at 1, Host.getActiveWorksheet.
  unfold bind at 1, Host.usedRange, bind at 1, Host.sheet.
  destruct (worksheets wb !! activeSheet wb) as [ws |] eqn:Hws; [| apply keeps_refl].
  cbn [ret]. destruct (usedBounds ws) as [b |] eqn:Hb.
  - pose proof (Hanchored ws b eq_refl Hb) as Hrow.
    rewrite (used_first_row ws b Hb), (used_first_row_filled ws b Hb).
    destruct (used_row_count ws b Hb) as [-> _]. unfold bind at 1. cbn [ret].
    apply (sameOn_keeps (fun r c => (r < maxRow b - minRow b + 1)%nat) (activeSheet wb)).
    + apply (bind_sameOn _ _ (Host.writeBlock _ _ _ _ _ _)).
      * apply writeBlock_sameOn. auto.
      * intros _. apply same_sameOn, ret_same.
    + intros ws' r c Hws' Hf. assert (ws' = ws) as -> by congruence.
      destruct (usedBounds_covers ws r c Hf) as (b' & Hb' & Hr & _).
      assert (b' = b) as -> by congruence. lia.
  - unfold getUsedRangeOrNullObject. rewrite Hb. cbn [fmap option_fmap option_map firstRowOf].
    apply (sameOn_keeps (fun _ _ => False) (activeSheet wb)).
    + apply (bind_sameOn _ _ (_ ;;; ret 1%nat)).
      * apply bind_sameOn; [apply writeBlock_sameOn; tauto |].
        intros _. apply same_sameOn, ret_same.
      * intros startRow. apply bind_sameOn; [apply writeBlock_sameOn; tauto |].
        intros _. apply same_sameOn, ret_same.
    + intros ws' r c Hws' Hf. assert (ws' = ws) as -> by congruence.
      now rewrite (usedBounds_None ws Hb) in Hf.
Qed.

Lemma activeSheetIsEmpty_cases (wb wb' : Workbook) (isEmpty : bool) :
  activeSheetIsEmpty wb = (wb', Ok isEmpty) ->
  wb' = wb
  /\ (isEmpty = true ->
      forall ws, worksheets wb !! activeSheet wb = Some ws -> usedBounds ws = None).
Proof.
  unfold activeSheetIsEmpty. exec.
  destruct (worksheets wb !! activeSheet wb) as [ws |]; [| discriminate].
  exec. intros [= <- <-]. split; [reflexivity |].
  intros Hz ws' [= <-]. destruct (usedBounds ws) as [b |] eqn:Hb; [| reflexivity].
  destruct (used_row_count ws b Hb) as [_ Hn]. rewrite Hn in Hz.
  apply Nat.eqb_eq in Hz. lia.
Qed.

(** X10: "Append below the data" keeps every cell that holds a value when
    the active sheet is empty or its used range starts in row 1. *)
Theorem append_below_keeps (st : AppState) :
  (forall ws b, worksheets (workbook st) !! activeSheet (workbook st) = Some ws ->
                usedBounds ws = Some b -> minRow b = 0%nat) ->
  keeps (workbook st) (workbook (uploadAppendBelow st)).
Proof.
  intros Hanchored. unfold uploadAppendBelow.
  destruct (pendingUpload st) as [up |]; [| apply keeps_refl].
  apply (hbind_keeps_at (A := unit) (B := unit));
    [| intros st' _ _; apply setPendingUpload_keeps].
  apply tryCatch_keeps_at; [| intros e; apply say_keeps].
  apply hbind_keeps_at.
  - apply excelRun_keeps, same_keeps. unfold activeSheetIsEmpty. auto with keeps.
  - intros st' isEmpty Heq.
    assert (Hst : workbook st' = workbook st
                  /\ (isEmpty = true ->
                      forall ws, worksheets (workbook st) !! activeSheet (workbook st)
                                 = Some ws -> usedBounds ws = None)).
    { unfold excelRun in Heq.
      destruct (activeSheetIsEmpty (workbook st)) as [wb' r] eqn:E.
      injection Heq as <- ->. apply (activeSheetIsEmpty_cases _ _ _ E). }
    destruct Hst as [Hwb Hempty]. rewrite <- Hwb in Hempty, Hanchored.
    destruct isEmpty.
    + apply hbind_keeps_at; [| intros st'' res _; apply say_keeps].
      unfold excelRun.
      pose proof (writeUploadToEmptySheet_keeps (headers up) (rows up) (workbook st')
                    (Hempty eq_refl)) as Hk.
      now destruct (writeUploadToEmptySheet _ _ _).
    + apply hbind_keeps_at.
      * unfold excelRun.
        pose proof (vertical_append_keeps_anchored (headers up) (rows up)
                      (workbook st') Hanchored) as Hk.
        now destruct (appendUploadToActiveSheetVertical _ _ _).
      * intros st'' [n | mode start | reason] _; apply say_keeps.
Qed.

(** ** The horizontal merge *)

Lemma used_first_row_lookup (ws : Worksheet) (b : Bounds) (j : nat) (v : CellValue) :
  map (cellAt ws (minRow b)) (seq (minCol b) (maxCol b - minCol b + 1)) !! j = Some v ->
  v = cellAt ws (minRow b) (minCol b + j).
Proof.
  rewrite list_lookup_fmap. intros H.
  destruct (seq _ _ !! j) as [c |] eqn:E; [| discriminate].
  apply lookup_seq in E as [-> _]. now injection H.
Qed.

(** X11: when the used range of the active sheet starts at A1, the
    horizontal merge leaves every cell of every column up to the last header
    of row 1 as it was, whether the writes succeed or not. *)
Theorem merge_keeps_header_columns
    (hs : list jsstring) (rows : list (list CellValue)) (wb : Workbook)
    (ws : Worksheet) (b : Bounds) (r c c' : nat) :
  worksheets wb !! activeSheet wb = Some ws ->
  usedBounds ws = Some b -> minRow b = 0%nat -> minCol b = 0%nat ->
  (c <= c')%nat -> filled (cellAt ws 0 c') = true ->
  exists ws',
    worksheets (appendUploadToActiveSheet hs rows wb).1 !! activeSheet wb = Some ws'
    /\ cellAt ws' r c = cellAt ws r c.
Proof.
  intros Hws Hb Hrow Hcol Hle Hf. unfold appendUploadToActiveSheet.
  unfold bind at 1, Host.getActiveWorksheet.
  unfold bind at 1, Host.usedRange, bind at 1, Host.sheet. rewrite Hws. cbn [ret].
  rewrite (used_first_row ws b Hb), Hrow, Hcol, Nat.sub_0_r.
  set (firstRow := map (cellAt ws 0) (seq 0 (maxCol b + 1))).
  destruct (usedBounds_covers ws 0 c' Hf) as (b' & Hb' & _ & Hc').
  assert (b' = b) as -> by congruence.
  assert (Hin : firstRow !! c' = Some (cellAt ws 0 c')).
  { unfold firstRow. rewrite list_lookup_fmap, lookup_seq_lt by lia. reflexivity. }
  destruct (lastFilledIndex firstRow) as [i |] eqn:El;
    [| rewrite (lastFilledIndex_none _ El c' _ Hin) in Hf; discriminate].
  destruct (lastFilledIndex_some _ _ El) as [_ Hafter].
  assert (Hi : (c' <= i)%nat).
  { destruct (Nat.le_gt_cases c' i) as [| Hgt]; [assumption |].
    rewrite (Hafter c' _ Hgt Hin) in Hf. discriminate. }
  match goal with
  | |- context [fst (?m wb)] =>
      assert (Hsame : sameOn (fun _ col => (col < i + 1)%nat) (activeSheet wb) wb (m wb).1)
  end.
  { apply bind_sameOn; [apply writeBlock_sameOn; auto |]. intros _.
    apply bind_sameOn; [| intros _; apply same_sameOn, ret_same].
    destruct (_ <? _)%nat; [apply writeBlock_sameOn; auto | apply same_sameOn, ret_same]. }
  destruct (Hsame _ ws Hws) as (ws' & Hws' & _ & Hcells).
  exists ws'. split; [assumption |]. unfold cellAt. rewrite Hcells by lia. reflexivity.
Qed.

(** ** The write to an empty sheet *)

(** X12: on an active sheet with a cell that holds a value
    [writeUploadToEmptySheet] writes nothing and answers
    [sheet_not_empty]. *)
Theorem writeUploadToEmptySheet_refuses
    (hs : list jsstring) (rows : list (list CellValue)) (wb : Workbook)
    (ws : Worksheet) (r c : nat) :
  worksheets wb !! activeSheet wb = Some ws ->
  filled (cellAt ws r c) = true ->
  writeUploadToEmptySheet hs rows wb = (wb, Ok (NotWritten (js "sheet_not_empty"))).
Proof.
  intros Hws Hf. destruct (usedBounds_covers ws r c Hf) as (b & Hb & _).
  destruct (used_row_count ws b Hb) as [_ Hn].
  unfold writeUploadToEmptySheet. exec. rewrite Hws. exec. rewrite Hn.
  destruct (Nat.ltb_spec 0 (maxRow b - minRow b + 1)); [reflexivity | lia].
Qed.

(** ** A sheet made from an upload *)

Lemma writeBlock_ok (h r0 c0 nrows ncols : nat) (rows : list (list CellValue))
    (wb wb' : Workbook) :
  Host.writeBlock h r0 c0 nrows ncols rows wb = (wb', Ok tt) ->
  length rows = nrows
  /\ Forall (fun row => length row = ncols) rows
  /\ exists ws, worksheets wb !! h = Some ws
                /\ wb' = withSheet wb h (withCells ws (Host.putRows r0 c0 rows (cells ws))).
Proof.
  unfold Host.writeBlock. destruct (_ && _) eqn:Hc; [| discriminate].
  apply andb_prop in Hc as [[_ Hlen]%andb_prop Hall].
  unfold Host.setCells. destruct (worksheets wb !! h) as [ws |]; [| discriminate].
  intros [= <-]. split; [now apply Nat.eqb_eq |]. split; [| eauto].
  apply Forall_forall. intros row Hrow. rewrite forallb_forall in Hall.
  apply Nat.eqb_eq, Hall. now apply list_elem_of_In.
Qed.

Lemma length_headerCells (hs : list jsstring) : length (headerCells hs) = length hs.
Proof. apply length_map. Qed.

Lemma default_assigned_empty (v : CellValue) :
  default (VStr []) (assigned v None) = stored v.
Proof. now destruct v as [|[|x s]|x|b]. Qed.

(** X13: when [createSheetFromUpload] succeeds, the workbook has one more
    sheet, last, with the name asked for; the active sheet is the same;
    row 1 of the new sheet holds the headers, the rows below hold the rows of
    the upload cell by cell (null and empty values leave a cell empty), and
    the other cells are empty. *)
Theorem createSheetFromUpload_round_trip
    (name : jsstring) (hs : list jsstring) (rows : list (list CellValue))
    (wb wb' : Workbook) (res : UploadResult) :
  createSheetFromUpload name hs rows wb = (wb', Ok res) ->
  res = Created name
  /\ activeSheet wb' = activeSheet wb
  /\ exists ws',
       worksheets wb' = worksheets wb ++ [ws']
       /\ sheetName ws' = name /\ images ws' = []
       /\ (forall j h, hs !! j = Some h -> cellAt ws' 0 j = VStr h)
       /\ (forall i j row v, rows !! i = Some row -> row !! j = Some v ->
                             cellAt ws' (S i) j = stored v)
       /\ (forall i j, (length rows < i)%nat \/ (length hs <= j)%nat ->
                       cellAt ws' i j = VStr []).
Proof.
  unfold createSheetFromUpload. unfold bind at 1.
  destruct (add_cases name wb) as [[code ->] | ->]; [discriminate |].
  set (blank := {| sheetName := name; cells := ∅; images := [] |}).
  set (wb0 := {| worksheets := worksheets wb ++ [blank]; activeSheet := activeSheet wb |}).
  set (n := length (worksheets wb)).
  assert (Hn : worksheets wb0 !! n = Some blank) by apply new_sheet_lookup.
  unfold bind at 1.
  destruct (Host.writeBlock n 0 0 1 (length hs) [headerCells hs] wb0)
    as [wb1 [[] | e]] eqn:E1; [| discriminate].
  apply writeBlock_ok in E1 as (_ & _ & ws & Hws & ->).
  assert (ws = blank) as -> by congruence.
  set (m1 := Host.putRows 0 0 [headerCells hs] (cells blank)).
  assert (Hlast : forall m, <[n := withCells blank m]> (worksheets wb0)
                            = worksheets wb ++ [withCells blank m]).
  { intros m. unfold wb0, n. cbn [worksheets].
    rewrite insert_app_r_alt, Nat.sub_diag by lia. reflexivity. }
  assert (Hm1 : forall i j, m1 !! (i, j)
                  = if decide (i = 0%nat /\ (j < length hs)%nat)
                    then assigned (default VNull (headerCells hs !! j)) None
                    else None).
  { intros i j. unfold m1. rewrite putRows_lookup. cbn [cells blank].
    rewrite lookup_empty.
    destruct i as [|i]; cbn [lookup list_lookup Nat.sub].
    - rewrite length_headerCells, Nat.sub_0_r.
      repeat case_decide; try reflexivity; lia.
    - replace (S i - 0)%nat with (S i) by lia. cbn [lookup list_lookup].
      destruct i; cbn [lookup list_lookup]; case_decide; first [lia | reflexivity]. }
  unfold bind at 1.
  destruct (Nat.ltb_spec 0 (length rows)) as [Hpos | Hzero].
  - destruct (Host.writeBlock n 1 0 (length rows) (length hs) rows _)
      as [wb2 [[] | e]] eqn:E2; [| discriminate].
    apply writeBlock_ok in E2 as (_ & Hshape & ws & Hws2 & ->).
    cbn [withSheet worksheets] in Hws2.
    rewrite list_lookup_insert_eq in Hws2
      by (unfold wb0, n; cbn [worksheets]; rewrite length_app; simpl; lia).
    injection Hws2 as <-. cbn [withCells cells sheetName images].
    intros [= <- <-]. split; [reflexivity |]. split; [reflexivity |].
    eexists. split.
    { cbn [withSheet worksheets]. rewrite list_insert_insert_eq. apply Hlast. }
    cbn [withCells sheetName images cells blank]. split; [reflexivity |].
    split; [reflexivity |].
    assert (Hm2 : forall i j, Host.putRows 1 0 rows m1 !! (i, j)
              = match rows !! (i - 1)%nat with
                | Some row =>
                    if decide ((1 <= i)%nat /\ (j < length hs)%nat)
                    then assigned (default VNull (row !! j)) (m1 !! (i, j))
                    else m1 !! (i, j)
                | None => m1 !! (i, j)
                end).
    { intros i j. rewrite putRows_lookup. destruct (rows !! (i - 1)%nat) as [row |] eqn:Er;
        [| reflexivity].
      rewrite Forall_forall in Hshape.
      rewrite (Hshape row) by (eapply list_elem_of_lookup_2; eassumption).
      rewrite Nat.sub_0_r.
      repeat case_decide; try reflexivity; lia. }
    split; [| split].
    + intros j h Hh. unfold cellAt. cbn [cells]. rewrite Hm2. cbn [Nat.sub].
      assert (Hj : (j < length hs)%nat) by now apply lookup_lt_Some in Hh.
      assert (E0 : m1 !! (0%nat, j) = assigned (VStr h) None).
      { rewrite Hm1. destruct (decide _) as [_ | H]; [| lia].
        unfold headerCells. now rewrite list_lookup_fmap, Hh. }
      destruct (rows !! 0%nat) as [row |].
      * destruct (decide _) as [[H _] | _]; [lia |]. rewrite E0. now destruct h.
      * rewrite E0. now destruct h.
    + intros i j row v Hrow Hv. unfold cellAt. cbn [cells]. rewrite Hm2.
      replace (S i - 1)%nat with i by lia. rewrite Hrow.
      assert (Hj : (j < length hs)%nat).
      { rewrite Forall_forall in Hshape.
        rewrite <- (Hshape row) by (eapply list_elem_of_lookup_2; eassumption).
        now apply lookup_lt_Some in Hv. }
      destruct (decide _) as [_ | H]; [| lia].
      rewrite Hv, Hm1. destruct (decide _) as [[H _] | _]; [lia |].
      apply default_assigned_empty.
    + intros i j Hout. unfold cellAt. cbn [cells]. rewrite Hm2.
      assert (E0 : m1 !! (i, j) = None).
      { rewrite Hm1. destruct (decide _) as [[-> Hj] | _]; [| reflexivity].
        destruct Hout; lia. }
      destruct (rows !! (i - 1)%nat) as [row |] eqn:Er.
      * destruct (decide _) as [[Hi Hj] | _]; [| now rewrite E0].
        apply lookup_lt_Some in Er. destruct Hout; lia.
      * now rewrite E0.
  - cbn [ret]. intros [= <- <-]. split; [reflexivity |]. split; [reflexivity |].
    eexists. split; [cbn [withSheet worksheets]; apply Hlast |].
    cbn [withCells sheetName images cells blank]. split; [reflexivity |].
    split; [reflexivity |]. split; [| split].
    + intros j h Hh. unfold cellAt. cbn [cells]. rewrite Hm1.
      assert (Hj : (j < length hs)%nat) by now apply lookup_lt_Some in Hh.
      destruct (decide _) as [_ | H]; [| lia].
      unfold headerCells. rewrite list_lookup_fmap, Hh. now destruct h.
    + intros i j row v Hrow. apply lookup_lt_Some in Hrow. lia.
    + intros i j Hout. unfold cellAt. cbn [cells]. rewrite Hm1.
      destruct (decide _) as [[-> Hj] | _]; [| reflexivity].
      destruct Hout; lia.
Qed.

(** ** The append to a results sheet *)

Lemma appendToResultsSheet_keeps_anchored
    (targetSheetName note : jsstring) (wb : Workbook) :
  (forall h ws b, worksheets wb !! h = Some ws ->
                  Host.sameName (sheetName ws) targetSheetName = true ->
                  usedBounds ws = Some b -> minRow b = 0%nat) ->
  keeps wb (appendToResultsSheet targetSheetName note wb).1.
Proof.
  intros Hanchored. unfold appendToResultsSheet.
  unfold bind at 1, Host.getItem, bind at 1, Host.getItemOrNullObject.
  destruct (findIndex _ (worksheets wb)) as [h |] eqn:Hfind; [| apply keeps_refl].
  apply findIndex_spec in Hfind as [(ws & Hws & Hname) _].
  cbn [ret]. unfold bind at 1, Host.usedRange, bind at 1, Host.sheet. rewrite Hws.
  cbn [ret]. unfold bind at 1, Host.writeCell.
  destruct (parseA1 _) as [[r c] |] eqn:Ha; [| apply keeps_refl].
  unfold Host.setCells. rewrite Hws. cbn [fst].
  set (row := rowCountOrZero (getUsedRangeOrNullObject ws)) in *.
  assert (Hr : r = row).
  { assert (Hgrid : N.of_nat (row + 1) <= maxRows).
    { destruct (N.le_gt_cases (N.of_nat (row + 1)) maxRows) as [| Hgt]; [assumption |].
      exfalso. revert Ha. unfold parseA1.
      change (js "A" ++ natToString (row + 1)) with ([65] ++ NToString (N.of_nat (row + 1))).
      rewrite (takeWhile_app Chars.isLetter [65]); [| reflexivity |].
      - rewrite drop_app_length. rewrite NToString_digits, digitsValue_NToString.
        pose proof (NToString_nonempty (N.of_nat (row + 1))).
        destruct (NToString _); [congruence |]. cbn [length].
        destruct (N.leb_spec (N.of_nat (row + 1)) maxRows); [lia |].
        now rewrite andb_false_r.
      - intros x r' E. pose proof (NToString_digits (N.of_nat (row + 1))) as Hd.
        rewrite E in Hd. simpl in Hd. apply andb_prop in Hd as [Hx _].
        now apply digit_not_letter. }
    change (js "A") with (fromCharCode (65 + N.of_nat 0)) in Ha.
    rewrite (parseA1_column_row 0 (row + 1)) in Ha by (try assumption; lia).
    injection Ha as <- <-. lia. }
  subst r. apply keeps_withCells; [assumption |].
  intros r' c' Hf. apply putCell_other. intros [= <- <-].
  destruct (usedBounds_covers ws _ _ Hf) as (b & Hb & Hrow & _).
  pose proof (Hanchored h ws b Hws Hname Hb) as H0.
  destruct (used_row_count ws b Hb) as [_ Hn]. fold row in Hn. lia.
Qed.

Lemma excelRun_same_at {A} (m : Excel A) (st st' : AppState) (a : A) :
  ESame m -> excelRun m st = (st', Ok a) -> workbook st' = workbook st.
Proof.
  intros Hm. unfold excelRun. specialize (Hm (workbook st)).
  destruct (m (workbook st)) as [wb r]. simpl in Hm. subst wb.
  now intros [= <- _].
Qed.

(** X14: in a workbook where the used range of every sheet that has one
    starts in row 1, "Append to AI_Results sheet" keeps every cell that
    holds a value. *)
Theorem results_append_keeps (st : AppState) :
  (forall h ws b, worksheets (workbook st) !! h = Some ws ->
                  usedBounds ws = Some b -> minRow b = 0%nat) ->
  keeps (workbook st) (workbook (handlePlaceOnResultsSheet false st)).
Proof.
  intros Hanchored. unfold handlePlaceOnResultsSheet.
  destruct (pendingPlacement st) as [pp |]; [| apply keeps_refl].
  apply tryCatch_keeps_at; [| intros e; apply say_keeps].
  unfold placeOnResultsSheetBody.
  apply hbind_keeps_at; [apply excelRun_keeps, same_keeps, latestResultsSheet_same |].
  intros st1 latest Hrun.
  pose proof (excelRun_same_at _ _ _ _ (latestResultsSheet_same false) Hrun) as Hwb.
  rewrite <- Hwb in Hanchored. clear Hrun Hwb.
  destruct (nonEmpty latest) as [n |].
  - apply hbind_keeps_at; [apply hret_keeps |]. intros st2 target [= <- <-].
    destruct (nonEmpty (chart pp)) as [c |]; [keeps_steps |].
    apply hbind_keeps_at.
    + unfold excelRun.
      pose proof (appendToResultsSheet_keeps_anchored n (note pp) (workbook st1)) as Hk.
      destruct (appendToResultsSheet _ _ _). apply Hk. eauto.
    + intros st3 putCell _. keeps_steps.
  - destruct (nonEmpty (chart pp)) as [c |].
    + apply (hseq_keeps (A := option jsstring) (B := unit)).
      * apply hseq_keeps; [| intros newName; apply hret_keeps].
        apply excelRun_keeps, bind_keeps; [auto with keeps |]. intros names.
        cbv zeta. apply bind_keeps; [apply add_keeps | intros _; auto with keeps].
      * intros [target |]; keeps_steps.
    + apply (hbind_keeps (fun target => target = None)).
      * keeps_steps.
      * intros st2 st' target. unfold bind, excelRun, say, pushMessage,
          clearPendingPlacement, setPendingPlacement, ret.
        destruct (writeResult _ _ _ _ _) as [wb' [[] | e]]; simpl; congruence.
      * intros target ->. apply hret_keeps.
Qed.

(** ** A second write over a result *)

Lemma resultValue_filled (note : jsstring) : note <> [] -> filled (resultValue note) = true.
Proof.
  intros Hne. destruct (noDigit note) eqn:Hn.
  - rewrite (resultValue_text note Hn). now destruct note.
  - now destruct (resultValue_digit note Hn) as [x ->].
Qed.

(** X15: after [writeResult] has written a note that is not empty, the
    cell holds the value of the note, and a further [writeResult] to the
    same address without the overwrite flag is refused and changes
    nothing. *)
Theorem written_result_is_guarded
    (wb : Workbook) (ws : Worksheet) (note note' : jsstring)
    (cellAddress : option jsstring) (r c : nat) (overwrite : bool) :
  worksheets wb !! activeSheet wb = Some ws ->
  parseA1 (targetAddress cellAddress) = Some (r, c) ->
  overwrite = true \/ filled (cellAt ws r c) = false ->
  note <> [] ->
  let wb' := (writeResult note false cellAddress overwrite wb).1 in
  (exists ws', worksheets wb' !! activeSheet wb' = Some ws'
               /\ cellAt ws' r c = resultValue note)
  /\ writeResult note' false cellAddress false wb'
     = (wb', Throw (occupiedError (targetAddress cellAddress))).
Proof.
  intros Hws Ha Ho Hne wb'. unfold wb'.
  rewrite (writeResult_writes wb ws note cellAddress r c Hws Ha overwrite Ho).
  cbn [fst].
  set (ws1 := withCells ws (putCell (r, c) (resultValue note) (cells ws))).
  assert (Hws1 : worksheets (withSheet wb (activeSheet wb) ws1)
                   !! activeSheet (withSheet wb (activeSheet wb) ws1) = Some ws1).
  { cbn [withSheet worksheets activeSheet].
    apply list_lookup_insert_eq. now apply lookup_lt_Some in Hws. }
  assert (Hcell : cellAt ws1 r c = resultValue note).
  { unfold cellAt, ws1. cbn [withCells cells]. rewrite putCell_same.
    pose proof (resultValue_filled note Hne) as Hf.
    now destruct (resultValue note) as [|[|x s]|x|b]. }
  split; [eauto |].
  apply (writeResult_occupied _ ws1 note' cellAddress r c Hws1 Ha).
  rewrite Hcell. now apply resultValue_filled.
Qed.

(** ** Charts *)

(** X16: inserting a chart image, on the active sheet or on a named one,
    changes no cell and no name of the sheets that were there. *)
Theorem chart_changes_no_cell (chartBase64 : jsstring) (name : option jsstring)
    (wb : Workbook) :
  sameCells wb (insertChartImageOnSheet chartBase64 name wb).1.
Proof.
  assert (Hadd : forall h wb0, sameCells wb wb0 ->
                   sameCells wb (Host.addImage h (stripDataUrl chartBase64) wb0).1).
  { intros h wb0 H0 h' ws Hws. destruct (H0 h' ws Hws) as (ws0 & Hws0 & Hc & Hn).
    unfold Host.addImage. destruct (worksheets wb0 !! h) as [wsh |] eqn:Hh; [| eauto].
    cbn [fst withSheet worksheets]. destruct (Nat.eq_dec h h') as [<- | Hne].
    - rewrite list_lookup_insert_eq by now apply lookup_lt_Some in Hh.
      eexists. split; [reflexivity |]. cbn [withImages cells sheetName].
      assert (wsh = ws0) as -> by congruence. auto.
    - rewrite list_lookup_insert_ne by assumption. eauto. }
  assert (Hrefl : sameCells wb wb) by (intros h ws Hws; eauto).
  unfold insertChartImageOnSheet. unfold bind at 1.
  destruct name as [[|x n] |]; cbn [Host.getActiveWorksheet]; try now apply Hadd.
  unfold bind at 1, Host.getItemOrNullObject.
  destruct (findIndex _ _) as [h |] eqn:Hfind.
  - unfold Host.getItem, bind, Host.getItemOrNullObject. rewrite Hfind. cbn [ret].
    now apply Hadd.
  - destruct (add_cases (x :: n) wb) as [[code ->] | ->]; [assumption |].
    apply Hadd. intros h ws Hws. exists ws. cbn [worksheets].
    rewrite lookup_app_l by now apply lookup_lt_Some in Hws. auto.
Qed.

(** ** The results sheet chosen for an append *)

Lemma strLe_refl (a : jsstring) : strLe a a = true.
Proof.
  induction a as [|x a IH]; simpl; [reflexivity |].
  now rewrite N.ltb_irrefl.
Qed.

Lemma strLe_total (a b : jsstring) : strLe a b = false -> strLe b a = true.
Proof.
  revert b. induction a as [|x a IH]; intros [|y b]; simpl; try discriminate;
    try reflexivity.
  destruct (N.ltb_spec x y), (N.ltb_spec y x); try discriminate; try reflexivity;
    try lia. apply IH.
Qed.

Lemma strLe_trans (a b c : jsstring) :
  strLe a b = true -> strLe b c = true -> strLe a c = true.
Proof.
  revert b c. induction a as [|x a IH]; intros [|y b] [|z c]; simpl;
    try discriminate; try reflexivity.
  destruct (N.ltb_spec x y), (N.ltb_spec y x), (N.ltb_spec y z), (N.ltb_spec z y),
    (N.ltb_spec x z), (N.ltb_spec z x);
    try discriminate; try reflexivity; try lia.
  apply IH.
Qed.

Lemma insertSorted_elem (x z : jsstring) (l : list jsstring) :
  In x (insertSorted z l) <-> x = z \/ In x l.
Proof.
  split; [apply insertSorted_In |].
  induction l as [|w l IH]; simpl.
  - intros [-> | []]. now left.
  - destruct (strLe z w); simpl; intros [-> | [-> | H]]; auto.
Qed.

Lemma sortStrings_elem (x : jsstring) (l : list jsstring) :
  In x (sortStrings l) <-> In x l.
Proof.
  induction l as [|y l IH]; simpl; [tauto |].
  rewrite insertSorted_elem, IH. intuition congruence.
Qed.

Lemma insertSorted_sorted (z : jsstring) (l : list jsstring) :
  StronglySorted (fun a b => strLe a b = true) l ->
  StronglySorted (fun a b => strLe a b = true) (insertSorted z l).
Proof.
  induction l as [|w l IH]; simpl; intros Hs.
  - constructor; constructor.
  - inversion Hs as [| ? ? Hl Hw]; subst. destruct (strLe z w) eqn:E.
    + constructor; [assumption |]. constructor; [assumption |].
      eapply Forall_impl; [exact Hw |]. intros a Ha. eapply strLe_trans; eassumption.
    + constructor; [auto |]. apply Forall_forall. intros a Ha.
      apply list_elem_of_In, insertSorted_elem in Ha as [-> | Ha].
      * now apply strLe_total.
      * rewrite Forall_forall in Hw. apply Hw. now apply list_elem_of_In.
Qed.

Lemma sortStrings_sorted (l : list jsstring) :
  StronglySorted (fun a b => strLe a b = true) (sortStrings l).
Proof.
  induction l as [|y l IH]; simpl; [constructor |]. now apply insertSorted_sorted.
Qed.

Lemma sorted_last (l : list jsstring) (n : jsstring) :
  StronglySorted (fun a b => strLe a b = true) l -> last l = Some n ->
  forall m, In m l -> strLe m n = true.
Proof.
  induction l as [|x l IH]; [discriminate |].
  intros Hs Hlast m Hm. inversion Hs as [| ? ? Hl Hx]; subst.
  destruct l as [|y l].
  - injection Hlast as <-. destruct Hm as [<- | []]. apply strLe_refl.
  - assert (Hn : last (y :: l) = Some n) by exact Hlast.
    destruct Hm as [<- | Hm]; [| now apply IH].
    rewrite Forall_forall in Hx. apply Hx, list_elem_of_In.
    apply list_elem_of_In, last_Some_elem_of, Hn.
Qed.

(** X17: the results sheet chosen for an append is the name, among the
    sheet names with the prefix, that comes last in the order of code units:
    every such name is below it or equal to it in that order, which is not
    the order of the numbers (AI_Results_10 comes before AI_Results_2). *)
Theorem latest_results_sheet_is_greatest (wb wb' : Workbook) (n : jsstring) :
  latestResultsSheet false wb = (wb', Ok (Some n)) ->
  wb' = wb
  /\ In n (map sheetName (worksheets wb))
  /\ startsWith n resultsPrefix = true
  /\ forall m, In m (map sheetName (worksheets wb)) ->
               startsWith m resultsPrefix = true -> strLe m n = true.
Proof.
  intros H. pose proof (latestResultsSheet_prefix _ _ _ H) as Hpre.
  pose proof (latestResultsSheet_same false wb) as Hsame. rewrite H in Hsame.
  simpl in Hsame. subst wb'. split; [reflexivity |].
  revert H. unfold latestResultsSheet. exec.
  destruct (List.filter _ _) as [|m0 ms] eqn:E; [discriminate |].
  intros [= Hl]. change (last (sortStrings (m0 :: ms)) = Some n) in Hl.
  rewrite <- E in Hl.
  assert (Hin : In n (List.filter (fun n => startsWith n resultsPrefix)
                        (map sheetName (worksheets wb)))).
  { apply sortStrings_elem, list_elem_of_In, last_Some_elem_of, Hl. }
  split; [now apply filter_In in Hin |]. split; [assumption |].
  intros m Hm Hp. apply (sorted_last _ n (sortStrings_sorted _) Hl).
  apply sortStrings_elem, filter_In. auto.
Qed.

Lemma latest_results_sheet_is_greatest_witness :
  let wb := {| worksheets := [sheetWith "AI_Results_2" []; sheetWith "Data" [];
                              sheetWith "AI_Results_10" []];
               activeSheet := 0 |} in
  latestResultsSheet false wb = (wb, Ok (Some (js "AI_Results_2")))
  /\ strLe (js "AI_Results_10") (js "AI_Results_2") = true.
Proof.
  intros wb. split; [reflexivity |].
  destruct (latest_results_sheet_is_greatest wb wb (js "AI_Results_2") eq_refl)
    as (_ & _ & _ & H).
  apply H; [right; right; left |]; reflexivity.
Defined.

(** ** Relations that the steps of a handler preserve *)

Section Preserved.
Variable R : AppState -> AppState -> Prop.
Hypothesis R_refl : forall st, R st st.
Hypothesis R_trans : forall st1 st2 st3, R st1 st2 -> R st2 st3 -> R st1 st3.

Lemma pres_ret {A} (a : A) : HPres R (ret a : Handler A).
Proof. intros st. apply R_refl. Qed.

Lemma pres_bind {A B} (m : Handler A) (k : A -> Handler B) :
  HPres R m -> (forall a, HPres R (k a)) -> HPres R (bind m k).
Proof.
  intros Hm Hk st. unfold bind. specialize (Hm st).
  destruct (m st) as [st' [a | e]]; simpl in *; [| assumption].
  eapply R_trans; [eassumption | apply Hk].
Qed.

Lemma pres_tryCatch {A} (body : Handler A) (handler : Error -> Handler A) :
  HPres R body -> (forall e, HPres R (handler e)) -> HPres R (tryCatch body handler).
Proof.
  intros Hb Hh st. unfold tryCatch. specialize (Hb st).
  destruct (body st) as [st' [a | e]]; simpl in *; [assumption |].
  eapply R_trans; [eassumption | apply Hh].
Qed.

Lemma pres_finish {A} (h : Handler A) (st : AppState) : HPres R h -> R st (finish h st).
Proof. intros H. apply H. Qed.
End Preserved.

Lemma pendingKept_refl (st : AppState) : pendingKept st st.
Proof. now left. Qed.

Lemma pendingKept_trans (st1 st2 st3 : AppState) :
  pendingKept st1 st2 -> pendingKept st2 st3 -> pendingKept st1 st3.
Proof. unfold pendingKept. intros [-> | H12] [-> | H23]; auto. Qed.

Lemma sameRequests_trans (st1 st2 st3 : AppState) :
  sameRequests st1 st2 -> sameRequests st2 st3 -> sameRequests st1 st3.
Proof. unfold sameRequests. congruence. Qed.

(** Decomposition of a handler whose steps all preserve a relation. *)
Ltac pres_steps Hrefl Htrans :=
  repeat first
    [ progress cbv beta iota zeta
    | apply (pres_bind _ Htrans); [| intros ?]
    | apply (pres_tryCatch _ Htrans); [| intros ?]
    | apply (pres_ret _ Hrefl)
    | match goal with
      | |- HPres _ (match ?x with _ => _ end) => destruct x
      | |- HPres _ (if ?x then _ else _) => destruct x
      end
    | intros ?; first [ now left | reflexivity ]
    | intros ?; unfold excelRun; match goal with
                                 | |- context [?m (workbook ?s)] =>
                                     destruct (m (workbook s)); first [now left | reflexivity]
                                 end ].

Lemma handlePlaceOnResultsSheet_pending (createNew : bool) (st : AppState) :
  pendingKept st (handlePlaceOnResultsSheet createNew st).
Proof.
  unfold handlePlaceOnResultsSheet.
  destruct (pendingPlacement st) as [pp |] eqn:Hp; [| now left].
  apply (pres_finish pendingKept). unfold placeOnResultsSheetBody.
  pres_steps pendingKept_refl pendingKept_trans.
  all: try (intros s; now right).
Qed.

(** ** No overwrite confirmation is ever awaited *)

Lemma sendAwaitingCell_pending (pp : PendingPlacement) (st : AppState) :
  pendingKept st (sendAwaitingCell pp st).
Proof.
  unfold sendAwaitingCell. cbv zeta. destruct (negb _); [now left |].
  unfold placeInCell. hexec. cbv beta iota delta [Host.getActiveWorksheet].
  destruct (Host.readCell _ _ _) as [wb1 [v | e]]; [| now left].
  destruct (filled v); [now right |].
  destruct (nonEmpty (chart pp)) as [c |].
  - destruct (insertChartImageOnSheet _ _ _) as [wb2 [[] | e]]; [now right | now left].
  - destruct (writeResult _ _ _ _ _) as [wb2 [[] | e]]; [now right | now left].
Qed.

Lemma sendCommand_pending (backend : Payload -> BackendAnswer) (st : AppState) :
  noOverwriteAwaited st -> noOverwriteAwaited (sendCommand backend st).
Proof.
  intros Hq. unfold sendCommand. destruct (trim (input st)) as [|x userText];
    [assumption |].
  hexec. destruct (getExcelData (workbook st)) as [wb1 [excelData | e]].
  - unfold fetchChat. cbn [workbook messages input pendingPlacement pendingUpload requests].
    destruct (backend _) as [m | | [|] n c]; hexec; intros pp; try apply Hq.
    now intros [= <-].
  - exact Hq.
Qed.

Lemma uploads_pending (now : N) (st : AppState) :
  pendingPlacement (uploadCreateSheet now st) = pendingPlacement st
  /\ pendingPlacement (uploadAppendBelow st) = pendingPlacement st
  /\ pendingPlacement (uploadMergeHorizontally st) = pendingPlacement st
  /\ pendingPlacement (uploadCancel st) = pendingPlacement st.
Proof.
  unfold uploadCreateSheet, uploadAppendBelow, uploadMergeHorizontally, uploadCancel.
  destruct (pendingUpload st) as [up |]; [| auto]. repeat split.
  - hexec. now destruct (createSheetFromUpload _ _ _ _) as [wb1 [res | e]].
  - hexec. destruct (activeSheetIsEmpty _) as [wb1 [[|] | e]]; [| | reflexivity].
    + now destruct (writeUploadToEmptySheet _ _ _) as [wb2 [res | e]].
    + now destruct (appendUploadToActiveSheetVertical _ _ _) as [wb2 [[n | m s | r] | e]].
  - hexec. now destruct (appendUploadToActiveSheet _ _ _) as [wb2 [[n | m s | r] | e]].
Qed.

Lemma fileChange_pending (file : option jsstring) (up : UploadAnswer)
    (full : RowsAnswer) (st : AppState) :
  pendingPlacement
    (match file with
     | Some name => finish (fileChange name up full) st
     | None => st
     end)
  = pendingPlacement st.
Proof.
  destruct file as [name |]; [| reflexivity].
  destruct up as [shown | | detail | file_id original_name parsed];
    try reflexivity.
  destruct full as [shown | status rows_no_header]; reflexivity.
Qed.

Lemma step_keeps_no_overwrite (backend : Payload -> BackendAnswer) (a : Action)
    (st : AppState) :
  noOverwriteAwaited st -> noOverwriteAwaited (step backend a st).
Proof.
  intros Hq.
  assert (Hkept : forall st', pendingKept st st' -> noOverwriteAwaited st').
  { intros st' [E | E] pp Hpp; rewrite E in Hpp; [eauto | discriminate]. }
  destruct a as [| | createNew | | | now | | | | file up full]; cbn [step].
  - apply Hkept. destruct (pendingPlacement st) as [pp |] eqn:Hp.
    + right. apply place_clears_pending. congruence.
    + left. unfold handlePlaceInExcelForChartOrBelow. now rewrite Hp.
  - unfold handlePlaceInSpecificCell. destruct (pendingPlacement st) as [pp |] eqn:Hp.
    + hexec. intros pp' [= <-]. cbn [awaitingOverwrite]. auto.
    + apply Hkept. now left.
  - apply Hkept, handlePlaceOnResultsSheet_pending.
  - apply Hkept. right. unfold handleDontPlace.
    destruct (pendingPlacement st); reflexivity.
  - unfold handleSend. destruct (pendingPlacement st) as [pp |] eqn:Hp.
    + rewrite (Hq pp Hp). destruct (awaitingCell pp).
      * apply Hkept, sendAwaitingCell_pending.
      * apply Hkept. now left.
    + now apply sendCommand_pending.
  - apply Hkept. left. apply uploads_pending.
  - apply Hkept. left. apply (uploads_pending 0).
  - apply Hkept. left. apply (uploads_pending 0).
  - apply Hkept. left. apply (uploads_pending 0).
  - apply Hkept. left. apply fileChange_pending.
Qed.

(** X18: the Submit button does what the Enter key does: the guard of its
    [onClick] is the third branch of [handleSend]. *)
Theorem submit_is_send (backend : Payload -> BackendAnswer) (st : AppState) :
  submitClick backend st = handleSend backend st.
Proof.
  unfold submitClick, handleSend. destruct (pendingPlacement st) as [pp |]; [| reflexivity].
  destruct (awaitingOverwrite pp) as [ao |].
  - rewrite bool_decide_eq_true_2 by eauto. now rewrite andb_false_r.
  - rewrite bool_decide_eq_false_2 by (intros [x Hx]; discriminate).
    now destruct (awaitingCell pp).
Qed.

Lemma reachable_no_overwrite (st : AppState) :
  reachable st -> noOverwriteAwaited st.
Proof.
  induction 1 as [st Hp | backend a st _ IH | backend st _ IH | st st' _ IH E].
  - intros pp Hpp. congruence.
  - now apply step_keeps_no_overwrite.
  - unfold submitClick. destruct (pendingPlacement st) as [pp |] eqn:Hp;
      [destruct (_ && _) |]; try apply (step_keeps_no_overwrite backend Send _ IH).
    intros pp'. hexec. rewrite Hp. intros [= <-]. now apply IH.
  - intros pp Hpp. apply IH. congruence.
Qed.

(** X19: in no state of the task pane is an overwrite confirmation
    awaited: every handler that sets [awaitingOverwrite] clears the pending
    result before it ends.  So, with a result pending, [handleSend] never
    takes its first branch. *)
Theorem overwrite_never_awaited
    (backend : Payload -> BackendAnswer) (st : AppState) (pp : PendingPlacement) :
  reachable st ->
  pendingPlacement st = Some pp ->
  awaitingOverwrite pp = None
  /\ handleSend backend st
     = if awaitingCell pp then sendAwaitingCell pp st
       else finish (say Text.finishFirst) st.
Proof.
  intros Hr%reachable_no_overwrite Hp. split; [now apply Hr |].
  unfold handleSend. now rewrite Hp, (Hr pp Hp).
Qed.

(** X20: in every state of the task pane the actions that write under a
    guard (all but the append to an existing results sheet, the append below
    the data of a sheet in use and the horizontal merge) keep every cell
    that holds a value, with no exception. *)
Theorem reachable_guarded_keeps
    (backend : Payload -> BackendAnswer) (a : Action) (st : AppState) :
  reachable st -> guarded a st ->
  keeps (workbook st) (workbook (step backend a st)).
Proof.
  intros Hr%reachable_no_overwrite Hg.
  destruct a as [| | createNew | | | now | | | | file up full];
    cbn [guarded step] in *; try apply (chooseFile_keeps backend file up full st).
  - apply handlePlaceInExcel_keeps.
  - apply handlePlaceInSpecificCell_keeps.
  - subst createNew. apply handlePlaceOnNewResultsSheet_keeps.
  - apply handleDontPlace_keeps.
  - unfold handleSend. destruct (pendingPlacement st) as [pp |] eqn:Hp;
      [| apply sendCommand_keeps].
    rewrite (Hr pp Hp). destruct (awaitingCell pp);
      [apply sendAwaitingCell_keeps | apply say_keeps].
  - apply uploadCreateSheet_keeps.
  - now apply uploadAppendBelow_empty_keeps.
  - destruct Hg.
  - apply uploadCancel_keeps.
Qed.

(** ** What reaches the backend *)

Lemma sameRequests_refl (st : AppState) : sameRequests st st.
Proof. reflexivity. Qed.

Ltac req_steps := pres_steps sameRequests_refl sameRequests_trans.

Lemma placeInExcelBody_requests (pp : PendingPlacement) :
  HPres sameRequests (placeInExcelBody pp).
Proof. unfold placeInExcelBody. req_steps. Qed.

Lemma placeOnResultsSheetBody_requests (pp : PendingPlacement) (createNew : bool) :
  HPres sameRequests (placeOnResultsSheetBody pp createNew).
Proof. unfold placeOnResultsSheetBody. req_steps. Qed.

Lemma placeInCell_requests (pp : PendingPlacement) (a : jsstring) :
  HPres sameRequests (placeInCell pp a).
Proof. unfold placeInCell. req_steps. Qed.

Lemma say_requests (t : jsstring) : HPres sameRequests (say t).
Proof. intros st. reflexivity. Qed.

Lemma setInput_requests (v : jsstring) : HPres sameRequests (setInput v).
Proof. intros st. reflexivity. Qed.

Lemma clear_requests : HPres sameRequests clearPendingPlacement.
Proof. intros st. reflexivity. Qed.

Lemma setPendingUpload_requests (v : option PendingUpload) :
  HPres sameRequests (setPendingUpload v).
Proof. intros st. reflexivity. Qed.

Lemma excelRun_requests {A} (m : Excel A) : HPres sameRequests (excelRun m).
Proof. intros st. unfold excelRun. now destruct (m (workbook st)). Qed.

(** X21: an event of the pane, the choice of a file included, posts to
    the chat endpoint only when it is a text sent while no result is pending
    and the trimmed text is not empty; it then posts one request, carrying
    the trimmed text and the messages shown before.  (The choice of a file
    talks to the upload endpoints only.) *)
Theorem backend_contacted_only_by_command
    (backend : Payload -> BackendAnswer) (a : Action) (st : AppState) :
  requests (step backend a st) <> requests st ->
  a = Send /\ pendingPlacement st = None /\ trim (input st) <> []
  /\ exists excelData,
       requests (step backend a st)
       = requests st ++ [{| user_message := trim (input st);
                            excel_data := excelData;
                            chat_history := messages st |}].
Proof.
  intros Hne.
  assert (Hsame : sameRequests st (step backend a st) -> False) by (intros E; now apply Hne).
  destruct a as [| | createNew | | | now | | | | file up full]; cbn [step] in *.
  - exfalso. apply Hsame. unfold handlePlaceInExcelForChartOrBelow.
    destruct (pendingPlacement st) as [pp |]; [| reflexivity].
    apply (pres_finish sameRequests). apply (pres_bind _ sameRequests_trans).
    + apply (pres_tryCatch _ sameRequests_trans);
        [apply placeInExcelBody_requests | intros e; apply say_requests].
    + intros _. apply clear_requests.
  - exfalso. apply Hsame. unfold handlePlaceInSpecificCell.
    destruct (pendingPlacement st); reflexivity.
  - exfalso. apply Hsame. unfold handlePlaceOnResultsSheet.
    destruct (pendingPlacement st) as [pp |]; [| reflexivity].
    apply (pres_finish sameRequests). apply (pres_tryCatch _ sameRequests_trans);
      [apply placeOnResultsSheetBody_requests | intros e; apply say_requests].
  - exfalso. apply Hsame. unfold handleDontPlace.
    destruct (pendingPlacement st); reflexivity.
  - unfold handleSend in *. destruct (pendingPlacement st) as [pp |] eqn:Hp.
    + exfalso. apply Hsame. destruct (awaitingOverwrite pp) as [ao |].
      * unfold sendAwaitingOverwrite. destruct (confirmsOverwrite _ _); [| reflexivity].
        apply (pres_finish sameRequests). req_steps.
      * destruct (awaitingCell pp); [| reflexivity].
        unfold sendAwaitingCell. cbv zeta. destruct (negb _); [reflexivity |].
        apply (pres_finish sameRequests). apply (pres_bind _ sameRequests_trans);
          [| intros _; apply setInput_requests].
        apply (pres_tryCatch _ sameRequests_trans); [| intros e; apply say_requests].
        apply (pres_bind _ sameRequests_trans);
          [apply placeInCell_requests | intros _; apply clear_requests].
    + split; [reflexivity |]. split; [reflexivity |].
      unfold sendCommand in *. destruct (trim (input st)) as [|x userText] eqn:Ht;
        [now exfalso; apply Hsame |].
      split; [discriminate |]. revert Hsame. hexec.
      destruct (getExcelData (workbook st)) as [wb1 [excelData | e]].
      * intros _. exists excelData. unfold fetchChat.
        cbn [workbook messages input pendingPlacement pendingUpload requests].
        destruct (backend _) as [m | | [|] n c]; reflexivity.
      * intros Hsame. exfalso. apply Hsame. reflexivity.
  - exfalso. apply Hsame. unfold uploadCreateSheet.
    destruct (pendingUpload st) as [up |]; [| reflexivity].
    apply (pres_finish sameRequests). req_steps.
  - exfalso. apply Hsame. unfold uploadAppendBelow.
    destruct (pendingUpload st) as [up |]; [| reflexivity].
    apply (pres_finish sameRequests). req_steps.
  - exfalso. apply Hsame. unfold uploadMergeHorizontally.
    destruct (pendingUpload st) as [up |]; [| reflexivity].
    apply (pres_finish sameRequests). req_steps.
  - exfalso. apply Hsame. unfold uploadCancel.
    destruct (pendingUpload st) as [up |]; reflexivity.
  - exfalso. apply Hsame. destruct file as [name |]; [| reflexivity].
    destruct up as [shown | | detail | file_id original_name parsed];
      try reflexivity.
    destruct full as [shown | status rows_no_header]; reflexivity.
Qed.

(** The choice of a file whose upload is accepted: two messages, and the
    upload pending with the headers of the first sheet and the rows
    fetched. *)
Lemma chooseFile_instance :
  let parsed := {| parsedType := js "csv";
                   sheets := [{| sheetHeaders := [js "Qty"];
                                 row_count := {| unscaled := 1; scale := 0 |} |}] |} in
  step noBackend
    (ChooseFile (Some (js "qty.csv")) (Uploaded (js "f1") (js "qty.csv") parsed)
       (RowsStatus 200 (Some [[VNum {| unscaled := 5; scale := 0 |}]])))
    (stateOf occupiedA1 "" None)
  = {| messages :=
         [aiSays (Text.uploading (js "qty.csv"));
          aiSays (Text.check ++
                  js " Uploaded qty.csv. Detected CSV with 1 sheet(s). First sheet has 1 rows and headers: Qty")];
       input := []; pendingPlacement := None; pendingUpload := Some uploadQty;
       workbook := occupiedA1; requests := [] |}.
Proof. vm_compute. reflexivity. Qed.

(** ** The outcome of a command *)

Lemma nonEmpty_default (d : jsstring) (o : option jsstring) :
  d <> [] -> default d (nonEmpty o) <> [].
Proof. intros Hd. destruct o as [[|x s] |]; simpl; congruence. Qed.

(** X22: a command sent while nothing is pending leaves the workbook and
    the pending upload as they were and empties the input; a result is
    pending afterwards exactly when the backend answered [ok], and then its
    note is not empty, its column hint is the one read from the command, and
    no cell address or overwrite confirmation is awaited. *)
Theorem command_outcome
    (backend : Payload -> BackendAnswer) (st : AppState) (ws : Worksheet) :
  pendingPlacement st = None ->
  worksheets (workbook st) !! activeSheet (workbook st) = Some ws ->
  trim (input st) <> [] ->
  let payload := {| user_message := trim (input st);
                    excel_data := valuesOrEmpty (getUsedRangeOrNullObject ws);
                    chat_history := messages st |} in
  let st' := handleSend backend st in
  workbook st' = workbook st
  /\ input st' = []
  /\ pendingUpload st' = pendingUpload st
  /\ match backend payload with
     | Data true n c =>
         exists text,
           text <> [] /\ text = default Text.done (nonEmpty n)
           /\ pendingPlacement st'
              = Some {| note := text; chart := nonEmpty c;
                        suggestedColumn := suggestColumn (trim (input st));
                        awaitingCell := false; awaitingOverwrite := None |}
           /\ messages st'
              = messages st
                ++ [{| Message.role := Message.user; Message.text := trim (input st);
                       Message.chart := None |};
                    {| Message.role := Message.ai; Message.text := text;
                       Message.chart := nonEmpty c |}]
     | _ => pendingPlacement st' = None
     end.
Proof.
  intros Hp Hws Hin payload st'. unfold st', payload, handleSend, sendCommand.
  rewrite Hp. destruct (trim (input st)) as [|x userText] eqn:Ht; [congruence |].
  hexec. unfold getExcelData, fetchChat. exec. rewrite Hws. exec.
  cbn [workbook requests messages input pendingPlacement pendingUpload].
  destruct (backend _) as [m | | [|] n c]; hexec; rewrite ?Hp; auto.
  repeat split. eexists. split; [| split; [reflexivity |]].
  - apply nonEmpty_default. discriminate.
  - split; [reflexivity |]. now rewrite <- app_assoc.
Qed.

(** ** A column hint that matches no header *)

Lemma findIndex_none {A} (p : A -> bool) (l : list A) :
  (forall x, In x l -> p x = false) -> findIndex p l = None.
Proof.
  induction l as [|y l IH]; intros H; simpl; [reflexivity |].
  rewrite (H y) by now left. rewrite IH; [reflexivity |]. intros x Hx. apply H. now right.
Qed.

(** X23: when the column hint of a pending note matches no header of the
    first used row (or the sheet is empty), the hint and the headers being
    ASCII text, the Place action writes nothing, reports that the column was
    not found and drops the pending result. *)
Theorem place_with_unknown_column
    (st : AppState) (pp : PendingPlacement) (col : jsstring) (ws : Worksheet) :
  pendingPlacement st = Some pp ->
  nonEmpty (chart pp) = None ->
  nonEmpty (suggestedColumn pp) = Some col ->
  worksheets (workbook st) !! activeSheet (workbook st) = Some ws ->
  asciiOnly col ->
  (forall header rest h,
      valuesOrEmpty (getUsedRangeOrNullObject ws) = header :: rest ->
      In h header -> asciiOnly (toString h) /\ headerMatches col h = false) ->
  handlePlaceInExcelForChartOrBelow st
  = {| messages := messages st ++ [aiSays (Text.columnNotFound col)];
       input := input st; pendingPlacement := None;
       pendingUpload := pendingUpload st; workbook := workbook st;
       requests := requests st |}.
Proof.
  intros Hp Hc Hcol Hws _ Hno. unfold handlePlaceInExcelForChartOrBelow, placeInExcelBody.
  rewrite Hp, Hc, Hcol. hexec. unfold findPlacementCell. exec. rewrite Hws. exec.
  destruct (valuesOrEmpty (getUsedRangeOrNullObject ws)) as [|header rest] eqn:Hv.
  - reflexivity.
  - rewrite (findIndex_none (headerMatches col) header); [reflexivity |].
    intros h Hh. exact (proj2 (Hno header rest h eq_refl Hh)).
Qed.

(** ** A text that is not an address *)

(** X24: while a cell address is awaited, an input of ASCII characters
    that is not letters followed by digits (after trimming and upper-casing)
    is rejected: the result stays pending, the workbook and the requests are
    unchanged, the input is emptied. *)
Theorem invalid_address_is_rejected
    (backend : Payload -> BackendAnswer) (st : AppState) (pp : PendingPlacement) :
  pendingPlacement st = Some pp ->
  awaitingOverwrite pp = None ->
  awaitingCell pp = true ->
  asciiOnly (input st) ->
  lettersThenDigits Chars.isUpper (toUpperCase (trim (input st))) = false ->
  handleSend backend st
  = {| messages := messages st ++ [aiSays Text.invalidCell];
       input := []; pendingPlacement := Some pp;
       pendingUpload := pendingUpload st; workbook := workbook st;
       requests := requests st |}.
Proof.
  intros Hp Ho Hc _ Hshape. unfold handleSend, sendAwaitingCell.
  rewrite Hp, Ho, Hc. cbv zeta.
  rewrite (letters_digits_only Chars.isUpper digit_not_upper), Hshape. hexec.
  now rewrite Hp.
Qed.

(** ** Placing in a cell typed by the user *)

(** X25: "Place in specific cell", then the address of a cell of the grid
    that is null or empty, typed and sent: the value of the note is written
    to that cell of the active sheet and nothing stays pending. *)
Theorem place_in_typed_cell
    (backend : Payload -> BackendAnswer) (st : AppState) (pp : PendingPlacement)
    (typed : jsstring) (ws : Worksheet) (r c : nat) :
  pendingPlacement st = Some pp ->
  awaitingOverwrite pp = None ->
  nonEmpty (chart pp) = None ->
  worksheets (workbook st) !! activeSheet (workbook st) = Some ws ->
  parseA1 (toUpperCase (trim typed)) = Some (r, c) ->
  filled (cellAt ws r c) = false ->
  handleSend backend (typeInput typed (handlePlaceInSpecificCell st))
  = {| messages := messages st
                   ++ [aiSays Text.askCell;
                       aiSays (Text.placedAtDot (toUpperCase (trim typed)))];
       input := []; pendingPlacement := None;
       pendingUpload := pendingUpload st;
       workbook :=
         withSheet (workbook st) (activeSheet (workbook st))
           (withCells ws (putCell (r, c) (resultValue (note pp)) (cells ws)));
       requests := requests st |}.
Proof.
  intros Hp Ho Hc Hws Ha Hf.
  unfold handlePlaceInSpecificCell, typeInput. rewrite Hp. hexec.
  unfold handleSend. cbn [pendingPlacement awaitingOverwrite awaitingCell].
  rewrite Ho.
  match goal with
  | |- sendAwaitingCell ?p ?s = _ =>
      rewrite (sendAwaitingCell_writes s p ws r c Hc Hws Ha Hf)
  end.
  cbn [messages input pendingUpload workbook requests note].
  now rewrite <- app_assoc.
Qed.

(** ** A file name too long for a sheet *)

Lemma sheetBaseName_chars (fileName : jsstring) :
  forallb nameChar (sheetBaseName fileName) = true.
Proof.
  unfold sheetBaseName. apply forallb_forall. intros c Hc.
  apply filter_In in Hc. tauto.
Qed.

(** X26: "Create new sheet" for a file whose base name has 30 characters
    or more changes nothing: the sheet name would exceed the 31 characters
    of the host, the rejection is not caught, no message is shown and the
    upload stays pending. *)
Theorem long_file_name_blocks_new_sheet (now : N) (st : AppState) (up : PendingUpload) :
  pendingUpload st = Some up ->
  (30 <= length (sheetBaseName (fileName up)))%nat ->
  uploadCreateSheet now st = st.
Proof.
  intros Hup Hlen. unfold uploadCreateSheet. rewrite Hup. cbv zeta.
  set (newName := sheetBaseName (fileName up) ++ js "_" ++ NToString (now mod 10000)).
  assert (Hinvalid : Host.validName newName = false).
  { unfold Host.validName.
    assert (Hn : (31 < length newName)%nat).
    { unfold newName. rewrite !length_app. pose proof (NToString_nonempty (now mod 10000)).
      destruct (NToString _); [congruence |]. simpl. lia. }
    destruct (Nat.leb_spec (length newName) 31); [lia |].
    now rewrite andb_false_r. }
  hexec. unfold createSheetFromUpload, bind at 1, Host.add. rewrite Hinvalid.
  cbn [negb]. now destruct st.
Qed.

(** ** The prompt for an overwrite *)

Lemma sendCommand_workbook (backend : Payload -> BackendAnswer) (st : AppState) :
  workbook (sendCommand backend st) = workbook st.
Proof.
  unfold sendCommand. destruct (trim (input st)) as [|x userText]; [reflexivity |].
  hexec. pose proof (getExcelData_same (workbook st)) as Hsame.
  destruct (getExcelData (workbook st)) as [wb1 [excelData | e]]; simpl in Hsame; subst wb1.
  - unfold fetchChat. cbn [workbook messages input pendingPlacement pendingUpload requests].
    destruct (backend _) as [m | | [|] n c]; reflexivity.
  - reflexivity.
Qed.

Lemma sendAwaitingCell_occupied
    (st : AppState) (pp : PendingPlacement) (ws : Worksheet) (r c : nat) :
  worksheets (workbook st) !! activeSheet (workbook st) = Some ws ->
  parseA1 (toUpperCase (trim (input st))) = Some (r, c) ->
  filled (cellAt ws r c) = true ->
  sendAwaitingCell pp st
  = {| messages := messages st ++
         [aiSays (Text.cellOccupied (toUpperCase (trim (input st))))];
       input := []; pendingPlacement := None;
       pendingUpload := pendingUpload st; workbook := workbook st;
       requests := requests st |}.
Proof.
  intros Hws Ha Hf. unfold sendAwaitingCell, placeInCell.
  rewrite (parseA1_test_upper _ _ Ha). hexec. exec. rewrite Hws, Ha. exec.
  rewrite Hf. hexec. now destruct st.
Qed.

Lemma trim_nonempty (x : N) (l : jsstring) :
  Chars.isSpace x = false -> trim (x :: l) <> [].
Proof.
  intros Hx. unfold trim, trimStart. cbn [dropWhile]. rewrite Hx.
  destruct (trimEnd_head (x :: l) x l eq_refl Hx) as [r' ->]. discriminate.
Qed.

(** X27: after "Place in specific cell" and the address of a cell that
    holds a value, the pane prompts for "overwrite <address>" but nothing is
    pending any more; sending that phrase changes no cell and goes to the
    backend as a command. *)
Theorem occupied_prompt_is_not_awaited
    (backend : Payload -> BackendAnswer) (st : AppState) (pp : PendingPlacement)
    (typed : jsstring) (ws : Worksheet) (r c : nat) :
  pendingPlacement st = Some pp ->
  awaitingOverwrite pp = None ->
  worksheets (workbook st) !! activeSheet (workbook st) = Some ws ->
  parseA1 (toUpperCase (trim typed)) = Some (r, c) ->
  filled (cellAt ws r c) = true ->
  let a := toUpperCase (trim typed) in
  let st1 := handleSend backend (typeInput typed (handlePlaceInSpecificCell st)) in
  let st2 := handleSend backend (typeInput (js "overwrite " ++ a) st1) in
  st1 = {| messages := messages st ++ [aiSays Text.askCell; aiSays (Text.cellOccupied a)];
           input := []; pendingPlacement := None;
           pendingUpload := pendingUpload st; workbook := workbook st;
           requests := requests st |}
  /\ workbook st2 = workbook st
  /\ requests st2
     = requests st ++
         [{| user_message := trim (js "overwrite " ++ a);
             excel_data := valuesOrEmpty (getUsedRangeOrNullObject ws);
             chat_history := messages st1 |}].
Proof.
  intros Hp Ho Hws Ha Hf a st1 st2.
  assert (E1 : st1 = {| messages := messages st
                                    ++ [aiSays Text.askCell; aiSays (Text.cellOccupied a)];
                        input := []; pendingPlacement := None;
                        pendingUpload := pendingUpload st; workbook := workbook st;
                        requests := requests st |}).
  { unfold st1, handlePlaceInSpecificCell, typeInput. rewrite Hp. hexec.
    unfold handleSend. cbn [pendingPlacement awaitingOverwrite awaitingCell].
    rewrite Ho.
    match goal with
    | |- sendAwaitingCell ?p ?s = _ =>
        rewrite (sendAwaitingCell_occupied s p ws r c Hws Ha Hf)
    end.
    cbn [messages input pendingUpload workbook requests]. fold a.
    now rewrite <- app_assoc. }
  split; [exact E1 |].
  assert (Hin : trim (js "overwrite " ++ a) <> []).
  { change (js "overwrite " ++ a) with (111 :: js "verwrite " ++ a).
    now apply trim_nonempty. }
  unfold st2. rewrite E1. unfold typeInput. hexec. split.
  - unfold handleSend. cbn [pendingPlacement]. rewrite sendCommand_workbook. reflexivity.
  - rewrite (command_reaches_backend backend _ ws); cbn [pendingPlacement input workbook requests messages];
      auto.
Qed.

(** ** The start cell that the merge reports *)

Lemma writeBlock_grid (h r0 c0 nrows ncols : nat) (rows : list (list CellValue))
    (wb wb' : Workbook) :
  Host.writeBlock h r0 c0 nrows ncols rows wb = (wb', Ok tt) ->
  (0 < ncols)%nat /\ N.of_nat (c0 + ncols) <= maxColumns.
Proof.
  unfold Host.writeBlock. destruct (_ && _) eqn:Hc; [| discriminate]. intros _.
  apply andb_prop in Hc as [[[[[_ Hn]%andb_prop _]%andb_prop Hg]%andb_prop _]%andb_prop _].
  split; [now apply Nat.ltb_lt | now apply N.leb_le].
Qed.

(** X28: when the horizontal merge succeeds, the start cell it reports is
    the address of the cell of row 1 where its first header went, also
    beyond column Z, and the headers follow from there. *)
Theorem merge_reports_start_cell
    (hs : list jsstring) (rows : list (list CellValue)) (wb wb' : Workbook)
    (res : UploadResult) :
  appendUploadToActiveSheet hs rows wb = (wb', Ok res) ->
  exists startColumn a ws',
    res = Wrote (js "always_horizontal") (Some a)
    /\ parseA1 a = Some (0%nat, startColumn)
    /\ worksheets wb' !! activeSheet wb = Some ws'
    /\ forall j h, hs !! j = Some h -> cellAt ws' 0 (startColumn + j) = VStr h.
Proof.
  unfold appendUploadToActiveSheet.
  unfold bind at 1, Host.getActiveWorksheet.
  unfold bind at 1, Host.usedRange, bind at 1, Host.sheet.
  destruct (worksheets wb !! activeSheet wb) as [ws |] eqn:Hws; [| discriminate].
  cbn [ret].
  set (startColumn := match firstRowOf (getUsedRangeOrNullObject ws) with
                      | Some firstRow =>
                          match lastFilledIndex firstRow with
                          | Some lastFilled => (lastFilled + 1)%nat
                          | None => 0%nat
                          end
                      | None => 0%nat
                      end).
  unfold bind at 1.
  destruct (Host.writeBlock _ 0 startColumn 1 (length hs) [headerCells hs] wb)
    as [wb1 [[] | e]] eqn:E1; [| discriminate].
  destruct (writeBlock_grid _ _ _ _ _ _ _ _ E1) as [Hpos Hgrid].
  apply writeBlock_ok in E1 as (_ & _ & ws0 & Hws0 & ->).
  assert (ws0 = ws) as -> by congruence.
  set (m1 := Host.putRows 0 startColumn [headerCells hs] (cells ws)).
  assert (Hm1 : forall j h, hs !! j = Some h ->
                  m1 !! (0%nat, (startColumn + j)%nat) = assigned (VStr h) (cells ws !! (0%nat, (startColumn + j)%nat))).
  { intros j h Hh. unfold m1. rewrite putRows_lookup. cbn [Nat.sub lookup list_lookup].
    rewrite length_headerCells.
    assert (Hj : (j < length hs)%nat) by now apply lookup_lt_Some in Hh.
    case_decide; [| lia].
    replace (startColumn + j - startColumn)%nat with j by lia.
    unfold headerCells. now rewrite list_lookup_fmap, Hh. }
  assert (Hparse : parseA1 (indexToColumnName (N.of_nat startColumn + 1) ++ js "1")
                   = Some (0%nat, startColumn)).
  { destruct (indexToColumnName_spec (N.of_nat startColumn + 1)) as (Hup & Hnum & Hne).
    change (js "1") with (NToString 1).
    rewrite parseA1_letters_row.
    - rewrite Hnum. f_equal. f_equal; lia.
    - apply Hne. lia.
    - revert Hup. apply forallb_impl, upper_is_letter.
    - rewrite Hnum. lia.
    - unfold maxRows. lia. }
  assert (Hread : forall (m : gmap (nat * nat) CellValue) j h,
             hs !! j = Some h ->
             m !! (0%nat, (startColumn + j)%nat) = m1 !! (0%nat, (startColumn + j)%nat) ->
             default (VStr []) (m !! (0%nat, (startColumn + j)%nat)) = VStr h).
  { intros m j h Hh ->. rewrite (Hm1 j h Hh). now destruct h. }
  unfold bind at 1. destruct (Nat.ltb_spec 0 (length rows)) as [Hrows | Hrows].
  - destruct (Host.writeBlock _ 1 startColumn (length rows) (length hs) rows _)
      as [wb2 [[] | e]] eqn:E2; [| discriminate].
    apply writeBlock_ok in E2 as (_ & _ & ws1 & Hws1 & ->).
    cbn [withSheet worksheets] in Hws1.
    rewrite list_lookup_insert_eq in Hws1 by now apply lookup_lt_Some in Hws.
    injection Hws1 as <-. cbn [ret]. intros [= <- <-].
    exists startColumn. eexists. eexists. split; [reflexivity |].
    split; [exact Hparse |]. split.
    + cbn [withSheet worksheets]. rewrite list_insert_insert_eq.
      apply list_lookup_insert_eq. now apply lookup_lt_Some in Hws.
    + intros j h Hh. unfold cellAt. cbn [withCells cells]. apply (Hread _ j h Hh).
      apply putRows_outside. left. lia.
  - cbn [ret]. intros [= <- <-].
    exists startColumn. eexists. eexists. split; [reflexivity |].
    split; [exact Hparse |]. split.
    + cbn [withSheet worksheets]. apply list_lookup_insert_eq.
      now apply lookup_lt_Some in Hws.
    + intros j h Hh. unfold cellAt. cbn [withCells cells]. now apply (Hread _ j h Hh).
Qed.

(** ** Instances of the further properties *)

Lemma arraysEqualCI_spec_witness :
  arraysEqualCI [js "Item"; js "QTY"] [js "ITEM"; js "qty"] = true
  /\ sameTextCI (js "QTY") (js "qty").
Proof.
  assert (Ha : Forall asciiOnly [js "Item"; js "QTY"])
    by (repeat constructor; apply asciiOnly_check; reflexivity).
  assert (Hb : Forall asciiOnly [js "ITEM"; js "qty"])
    by (repeat constructor; apply asciiOnly_check; reflexivity).
  destruct (arraysEqualCI_spec [js "Item"; js "QTY"] [js "ITEM"; js "qty"] Ha Hb)
    as [H _].
  split; [reflexivity |].
  exact (proj2 (H eq_refl) 1%nat (js "QTY") (js "qty") eq_refl eq_refl).
Defined.

Lemma written_result_is_guarded_witness :
  writeResult (js "Total: 9") false (Some (js "a1")) false
    (writeResult (js "Total: 7") false (Some (js "a1")) true occupiedA1).1
  = ((writeResult (js "Total: 7") false (Some (js "a1")) true occupiedA1).1,
     Throw (occupiedError (js "A1"))).
Proof.
  refine (proj2 (written_result_is_guarded occupiedA1
                   (sheetWith "Sheet1" [((0, 0)%nat, VStr (js "kept"))])
                   (js "Total: 7") (js "Total: 9") (Some (js "a1")) 0 0 true
                   eq_refl eq_refl (or_introl eq_refl) _)).
  discriminate.
Defined.

Lemma merge_keeps_header_columns_witness :
  exists ws',
    worksheets (appendUploadToActiveSheet [js "Qty"]
                  [[VNum {| unscaled := 5; scale := 0 |}]] remarkBesideTable).1
      !! 0%nat = Some ws'
    /\ cellAt ws' 0 0 = VStr (js "Item").
Proof.
  exact (merge_keeps_header_columns [js "Qty"] [[VNum {| unscaled := 5; scale := 0 |}]]
           remarkBesideTable
           (sheetWith "Sheet1"
              [((0, 0)%nat, VStr (js "Item")); ((0, 1)%nat, VStr (js "Price"));
               ((1, 2)%nat, VStr (js "remark"))])
           {| minRow := 0; minCol := 0; maxRow := 1; maxCol := 2 |}
           0 0 1 eq_refl eq_refl eq_refl eq_refl (le_S _ _ (le_n 0)) eq_refl).
Defined.

Lemma append_below_keeps_witness :
  keeps occupiedA1 (workbook (uploadAppendBelow (uploadPending occupiedA1))).
Proof.
  apply (append_below_keeps (uploadPending occupiedA1)).
  intros ws b [= <-] Hb. vm_compute in Hb. now injection Hb as <-.
Defined.

Lemma writeUploadToEmptySheet_refuses_witness :
  writeUploadToEmptySheet [js "Qty"] [] occupiedA1
  = (occupiedA1, Ok (NotWritten (js "sheet_not_empty"))).
Proof.
  exact (writeUploadToEmptySheet_refuses [js "Qty"] [] occupiedA1
           (sheetWith "Sheet1" [((0, 0)%nat, VStr (js "kept"))]) 0 0 eq_refl eq_refl).
Defined.

Lemma createSheetFromUpload_round_trip_witness :
  exists ws',
    worksheets (createSheetFromUpload (js "Q1") [js "Item"; js "Qty"]
                  [[VStr (js "pen"); VNum {| unscaled := 5; scale := 0 |}]]
                  occupiedA1).1
    = worksheets occupiedA1 ++ [ws']
    /\ cellAt ws' 0 1 = VStr (js "Qty")
    /\ cellAt ws' 1 1 = VNum {| unscaled := 5; scale := 0 |}.
Proof.
  destruct (createSheetFromUpload_round_trip (js "Q1") [js "Item"; js "Qty"]
              [[VStr (js "pen"); VNum {| unscaled := 5; scale := 0 |}]] occupiedA1
              (createSheetFromUpload (js "Q1") [js "Item"; js "Qty"]
                 [[VStr (js "pen"); VNum {| unscaled := 5; scale := 0 |}]]
                 occupiedA1).1
              (Created (js "Q1")) eq_refl)
    as (_ & _ & ws' & Hws & _ & _ & Hh & Hr & _).
  exists ws'. split; [exact Hws |]. split.
  - exact (Hh 1%nat (js "Qty") eq_refl).
  - exact (Hr 0%nat 1%nat _ _ eq_refl eq_refl).
Defined.

Lemma results_append_keeps_witness :
  keeps resultsWorkbook
    (workbook (handlePlaceOnResultsSheet false
                 (stateOf resultsWorkbook "" (Some awaitingCellSum)))).
Proof.
  apply (results_append_keeps (stateOf resultsWorkbook "" (Some awaitingCellSum))).
  intros [|[|h]] ws b Hws Hb; cbn in Hws; try discriminate;
    injection Hws as <-; vm_compute in Hb; now injection Hb as <-.
Defined.

Lemma overwrite_never_awaited_witness :
  exists pp,
    pendingPlacement (step sumBackend Send (stateOf occupiedA1 "sum Item" None)) = Some pp
    /\ awaitingOverwrite pp = None.
Proof.
  eexists. split; [reflexivity |].
  refine (proj1 (overwrite_never_awaited sumBackend
                   (step sumBackend Send (stateOf occupiedA1 "sum Item" None)) _
                   (reach_step sumBackend Send _
              (reach_start (stateOf occupiedA1 "sum Item" None) eq_refl)) eq_refl)).
Defined.

Lemma reachable_guarded_keeps_witness :
  keeps occupiedA1
    (workbook (step sumBackend PlaceInExcel
                 (step sumBackend Send (stateOf occupiedA1 "sum Item" None)))).
Proof.
  exact (reachable_guarded_keeps sumBackend PlaceInExcel
           (step sumBackend Send (stateOf occupiedA1 "sum Item" None))
           (reach_step sumBackend Send _
              (reach_start (stateOf occupiedA1 "sum Item" None) eq_refl)) I).
Defined.

Lemma backend_contacted_only_by_command_witness :
  exists excelData,
    requests (step sumBackend Send (stateOf occupiedA1 " sum Item " None))
    = [{| user_message := js "sum Item"; excel_data := excelData; chat_history := [] |}].
Proof.
  destruct (backend_contacted_only_by_command sumBackend Send
              (stateOf occupiedA1 " sum Item " None))
    as (_ & _ & _ & excelData & E).
  - vm_compute. discriminate.
  - exists excelData. exact E.
Defined.

Lemma command_outcome_witness :
  pendingPlacement (handleSend sumBackend (stateOf occupiedA1 " sum Item " None))
  = Some {| note := sumNote; chart := None; suggestedColumn := Some (js "Item");
            awaitingCell := false; awaitingOverwrite := None |}.
Proof.
  destruct (command_outcome sumBackend (stateOf occupiedA1 " sum Item " None)
              (sheetWith "Sheet1" [((0, 0)%nat, VStr (js "kept"))]) eq_refl eq_refl)
    as (_ & _ & _ & H).
  - discriminate.
  - destruct H as (text & _ & -> & H & _). exact H.
Defined.

Lemma place_with_unknown_column_witness :
  handlePlaceInExcelForChartOrBelow (stateOf gapColumn "" (Some pendingForProfit))
  = {| messages := [aiSays (Text.columnNotFound (js "profit"))]; input := [];
       pendingPlacement := None; pendingUpload := None; workbook := gapColumn;
       requests := [] |}.
Proof.
  refine (place_with_unknown_column (stateOf gapColumn "" (Some pendingForProfit))
            pendingForProfit (js "profit") _ eq_refl eq_refl eq_refl eq_refl
            (asciiOnly_check (js "profit") eq_refl) _).
  intros header rest h E. vm_compute in E. injection E as <- _.
  intros [<- | [<- | []]]; (split; [now apply asciiOnly_check | reflexivity]).
Defined.

Lemma invalid_address_is_rejected_witness :
  handleSend noBackend (stateOf occupiedA1 "5C" (Some awaitingCellSum))
  = {| messages := [aiSays Text.invalidCell]; input := [];
       pendingPlacement := Some awaitingCellSum; pendingUpload := None;
       workbook := occupiedA1; requests := [] |}.
Proof.
  exact (invalid_address_is_rejected noBackend
           (stateOf occupiedA1 "5C" (Some awaitingCellSum)) awaitingCellSum
           eq_refl eq_refl eq_refl (asciiOnly_check (js "5C") eq_refl) eq_refl).
Defined.

Lemma place_in_typed_cell_witness :
  exists ws',
    worksheets (workbook (handleSend noBackend
                            (typeInput (js " b2 ")
                               (handlePlaceInSpecificCell
                                  (stateOf occupiedA1 "" (Some (pendingNote "Total: 7")))))))
      !! 0%nat = Some ws'
    /\ cellAt ws' 1 1 = VNum {| unscaled := 7; scale := 0 |}.
Proof.
  rewrite (place_in_typed_cell noBackend
             (stateOf occupiedA1 "" (Some (pendingNote "Total: 7")))
             (pendingNote "Total: 7") (js " b2 ")
             (sheetWith "Sheet1" [((0, 0)%nat, VStr (js "kept"))]) 1 1
             eq_refl eq_refl eq_refl eq_refl eq_refl eq_refl).
  eexists. split; reflexivity.
Defined.

Lemma long_file_name_blocks_new_sheet_witness :
  uploadCreateSheet 1234 longNamePending = longNamePending.
Proof.
  apply (long_file_name_blocks_new_sheet 1234 longNamePending longNameUpload eq_refl).
  vm_compute. lia.
Defined.

Lemma occupied_prompt_is_not_awaited_witness :
  let st1 := handleSend sumBackend
               (typeInput (js "a1")
                  (handlePlaceInSpecificCell
                     (stateOf occupiedA1 "" (Some (pendingNote "Total: 7"))))) in
  pendingPlacement st1 = None
  /\ workbook (handleSend sumBackend (typeInput (js "overwrite A1") st1)) = occupiedA1
  /\ length (requests (handleSend sumBackend (typeInput (js "overwrite A1") st1))) = 1%nat.
Proof.
  destruct (occupied_prompt_is_not_awaited sumBackend
              (stateOf occupiedA1 "" (Some (pendingNote "Total: 7")))
              (pendingNote "Total: 7") (js "a1")
              (sheetWith "Sheet1" [((0, 0)%nat, VStr (js "kept"))]) 0 0
              eq_refl eq_refl eq_refl eq_refl eq_refl)
    as (H1 & H2 & H3).
  cbv zeta. split; [now rewrite H1 |]. split; [exact H2 |].
  change (js "overwrite A1") with (js "overwrite " ++ toUpperCase (trim (js "a1"))).
  now rewrite H3.
Defined.

Lemma merge_reports_start_cell_witness :
  exists wb',
    appendUploadToActiveSheet [js "Qty"] [[VNum {| unscaled := 5; scale := 0 |}]]
      remarkBesideTable
    = (wb', Ok (Wrote (js "always_horizontal") (Some (js "C1"))))
    /\ parseA1 (js "C1") = Some (0%nat, 2%nat).
Proof.
  destruct (merge_reports_start_cell [js "Qty"] [[VNum {| unscaled := 5; scale := 0 |}]]
              remarkBesideTable
              (appendUploadToActiveSheet [js "Qty"]
                 [[VNum {| unscaled := 5; scale := 0 |}]] remarkBesideTable).1
              (Wrote (js "always_horizontal") (Some (js "C1"))) eq_refl)
    as (c0 & a & ws' & E & Hp & _).
  injection E as <-. rewrite Hp.
  exists (appendUploadToActiveSheet [js "Qty"]
            [[VNum {| unscaled := 5; scale := 0 |}]] remarkBesideTable).1.
  split; [reflexivity |]. f_equal. f_equal.
  vm_compute in Hp. now injection Hp.
Defined.
